(** * Verification of the job orchestrator [pkg/runner/run_context.go]

    A shallow embedding of the Go code of the job orchestrator (package
    [runner]), of the volume-removal executor of package [container], and of
    the pieces of Go's standard library they call, followed by the theorems
    that settle the claims C1..C10 of the specification. *)

From Stdlib Require Import ZArith NArith Ascii String List Lia Bool DecimalString.
From Stdlib Require DecimalNat.
From stdpp Require Import base option gmap strings list fin_maps.

Local Open Scope Z_scope.

(* ===================================================================== *)
(** * Go strings

    A Go [string] is a sequence of bytes: Rocq's [string] (a list of
    [ascii], one per byte). The functions of Go's [strings], [unicode/utf8]
    and [regexp] packages that the orchestrator calls are written out here
    at the instances the code uses. *)
(* ===================================================================== *)

Module gostrings.

Definition byteVal (c : ascii) : N := N_of_ascii c.

Definition inRange (lo hi : N) (c : ascii) : bool :=
  ((lo <=? byteVal c) && (byteVal c <=? hi))%N.

Definition isCont (c : ascii) : bool := inRange 0x80 0xBF c.

(** The character class [a-zA-Z0-9]. *)
Definition isAlnum (c : ascii) : bool :=
  inRange 97 122 c || inRange 65 90 c || inRange 48 57 c.

(** The character class [0-9]. *)
Definition isDigit (c : ascii) : bool := inRange 48 57 c.

Definition hyphen : ascii := "-"%char.

Definition isHyphen (c : ascii) : bool := Ascii.eqb c hyphen.

(** [utf8.DecodeRuneInString]: the width in bytes of the first rune of [s].
    An invalid or truncated encoding is the rune U+FFFD of width 1. *)
Definition runeWidth (s : string) : nat :=
  match s with
  | EmptyString => 0%nat
  | String b0 t =>
    let x := byteVal b0 in
    if (x <? 0x80)%N then 1%nat
    else if ((x <? 0xC2) || (0xF4 <? x))%N then 1%nat
    else if (x <? 0xE0)%N then
      match t with
      | String b1 _ => if isCont b1 then 2%nat else 1%nat
      | _ => 1%nat
      end
    else if (x <? 0xF0)%N then
      let lo := if (x =? 0xE0)%N then 0xA0%N else 0x80%N in
      let hi := if (x =? 0xED)%N then 0x9F%N else 0xBF%N in
      match t with
      | String b1 (String b2 _) =>
        if inRange lo hi b1 && isCont b2 then 3%nat else 1%nat
      | _ => 1%nat
      end
    else
      let lo := if (x =? 0xF0)%N then 0x90%N else 0x80%N in
      let hi := if (x =? 0xF4)%N then 0x8F%N else 0xBF%N in
      match t with
      | String b1 (String b2 (String b3 _)) =>
        if inRange lo hi b1 && isCont b2 && isCont b3 then 4%nat else 1%nat
      | _ => 1%nat
      end
  end.

(** [regexp.MustCompile("[^a-zA-Z0-9]").ReplaceAllString(s, "-")]: every
    rune outside the class becomes one hyphen. [skip] counts the bytes of
    the current rune that are still to be dropped. *)
Fixpoint replaceNonAlnumFrom (skip : nat) (s : string) : string :=
  match s with
  | EmptyString => EmptyString
  | String c t =>
    match skip with
    | S k => replaceNonAlnumFrom k t
    | O =>
      if isAlnum c then String c (replaceNonAlnumFrom 0 t)
      else String hyphen (replaceNonAlnumFrom (runeWidth s - 1) t)
    end
  end.

Definition replaceNonAlnum (s : string) : string := replaceNonAlnumFrom 0 s.

Fixpoint allDigits (s : string) : bool :=
  match s with
  | EmptyString => true
  | String c t => isDigit c && allDigits t
  end.

(** [regexp.MustCompile("-[0-9]+$").FindStringSubmatch(s)]: the leftmost
    match, which is the whole match [num[0]]; [None] is the nil slice. *)
Fixpoint findMatrixSuffix (s : string) : option string :=
  match s with
  | EmptyString => None
  | String c t =>
    if isHyphen c && negb (String.eqb t EmptyString) && allDigits t
    then Some s
    else findMatrixSuffix t
  end.

(** [strings.Join(elems, sep)]. *)
Definition Join (elems : list string) (sep : string) : string :=
  String.concat sep elems.

Fixpoint trimLeftByte (s : string) (c : ascii) : string :=
  match s with
  | EmptyString => EmptyString
  | String a t => if Ascii.eqb a c then trimLeftByte t c else s
  end.

Fixpoint trimRightByte (s : string) (c : ascii) : string :=
  match s with
  | EmptyString => EmptyString
  | String a t =>
    match trimRightByte t c with
    | EmptyString => if Ascii.eqb a c then EmptyString else String a EmptyString
    | r => String a r
    end
  end.

(** [strings.Trim(s, cutset)] for a cutset of one ASCII byte. *)
Definition Trim (s : string) (c : ascii) : string :=
  trimLeftByte (trimRightByte s c) c.

(** [strings.HasPrefix(s, prefix)]. *)
Fixpoint HasPrefix (s prefix : string) {struct prefix} : bool :=
  match prefix, s with
  | EmptyString, _ => true
  | String p ps, String a t => Ascii.eqb a p && HasPrefix t ps
  | String _ _, EmptyString => false
  end.

(** [strings.ReplaceAll(s, old, new)] for a non-empty [old]: the
    non-overlapping occurrences of [old], found from left to right, are
    replaced. [skip] counts the bytes of a replaced occurrence still to be
    dropped. *)
Fixpoint replaceAllFrom (skip : nat) (s old new : string) : string :=
  match s with
  | EmptyString => EmptyString
  | String c t =>
    match skip with
    | S k => replaceAllFrom k t old new
    | O =>
      if HasPrefix s old
      then new +:+ replaceAllFrom (String.length old - 1) t old new
      else String c (replaceAllFrom 0 t old new)
    end
  end.

Definition ReplaceAll (s old new : string) : string :=
  replaceAllFrom 0 s old new.

(** [strings.Contains(s, substr)]. *)
Fixpoint Contains (s substr : string) : bool :=
  HasPrefix s substr ||
  match s with
  | EmptyString => false
  | String _ t => Contains t substr
  end.

(** [strings.HasSuffix(s, suffix)] for a suffix of one byte. *)
Fixpoint endsWithByte (s : string) (c : ascii) : bool :=
  match s with
  | EmptyString => false
  | String a EmptyString => Ascii.eqb a c
  | String _ t => endsWithByte t c
  end.

(** [fmt.Sprintf("%d", i)] for a slice index. *)
Definition Sprintf_d (i : nat) : string :=
  NilEmpty.string_of_uint (Nat.to_uint i).

(** The scan that [ReplaceAll s "--" "-"] performs, as a specification
    of it ([gostrings_facts.ReplaceAll_collapse]). *)
Fixpoint collapse (s : string) : string :=
  match s with
  | String a ((String b t) as t') =>
    if isHyphen a && isHyphen b then String hyphen (collapse t)
    else String a (collapse t')
  | _ => s
  end.

Definition startsWithHyphen (s : string) : bool :=
  match s with
  | String a _ => isHyphen a
  | EmptyString => false
  end.



End gostrings.

(* ===================================================================== *)
(** * Container naming: [createContainerName] and [trimToLen] *)
(* ===================================================================== *)

Module naming.
Import gostrings.

(** [trimToLen(s, l)]. *)
Definition trimToLen (s : string) (l : Z) : string :=
  let l := if l <? 0 then 0 else l in
  if Z.of_nat (String.length s) >? l
  then String.substring 0 (Z.to_nat l) s
  else s.

(** The loop of [createContainerName]: the slice [name] it builds.
    [partLen] is computed by the caller from the number of parts; the last
    part ([i == len(parts)-1]) is never cut. *)
Fixpoint nameElems (partLen : Z) (parts : list string) : list string :=
  match parts with
  | [] => []
  | [part] => [replaceNonAlnum part]
  | part :: rest =>
    match findMatrixSuffix part with
    | Some num0 =>
      trimToLen (replaceNonAlnum part) (partLen - Z.of_nat (String.length num0))
        :: num0 :: nameElems partLen rest
    | None =>
      trimToLen (replaceNonAlnum part) partLen :: nameElems partLen rest
    end
  end.

(** [createContainerName(parts...)]. With no part at all the division
    [30 / len(parts)] panics (integer divide by zero): [None]. *)
Definition createContainerName (parts : list string) : option string :=
  match parts with
  | [] => None
  | _ =>
    let partLen := (30 / Z.of_nat (List.length parts)) - 1 in
    Some (ReplaceAll (Trim (Join (nameElems partLen parts) "-") hyphen) "--" "-")
  end.

(** What one non-final part contributes to the slice [name]. *)
Definition cutElems (partLen : Z) (part : string) : list string :=
  match findMatrixSuffix part with
  | Some num0 =>
    [trimToLen (replaceNonAlnum part) (partLen - Z.of_nat (String.length num0));
     num0]
  | None => [trimToLen (replaceNonAlnum part) partLen]
  end.

(** [partLen] as [createContainerName] computes it. *)
Definition partLenOf (parts : list string) : Z :=
  (30 / Z.of_nat (List.length parts)) - 1.

End naming.

(* ===================================================================== *)
(** * Package [common]: contexts, logging and executors

    An executor is Go's [func(ctx context.Context) error]. Its effects are
    made explicit: it maps the state before the call to the state after it
    and the returned error ([None] is [nil]), or it panics. *)
(* ===================================================================== *)

Module common.

(** A Go [error], identified by its message. *)
Definition error : Type := string.

Inductive Level := DebugLevel | InfoLevel | WarnLevel | ErrorLevel.

Definition LogEntry : Type := Level * string.

(** The values of a [context.Context] that the code reads: whether it is
    subject to the run's cancellation, and the dry-run flag
    ([common.Dryrun]). [context.Background()] has neither. *)
Record Context := mkContext {
  ctxCancelable : bool;
  ctxDryrun : bool
}.

Definition Background : Context := mkContext false false.

Definition Dryrun (ctx : Context) : bool := ctxDryrun ctx.

(** The outcome of running Go code from a state: it returns, leaving a
    state and a value, or it panics. *)
Inductive res (S A : Type) :=
| Ok (s : S) (a : A)
| Panicked (msg : string).
Arguments Ok {S A} s a.
Arguments Panicked {S A} msg.

Definition M (S A : Type) : Type := S -> res S A.

Definition ret {S A} (a : A) : M S A := fun s => Ok s a.

Definition bind {S A B} (m : M S A) (k : A -> M S B) : M S B :=
  fun s =>
    match m s with
    | Ok s' a => k a s'
    | Panicked msg => Panicked msg
    end.

Definition get {S} : M S S := fun s => Ok s s.

Definition modify {S} (f : S -> S) : M S unit := fun s => Ok (f s) tt.

Definition panic {S A} (msg : string) : M S A := fun _ => Panicked msg.

Definition nilDeref : string :=
  "invalid memory address or nil pointer dereference".

(** The state a job runs in: the run context [rc] (Go reaches it through a
    pointer shared by all closures), the execution substrate [ext]
    (container daemon and file systems), the log, and the cancellation
    error of the run's context, if it has been cancelled. *)
Record World (RC Ext : Type) := mkWorld {
  rc : RC;
  ext : Ext;
  logs : list LogEntry;
  canceled : option error
}.
Arguments mkWorld {RC Ext} rc ext logs canceled.
Arguments rc {RC Ext} w.
Arguments ext {RC Ext} w.
Arguments logs {RC Ext} w.
Arguments canceled {RC Ext} w.

Definition withRc {RC Ext} (r : RC) (w : World RC Ext) : World RC Ext :=
  mkWorld r (ext w) (logs w) (canceled w).

Definition withExt {RC Ext} (x : Ext) (w : World RC Ext) : World RC Ext :=
  mkWorld (rc w) x (logs w) (canceled w).

(** [common.Logger(ctx)] and the global logger: entries are appended. *)
Definition logf {RC Ext} (lvl : Level) (msg : string)
  : M (World RC Ext) unit :=
  modify (fun w => mkWorld (rc w) (ext w) (logs w ++ [(lvl, msg)]) (canceled w)).

(** An operation of the substrate, run from a world. *)
Definition onExt {RC Ext A} (m : M Ext A) : M (World RC Ext) A :=
  fun w =>
    match m (ext w) with
    | Ok x a => Ok (withExt x w) a
    | Panicked msg => Panicked msg
    end.

(** A state in which the cancellation of the run can be read. *)
Class Cancellation (S : Type) := cancellation : S -> option error.

#[global] Instance World_Cancellation {RC Ext} : Cancellation (World RC Ext) :=
  canceled.

(** The value of [ctx.Err()] in a state: the cancellation error of the run,
    for a context that is subject to the run's cancellation. *)
Definition Err {S} `{Cancellation S} (ctx : Context) (s : S) : option error :=
  if ctxCancelable ctx then cancellation s else None.

(** [ctx.Err()]. *)
Definition ctxErr {S} `{Cancellation S} (ctx : Context) : M S (option error) :=
  fun s => Ok s (Err ctx s).

Definition Executor (S : Type) : Type := Context -> M S (option error).

Definition Conditional (S : Type) : Type := Context -> M S bool.

(** Modelled from the spec: the pipeline combinators of package [common]
    (their file is not in src). "Sequence(u1..un): run in order; first
    failure aborts remaining units and is the overall result." [Then] is the
    sequence of two units. "Evaluation is single-pass; cancellation is
    observed at combinator boundaries, not necessarily mid external call",
    and it "must be observed at pipeline-combinator boundaries": at the
    boundary between its two units the sequence reads [ctx.Err()]; a
    cancellation observed there aborts the remaining unit and is the overall
    result. *)
Definition Then {S} `{Cancellation S} (e then_ : Executor S) : Executor S :=
  fun ctx =>
    bind (e ctx) (fun err =>
      match err with
      | Some x => ret (Some x)
      | None =>
        bind (ctxErr ctx) (fun cerr =>
          match cerr with
          | Some x => ret (Some x)
          | None => then_ ctx
          end)
      end).

(** Modelled from the spec: [NewPipelineExecutor] of package [common] (not
    in src), the spec's Sequence of any number of units: the units are
    chained with [Then], so the cancellation is observed at every boundary
    between two units, and not after the last one. With no unit the
    pipeline succeeds. *)
Fixpoint NewPipelineExecutor {S} `{Cancellation S}
    (executors : list (Executor S)) : Executor S :=
  match executors with
  | [] => fun _ => ret None
  | e :: rest =>
    match rest with
    | [] => e
    | _ :: _ => Then e (NewPipelineExecutor rest)
    end
  end.

(** Modelled from the spec: [Executor.If] of package [common] (not in
    src). "Guard(predicate, u): run u only if predicate holds at invocation
    time; otherwise trivially succeeds." *)
Definition If {S} (e : Executor S) (conditional : Conditional S) : Executor S :=
  fun ctx =>
    bind (conditional ctx) (fun b => if b then e ctx else ret None).

(** Modelled from the spec: [Executor.Finally] of package [common] (not in
    src). "Cleanup(u, c): always run c after u completes or fails; if u
    failed, u's error wins even if c also fails; if u succeeded but c
    failed, c's error is surfaced." *)
Definition Finally {S} (e finally : Executor S) : Executor S :=
  fun ctx =>
    bind (e ctx) (fun err =>
      bind (finally ctx) (fun err2 =>
        ret (match err with
             | Some x => Some x
             | None => err2
             end))).

(** Modelled from the spec: the job's recorded error of package [common]
    (not in src), kept in a container that [WithJobErrorContainer] attaches
    to the context. The container is a cell next to the state of the
    pipeline that runs under it. *)
Definition JobErrorContainer : Type := option error.

(** The context that carries the container is the same context: its
    cancellation is that of the run. *)
#[global] Instance JobErrorContainer_Cancellation {S} `{Cancellation S}
  : Cancellation (JobErrorContainer * S) :=
  fun js => cancellation (snd js).

(** Modelled from the spec: [common.SetJobError] (not in src). The error
    is "recorded as the job's error". *)
Definition SetJobError {S} (err : error) : M (JobErrorContainer * S) unit :=
  modify (fun js => (Some err, snd js)).

(** Modelled from the spec: [common.JobError] (not in src). "a terminal
    stage surfaces any recorded job error at the end". *)
Definition JobError {S} : Executor (JobErrorContainer * S) :=
  fun _ js => Ok js (fst js).

(** Code that does not use the container, run under it. *)
Definition underJob {S A} (m : M S A) : M (JobErrorContainer * S) A :=
  fun js =>
    match m (snd js) with
    | Ok s a => Ok (fst js, s) a
    | Panicked msg => Panicked msg
    end.

(** Modelled from the spec: [common.WithJobErrorContainer] (not in src),
    as it is used, [e(common.WithJobErrorContainer(ctx))]: [e] runs with a
    container of its own, in which no error is recorded yet. *)
Definition WithJobErrorContainer {S}
    (e : Executor (JobErrorContainer * S)) : Executor S :=
  fun ctx s =>
    match e ctx (None, s) with
    | Ok js err => Ok (snd js) err
    | Panicked msg => Panicked msg
    end.

End common.

#[global] Instance M_ret {S} : MRet (common.M S) := @common.ret S.
#[global] Instance M_bind {S} : MBind (common.M S) :=
  fun A B k m => common.bind m k.

(* ===================================================================== *)
(** * Package [model]: the workflow document (declarations used by
    [run_context.go]) *)
(* ===================================================================== *)

Module model.

Inductive stepStatus := StepStatusSuccess | StepStatusFailure | StepStatusSkipped.

#[global] Instance stepStatus_eq_dec : EqDecision stepStatus.
Proof. solve_decision. Defined.

Record StepResult := mkStepResult {
  Outputs : gmap string string;
  Conclusion : stepStatus;
  Outcome : stepStatus
}.

Definition setConclusion (c : stepStatus) (r : StepResult) : StepResult :=
  mkStepResult (Outputs r) c (Outcome r).

Definition setOutcome (o : stepStatus) (r : StepResult) : StepResult :=
  mkStepResult (Outputs r) (Conclusion r) o.

Definition setOutputs (m : gmap string string) (r : StepResult) : StepResult :=
  mkStepResult m (Conclusion r) (Outcome r).

(** A step: its id, its [if:] expression, its display string
    ([Step.String()]) and its continue-on-error flag. *)
Record Step := mkStep {
  ID : string;
  If_Value : string;
  Step_String : string;
  ContinueOnError : bool
}.

Definition setID (id : string) (s : Step) : Step :=
  mkStep id (If_Value s) (Step_String s) (ContinueOnError s).

(** A composite action: [Action.Runs.Steps]. *)
Record Action := mkAction {
  Runs_Steps : list Step
}.

Record ContainerSpec := mkContainerSpec {
  Image : string
}.

(** The job of a run: what [Run.Job()] and its accessors return. [RunsOn]
    is [None] for a nil slice. *)
Record Job := mkJob {
  Job_Name : string;
  Job_If_Value : string;
  Job_Container : option ContainerSpec;
  Job_RunsOn : option (list string);
  Job_Environment : gmap string string;
  Job_Steps : list Step
}.

Record Run := mkRun {
  Workflow_Name : string;
  Workflow_Env : gmap string string;
  Run_Job : Job
}.

Record JobContext := mkJobContext {
  Status : string
}.

(** A decoded JSON value ([interface{}]): nil, a string, an object
    ([map[string]interface{}]), or a value of another kind. *)
Inductive JValue :=
| JNil
| JString (s : string)
| JObject (m : JFields)
| JOther
with JFields :=
| JEmpty
| JField (k : string) (v : JValue) (rest : JFields).

Definition EventMap : Type := JFields.

(** [rval, ok = m[k]] of a [map[string]interface{}]. *)
Fixpoint mapLookup (m : JFields) (k : string) : option JValue :=
  match m with
  | JEmpty => None
  | JField k' v rest => if String.eqb k' k then Some v else mapLookup rest k
  end.

Record GithubContext := mkGithubContext {
  Event : EventMap;
  EventPath : string;
  Workflow : string;
  RunID : string;
  RunNumber : string;
  RunAttempt : string;
  Actor : string;
  Repository : string;
  EventName : string;
  Sha : string;
  Ref : string;
  HeadRef : string;
  BaseRef : string;
  Token : string;
  Workspace : string;
  Action_ : string;
  ActionPath : string;
  ActionRef : string;
  ActionRepository : string;
  RepositoryOwner : string;
  RetentionDays : string;
  RunnerPerflog : string;
  RunnerTrackingID : string
}.

End model.

(* ===================================================================== *)
(** * Package [container]: the driver interface and volume removal *)
(* ===================================================================== *)

Module container.
Import common.

Record FileEntry := mkFileEntry {
  Name : string;
  Mode : Z;
  Body : string
}.

Section Substrate.
Context {Ext : Type}.

(** The methods of the [Container] interface that the orchestrator code
    embedded below calls. [UpdateFromEnv(srcPath, &env)] returns the map it
    leaves in [env]. *)
Record Container := mkContainer {
  Copy : string -> list FileEntry -> Executor Ext;
  UpdateFromEnv :
    string -> gmap string string -> Context ->
    M Ext (gmap string string * option error);
  Remove : Executor Ext;
  Close : Executor Ext
}.

(** The Docker client calls of the volume-removal executor.
    [GetDockerClient] and [VolumeList] only read the daemon: they return
    the error of connecting, and the names of the listed volumes with the
    error of listing. [logPrefix] is a constant of the package declared in
    another file. *)
Record DockerClient := mkDockerClient {
  GetDockerClient : Context -> Ext -> option error;
  VolumeList : Context -> Ext -> list string * option error;
  VolumeRemove : Context -> string -> bool -> M Ext (option error);
  logPrefix : string
}.

Context {RC : Type}.
Variable cli : DockerClient.

(** [removeExecutor(volume, force)]. *)
Definition removeExecutor (volume : string) (force : bool)
  : Executor (World RC Ext) :=
  fun ctx =>
    logf DebugLevel (logPrefix cli +:+ "docker volume rm " +:+ volume);;
    if Dryrun ctx then mret None
    else
      w ← get;
      let err := GetDockerClient cli ctx (ext w) in
      match err with
      | Some e => mret (Some e)
      | None => onExt (VolumeRemove cli ctx volume force)
      end.

(** The loop [for _, vol := range list.Volumes] up to its [return]. *)
Fixpoint volumeListed (volumes : list string) (volume : string) : bool :=
  match volumes with
  | [] => false
  | vol :: rest =>
    if String.eqb vol volume then true else volumeListed rest volume
  end.

(** [NewDockerVolumeRemoveExecutor(volume, force)], the variant built on
    linux, darwin, windows and openbsd. *)
Definition NewDockerVolumeRemoveExecutor (volume : string) (force : bool)
  : Executor (World RC Ext) :=
  fun ctx =>
    w ← get;
    let err := GetDockerClient cli ctx (ext w) in
    match err with
    | Some e => mret (Some e)
    | None =>
      let '(list, err) := VolumeList cli ctx (ext w) in
      match err with
      | Some e => mret (Some e)
      | None =>
        if volumeListed list volume then removeExecutor volume force ctx
        else
          (* Volume not found - do nothing *)
          mret None
      end
    end.

End Substrate.

Arguments Container Ext : clear implicits.
Arguments DockerClient Ext : clear implicits.

End container.

(* ===================================================================== *)
(** * Package [runner]: the run context *)
(* ===================================================================== *)

Module runner.
Import common model container gostrings naming.

(** The fields of [Config] that the embedded code reads. *)
Record Config := mkConfig {
  Config_Env : gmap string string;
  ReuseContainers : bool;
  AutoRemove : bool;
  Platforms : gmap string string;
  Secrets : gmap string string;
  Config_Actor : string;
  Config_EventName : string;
  Workdir : string;
  DefaultBranch : string;
  GitHubInstance : string
}.

(** The [ExpressionEvaluator] interface, by its method [Interpolate]. *)
Record ExpressionEvaluator := mkExpressionEvaluator {
  Interpolate : string -> string
}.

(** [StepContext]: the step and the step's environment [Env]. *)
Record StepContext := mkStepContext {
  sc_Step : Step;
  sc_Env : gmap string string
}.

Section Orchestrator.
Context {Ext : Type}.

(** [RunContext], with the fields the embedded code reads or writes.
    [Env] is [None] for a nil map, [JobContainer] is [None] for a nil
    interface, [GithubContextBase] and [Composite] are [None] for nil
    pointers. *)
Record RunContext := mkRunContext {
  GithubContextBase : option string;
  Name : string;
  Config_ : Config;
  Run_ : Run;
  EventJSON : string;
  Env : option (gmap string string);
  CurrentStep : string;
  StepResults : gmap string StepResult;
  ExprEval : ExpressionEvaluator;
  JobContainer : option (Container Ext);
  JobName : string;
  actPath : string;
  Local : bool;
  ActionPath : string;
  ActionRef : string;
  ActionRepository : string;
  Composite : option Action
}.

Definition setEnv (e : option (gmap string string)) (r : RunContext) :=
  mkRunContext (GithubContextBase r) (Name r) (Config_ r) (Run_ r)
    (EventJSON r) e (CurrentStep r) (StepResults r) (ExprEval r)
    (JobContainer r) (JobName r) (actPath r) (Local r) (ActionPath r)
    (ActionRef r) (ActionRepository r) (Composite r).

Definition setCurrentStep (id : string) (r : RunContext) :=
  mkRunContext (GithubContextBase r) (Name r) (Config_ r) (Run_ r)
    (EventJSON r) (Env r) id (StepResults r) (ExprEval r)
    (JobContainer r) (JobName r) (actPath r) (Local r) (ActionPath r)
    (ActionRef r) (ActionRepository r) (Composite r).

Definition setStepResults (m : gmap string StepResult) (r : RunContext) :=
  mkRunContext (GithubContextBase r) (Name r) (Config_ r) (Run_ r)
    (EventJSON r) (Env r) (CurrentStep r) m (ExprEval r)
    (JobContainer r) (JobName r) (actPath r) (Local r) (ActionPath r)
    (ActionRef r) (ActionRepository r) (Composite r).

Definition setExprEval (e : ExpressionEvaluator) (r : RunContext) :=
  mkRunContext (GithubContextBase r) (Name r) (Config_ r) (Run_ r)
    (EventJSON r) (Env r) (CurrentStep r) (StepResults r) e
    (JobContainer r) (JobName r) (actPath r) (Local r) (ActionPath r)
    (ActionRef r) (ActionRepository r) (Composite r).

Definition setGithubContextBase (b : option string) (r : RunContext) :=
  mkRunContext b (Name r) (Config_ r) (Run_ r)
    (EventJSON r) (Env r) (CurrentStep r) (StepResults r) (ExprEval r)
    (JobContainer r) (JobName r) (actPath r) (Local r) (ActionPath r)
    (ActionRef r) (ActionRepository r) (Composite r).

Abbreviation World := (common.World RunContext Ext).

(** The file mode [0666]. *)
Definition mode0666 : Z := 438.

(** What the embedded code calls and src does not contain: the step
    runner ([StepContext] methods; [setupEnv] returns the [Env] it leaves
    in the step context), the job executor, the expression
    evaluation of a condition, the container working directory, the
    repository lookup, the ref and sha resolution, the Docker client, and
    the functions of Go's library [encoding/json], [strings.ToLower] and
    [path.Join]. [json.Unmarshal(data, v)] maps the value [v] points to
    before the call to the value after it, and returns its error. *)
Record Externals := mkExternals {
  sc_isEnabled : StepContext -> Context -> M World (bool * option error);
  sc_setupEnv :
    StepContext -> Context ->
    M World (gmap string string * ExpressionEvaluator * option error);
  sc_Executor : StepContext -> Executor World;
  newJobExecutor : Executor World;
  EvalBool : ExpressionEvaluator -> string -> bool * option error;
  ContainerWorkdir : RunContext -> string;
  FindGithubRepo : string -> string -> M Ext (string * option error);
  SetRefAndSha : string -> string -> GithubContext -> M Ext GithubContext;
  docker : DockerClient Ext;
  json_Unmarshal_GithubContext :
    string -> GithubContext -> GithubContext * option error;
  json_Unmarshal_Event : string -> EventMap -> EventMap * option error;
  strings_ToLower : string -> string;
  path_Join : string -> string -> string
}.

Variable X : Externals.

Definition getRc : M World RunContext := w ← get; mret (rc w).

Definition modifyRc (f : RunContext -> RunContext) : M World unit :=
  modify (fun w => withRc (f (rc w)) w).

(** [rc.GetActPath()]. *)
Definition GetActPath (r : RunContext) : string :=
  if (0 <? String.length (actPath r))%nat then actPath r else "/var/run/act".

(** [rc.String()]. *)
Definition String_ (r : RunContext) : string :=
  Workflow_Name (Run_ r) +:+ "/" +:+ Name r.

(** [mergeMaps(maps...)]: later maps overwrite earlier ones, key by key. *)
Definition mergeMaps (maps : list (gmap string string)) : gmap string string :=
  fold_left
    (fun rtnMap m => map_fold (fun k v acc => <[k:=v]> acc) rtnMap m)
    maps ∅.

(** [rc.GetEnv()]: the run context after the call and the returned map. *)
Definition GetEnv (r : RunContext) : RunContext * gmap string string :=
  let env :=
    match Env r with
    | None =>
      mergeMaps [Config_Env (Config_ r); Workflow_Env (Run_ r);
                 Job_Environment (Run_Job (Run_ r))]
    | Some env => env
    end in
  let env := <["ACT" := "true"]> env in
  (setEnv (Some env) r, env).

(** [rc.jobContainerName()]. [createContainerName] is given two parts, so
    it does not panic. *)
Definition jobContainerName (r : RunContext) : string :=
  match createContainerName ["act"; String_ r] with
  | Some name => name
  | None => ""
  end.

(** [rc.stopJobContainer()]. *)
Definition stopJobContainer : Executor World :=
  fun ctx =>
    r ← getRc;
    match JobContainer r with
    | Some c =>
      if negb (ReuseContainers (Config_ r)) then
        Then
          (fun ctx => onExt (Remove c ctx))
          (If
             (Finally
                (NewDockerVolumeRemoveExecutor (docker X)
                   (jobContainerName r) false)
                (NewDockerVolumeRemoveExecutor (docker X)
                   (jobContainerName r +:+ "-env") false))
             (fun _ => r' ← getRc; mret (negb (Local r'))))
          ctx
      else mret None
    | None => mret None
    end.

(** [rc.closeContainer()]. *)
Definition closeContainer : Executor World :=
  fun ctx =>
    r ← getRc;
    match JobContainer r with
    | Some c => onExt (Close c ctx)
    | None => mret None
    end.

(** [rc.platformImage()]. *)
Fixpoint platformImageLoop (r : RunContext) (labels : list string) : string :=
  match labels with
  | [] => ""
  | runnerLabel :: rest =>
    let platformName := Interpolate (ExprEval r) runnerLabel in
    let image :=
      default "" (Platforms (Config_ r) !! strings_ToLower X platformName) in
    if negb (String.eqb image "") then image else platformImageLoop r rest
  end.

Definition platformImage : M World string :=
  r ← getRc;
  let job := Run_Job (Run_ r) in
  match Job_Container job with
  | Some c => mret (Interpolate (ExprEval r) (Image c))
  | None =>
    (match Job_RunsOn job with
     | None => logf ErrorLevel ("'runs-on' key not defined in " +:+ String_ r)
     | Some _ => mret tt
     end);;
    mret (platformImageLoop r (default [] (Job_RunsOn job)))
  end.

(** [rc.isEnabled(ctx)]. *)
Definition isEnabled : Conditional World :=
  fun ctx =>
    r ← getRc;
    let job := Run_Job (Run_ r) in
    let '(runJob, err) := EvalBool X (ExprEval r) (Job_If_Value job) in
    match err with
    | Some _ =>
      logf ErrorLevel ("  ❌  Error in if: expression - " +:+ Job_Name job);;
      mret false
    | None =>
      if negb runJob then
        logf DebugLevel
          ("Skipping job '" +:+ Job_Name job +:+ "' due to '"
           +:+ Job_If_Value job +:+ "'");;
        mret false
      else
        img ← platformImage;
        if String.eqb img "" then
          (match Job_RunsOn job with
           | None =>
             logf ErrorLevel ("'runs-on' key not defined in " +:+ String_ r)
           | Some _ => mret tt
           end);;
          mapM
            (fun runnerLabel =>
               logf InfoLevel
                 ("🚧  Skipping unsupported platform -- Try running with `-P "
                  +:+ Interpolate (ExprEval r) runnerLabel +:+ "=...`"))
            (default [] (Job_RunsOn job));;
          mret false
        else mret true
    end.

(** The function that [Executor()] passes to [Finally]. It runs under
    [context.Background()], whatever context it is given. *)
Definition Executor_finally : Executor World :=
  fun _ =>
    r ← getRc;
    match JobContainer r with
    | Some _ =>
      let ctx := Background in
      (if AutoRemove (Config_ r) then
         logf InfoLevel ("Cleaning up container for job " +:+ JobName r);;
         err ← stopJobContainer ctx;
         match err with
         | Some e =>
           logf ErrorLevel ("Error while cleaning container: " +:+ e)
         | None => mret tt
         end
       else mret tt);;
      r' ← getRc;
      match JobContainer r' with
      | Some c => onExt (Close c ctx)
      | None => panic nilDeref
      end
    | None => mret None
    end.

(** [rc.Executor()]. *)
Definition rc_Executor : Executor World :=
  If (Finally (newJobExecutor X) Executor_finally) isEnabled.

(** [rc.StepResults[rc.CurrentStep].f = v]: a nil pointer is dereferenced
    when the map has no entry for the current step. *)
Definition updateStepResult (f : StepResult -> StepResult) : M World unit :=
  r ← getRc;
  match StepResults r !! CurrentStep r with
  | Some result =>
    modifyRc (setStepResults (<[CurrentStep r := f result]> (StepResults r)))
  | None => panic nilDeref
  end.

(** Modelled from the spec: [rc.setOutput(ctx, kvPairs, arg)] is defined in
    a file that is not in src. "every parsed key/value pair is published to
    that step's output mapping": the value [arg] is stored under the name
    [kvPairs["name"]] in the outputs of the current step's result. *)
Definition setOutput (ctx : Context) (kvPairs : gmap string string)
    (arg : string) : M World unit :=
  r ← getRc;
  match StepResults r !! CurrentStep r with
  | Some result =>
    modifyRc
      (setStepResults
         (<[CurrentStep r :=
              setOutputs (<[default "" (kvPairs !! "name") := arg]>
                            (Outputs result)) result]>
            (StepResults r)))
  | None => mret tt
  end.

(** [rc.newStepExecutor(step)]. *)
Definition newStepExecutor (step : Step) : Executor World :=
  let sc := mkStepContext step ∅ in
  fun ctx =>
    modifyRc (setCurrentStep (ID (sc_Step sc)));;
    modifyRc (fun r =>
      setStepResults
        (<[CurrentStep r :=
             mkStepResult ∅ StepStatusSuccess StepStatusSuccess]>
           (StepResults r)) r);;
    '(runStep, err) ← sc_isEnabled X sc ctx;
    match err with
    | Some e =>
      updateStepResult (setConclusion StepStatusFailure);;
      updateStepResult (setOutcome StepStatusFailure);;
      mret (Some e)
    | None =>
      if negb runStep then
        logf DebugLevel
          ("Skipping step '" +:+ Step_String (sc_Step sc) +:+ "' due to '"
           +:+ If_Value (sc_Step sc) +:+ "'");;
        updateStepResult (setConclusion StepStatusSkipped);;
        updateStepResult (setOutcome StepStatusSkipped);;
        mret None
      else
        '(env, exprEval, err) ← sc_setupEnv X sc ctx;
        let sc := mkStepContext (sc_Step sc) env in
        match err with
        | Some e => mret (Some e)
        | None =>
          modifyRc (setExprEval exprEval);;
          logf InfoLevel ("⭐  Run " +:+ Step_String (sc_Step sc));;
          (* Prepare and clean Runner File Commands *)
          r ← getRc;
          let actPath := GetActPath r in
          let outputFileCommand := path_Join X "workflow" "outputcmd.txt" in
          let stateFileCommand := path_Join X "workflow" "statecmd.txt" in
          let sc :=
            mkStepContext (sc_Step sc)
              (<["GITHUB_STATE" := path_Join X actPath stateFileCommand]>
                 (<["GITHUB_OUTPUT" := path_Join X actPath outputFileCommand]>
                    (sc_Env sc))) in
          match JobContainer r with
          | None => panic nilDeref
          | Some c =>
            onExt (Copy c actPath
                     [mkFileEntry outputFileCommand mode0666 "";
                      mkFileEntry stateFileCommand mode0666 ""] ctx);;
            err ← sc_Executor X sc ctx;
            err ←
              match err with
              | None =>
                logf InfoLevel ("  ✅  Success - " +:+ Step_String (sc_Step sc));;
                mret None
              | Some e =>
                logf ErrorLevel
                  ("  ❌  Failure - " +:+ Step_String (sc_Step sc));;
                updateStepResult (setOutcome StepStatusFailure);;
                if ContinueOnError (sc_Step sc) then
                  logf InfoLevel "Failed but continue next step";;
                  updateStepResult (setConclusion StepStatusSuccess);;
                  mret None
                else
                  updateStepResult (setConclusion StepStatusFailure);;
                  mret (Some e)
              end;
            (* Process Runner File Commands *)
            let orgerr := err in
            r ← getRc;
            match JobContainer r with
            | None => panic nilDeref
            | Some c =>
              '(output, err) ←
                onExt (UpdateFromEnv c (path_Join X actPath outputFileCommand)
                         ∅ ctx);
              match err with
              | Some e => mret (Some e)
              | None =>
                mapM
                  (fun kv => setOutput ctx {["name" := fst kv]} (snd kv))
                  (map_to_list output);;
                match orgerr with
                | Some e => mret (Some e)
                | None => mret err
                end
              end
            end
          end
        end
    end.

(** The ids [CompositeExecutor] gives the steps: a step without an id gets
    its index, printed with [%d]. *)
Fixpoint assignIDs (i : nat) (steps : list Step) : list Step :=
  match steps with
  | [] => []
  | step :: rest =>
    (if String.eqb (ID step) "" then setID (Sprintf_d i) step else step)
      :: assignIDs (S i) rest
  end.

(** The executor [CompositeExecutor] builds around the executor of one
    step. It runs under the job-error container. *)
Definition compositeStep (stepExec : Executor World)
  : Executor (JobErrorContainer * World) :=
  fun ctx =>
    err ← underJob (stepExec ctx);
    match err with
    | Some e =>
      underJob (logf ErrorLevel e);;
      SetJobError e;;
      mret None
    | None =>
      cerr ← underJob (ctxErr ctx);
      match cerr with
      | Some e =>
        underJob (logf ErrorLevel e);;
        SetJobError e;;
        mret None
      | None => mret None
      end
    end.

(** [rc.CompositeExecutor()], for the run context [r] it is called on. The
    nil dereference of [rc.Composite] happens when the executor is built;
    here it shows when the executor runs. *)
Definition CompositeExecutor (r : RunContext) : Executor World :=
  match Composite r with
  | None => fun _ => panic nilDeref
  | Some action =>
    let steps :=
      map (fun step => compositeStep (newStepExecutor step))
        (assignIDs 0 (Runs_Steps action)) in
    let steps := steps ++ [JobError] in
    WithJobErrorContainer (NewPipelineExecutor steps)
  end.

(** [rc.getJobContext()]: the loop over the step results, with its
    [break]. *)
Fixpoint jobStatusLoop (results : list StepResult) (jobStatus : string)
  : string :=
  match results with
  | [] => jobStatus
  | stepStatus :: rest =>
    if decide (Conclusion stepStatus = StepStatusFailure) then "failure"
    else jobStatusLoop rest jobStatus
  end.

Definition getJobContext (r : RunContext) : JobContext :=
  mkJobContext (jobStatusLoop (snd <$> map_to_list (StepResults r)) "success").

(** [rc.getStepsContext()]. *)
Definition getStepsContext (r : RunContext) : gmap string StepResult :=
  StepResults r.

(** [asString(v)]. *)
Definition asString (v : JValue) : string :=
  match v with
  | JString s => s
  | _ => ""
  end.

(** [nestedMapLookup(m, ks...)]; [JNil] is the nil interface. *)
Fixpoint nestedMapLookup (m : JFields) (ks : list string) : JValue :=
  match ks with
  | [] => JNil
  | k :: rest =>
    match mapLookup m k with
    | None => JNil
    | Some rval =>
      match rest with
      | [] => rval
      | _ =>
        match rval with
        | JObject m' => nestedMapLookup m' rest
        | _ => JNil
        end
      end
    end
  end.

(** [strings.Split(repo, "/")[0]]. *)
Fixpoint beforeSlash (s : string) : string :=
  match s with
  | EmptyString => EmptyString
  | String c t => if Ascii.eqb c "/" then EmptyString else String c (beforeSlash t)
  end.

Definition orDefault (v d : string) : string :=
  if String.eqb v "" then d else v.

(** [applyDefaults(ghc, rc)]. The assignments to the fields of [ghc] are
    collected, in the order of the code, into the context it returns. *)
Definition applyDefaults (ghc : GithubContext) (r : RunContext)
  : M World GithubContext :=
  let repoPath := Workdir (Config_ r) in
  '(repo, err) ← onExt (FindGithubRepo X repoPath (GitHubInstance (Config_ r)));
  (match err with
   | Some e => logf WarnLevel ("unable to get git repo: " +:+ e)
   | None => mret tt
   end);;
  let repository :=
    match err with Some _ => Repository ghc | None => repo end in
  let repositoryOwner :=
    match err with
    | Some _ => RepositoryOwner ghc
    | None => orDefault (RepositoryOwner ghc) (beforeSlash repo)
    end in
  event ←
    (if negb (String.eqb (EventJSON r) "") then
       let '(ev, err) := json_Unmarshal_Event X (EventJSON r) (Event ghc) in
       (match err with
        | Some e =>
          logf ErrorLevel
            ("Unable to Unmarshal event '" +:+ EventJSON r +:+ "': " +:+ e)
        | None => mret tt
        end);;
       mret ev
     else mret (Event ghc));
  let pr := String.eqb (EventName ghc) "pull_request" in
  let baseRef :=
    if pr then asString (nestedMapLookup event ["pull_request"; "base"; "ref"])
    else BaseRef ghc in
  let headRef :=
    if pr then asString (nestedMapLookup event ["pull_request"; "head"; "ref"])
    else HeadRef ghc in
  onExt
    (SetRefAndSha X (DefaultBranch (Config_ r)) repoPath
       (mkGithubContext
          event
          (EventPath ghc)
          (Workflow ghc)
          (orDefault (RunID ghc) "1")
          (orDefault (RunNumber ghc) "1")
          (orDefault (RunAttempt ghc) "1")
          (orDefault (Actor ghc) "nektos/act")
          repository
          (EventName ghc)
          (Sha ghc)
          (Ref ghc)
          headRef
          baseRef
          (Token ghc)
          (Workspace ghc)
          (Action_ ghc)
          (model.ActionPath ghc)
          (model.ActionRef ghc)
          (model.ActionRepository ghc)
          repositoryOwner
          (orDefault (RetentionDays ghc) "0")
          (orDefault (RunnerPerflog ghc) "/dev/null")
          (RunnerTrackingID ghc))).

(** The context [getGithubContext] fills from the run context before it
    looks at the base context. *)
Definition initialGithubContext (r : RunContext) : GithubContext :=
  let cfgEnv k := default "" (Config_Env (Config_ r) !! k) in
  mkGithubContext
    JEmpty
    (GetActPath r +:+ "/workflow/event.json")
    (Workflow_Name (Run_ r))
    (cfgEnv "GITHUB_RUN_ID")
    (cfgEnv "GITHUB_RUN_NUMBER")
    (cfgEnv "GITHUB_RUN_ATTEMPT")
    (Config_Actor (Config_ r))
    ""
    (Config_EventName (Config_ r))
    "" "" "" ""
    (default "" (Secrets (Config_ r) !! "GITHUB_TOKEN"))
    (ContainerWorkdir X r)
    (CurrentStep r)
    (ActionPath r)
    (ActionRef r)
    (ActionRepository r)
    (cfgEnv "GITHUB_REPOSITORY_OWNER")
    (cfgEnv "GITHUB_RETENTION_DAYS")
    (cfgEnv "RUNNER_PERFLOG")
    (cfgEnv "RUNNER_TRACKING_ID").

(** [rc.getGithubContext()]. *)
Definition getGithubContext : M World GithubContext :=
  r ← getRc;
  let ghc := initialGithubContext r in
  match GithubContextBase r with
  | Some base =>
    let '(ghc, err) := json_Unmarshal_GithubContext X base ghc in
    match err with
    | None => mret ghc
    | Some _ => applyDefaults ghc r
    end
  | None => applyDefaults ghc r
  end.

End Orchestrator.

Arguments RunContext Ext : clear implicits.
Arguments Externals Ext : clear implicits.

End runner.

(* ===================================================================== *)
(** * Package [runner]: the set-up of the job container and of the
    environment of a step

    [GetBindsAndMounts], [handleCredentials], [interpolateOutputs],
    [withGithubEnv] and [setActionRuntimeVars] of [run_context.go]. *)
(* ===================================================================== *)

Module runner_setup.
Import common model container runner gostrings.

(** The fields of [Config] that the code embedded in this module reads and
    the record [Config] above leaves out. *)
Record ConfigMore := mkConfigMore {
  ContainerDaemonSocket : string;
  BindWorkdir : bool;
  GitHubServerUrl : string;
  GitHubApiServerUrl : string;
  GitHubGraphQlApiServerUrl : string;
  ArtifactServerPath : string;
  ArtifactServerPort : string
}.


(** [strings.Replace(s, "-", "", 1)]: the first hyphen is dropped. *)
Fixpoint removeFirstHyphen (s : string) : string :=
  match s with
  | EmptyString => EmptyString
  | String c t => if isHyphen c then t else String c (removeFirstHyphen t)
  end.

(** [strings.SplitN(s, ".", 2)[0]]. *)
Fixpoint beforeDot (s : string) : string :=
  match s with
  | EmptyString => EmptyString
  | String c t => if Ascii.eqb c "." then EmptyString else String c (beforeDot t)
  end.

(** The assignments [env[k] = v], in the order of the list. *)
Definition assign (kvs : list (string * string)) (env : gmap string string)
  : gmap string string :=
  fold_left (fun env kv => <[fst kv := snd kv]> env) kvs env.

Section Setup.
Context {Ext : Type}.

(** What the code of this module calls and src does not contain: the
    operating system of the host ([runtime.GOOS]), [selinux.GetEnabled],
    [os.Getenv], the outbound IP address as [common.GetOutboundIP] prints
    it, and the expression evaluator of a run context
    ([rc.NewExpressionEvaluator]). *)
Record Host := mkHost {
  runtime_GOOS : string;
  selinux_GetEnabled : bool;
  os_Getenv : string -> string;
  GetOutboundIP : string;
  NewExpressionEvaluator : RunContext Ext -> ExpressionEvaluator
}.

Variable X : Externals Ext.
Variable H : Host.


(** [rc.handleCredentials()]. [credentials] is [container.Credentials] of
    the job's container ([None] is the nil map), which [ContainerSpec]
    above leaves out. The three results are the named results [username],
    [password] and [err] at the return. *)
Definition handleCredentials (r : RunContext Ext)
    (credentials : option (gmap string string))
  : string * string * option error :=
  let username := default "" (Secrets (Config_ r) !! "DOCKER_USERNAME") in
  let password := default "" (Secrets (Config_ r) !! "DOCKER_PASSWORD") in
  match Job_Container (Run_Job (Run_ r)), credentials with
  | Some _, Some creds =>
    if negb (size creds =? 2)%nat then
      (username, password,
       Some "invalid property count for key 'credentials:'")
    else
      let ee := NewExpressionEvaluator H r in
      let username := Interpolate ee (default "" (creds !! "username")) in
      if String.eqb username "" then
        (username, password,
         Some "failed to interpolate container.credentials.username")
      else
        let password := Interpolate ee (default "" (creds !! "password")) in
        if String.eqb password "" then
          (username, password,
           Some "failed to interpolate container.credentials.password")
        else if String.eqb (default "" (creds !! "username")) ""
                || String.eqb (default "" (creds !! "password")) "" then
          (username, password, Some "container.credentials cannot be empty")
        else (username, password, None)
  | _, _ => (username, password, None)
  end.

(** [rc.interpolateOutputs()]: [outputs] is [rc.Run.Job().Outputs], which
    [Job] above leaves out; the result is the map after the loop. The
    executor returns nil. *)
Definition interpolateOutputs (r : RunContext Ext)
    (outputs : gmap string string) : gmap string string :=
  let ee := NewExpressionEvaluator H r in
  map_fold
    (fun k v outputs =>
       let interpolated := Interpolate ee v in
       if negb (String.eqb v interpolated)
       then <[k := interpolated]> outputs
       else outputs)
    outputs outputs.

(** [setActionRuntimeVars(rc, env)]. *)
Definition setActionRuntimeVars (cfg : ConfigMore) (env : gmap string string)
  : gmap string string :=
  let actionsRuntimeURL := os_Getenv H "ACTIONS_RUNTIME_URL" in
  let actionsRuntimeURL :=
    if String.eqb actionsRuntimeURL ""
    then "http://" +:+ GetOutboundIP H +:+ ":" +:+ ArtifactServerPort cfg +:+ "/"
    else actionsRuntimeURL in
  let env := <["ACTIONS_RUNTIME_URL" := actionsRuntimeURL]> env in
  let actionsRuntimeToken := os_Getenv H "ACTIONS_RUNTIME_TOKEN" in
  let actionsRuntimeToken :=
    if String.eqb actionsRuntimeToken "" then "token"
    else actionsRuntimeToken in
  <["ACTIONS_RUNTIME_TOKEN" := actionsRuntimeToken]> env.

(** The value the loop over [runs-on] gives [ImageOS] for a platform name
    that is not empty. *)
Definition imageOSOf (platformName : string) : string :=
  if String.eqb platformName "ubuntu-latest" then
    (* hardcode current ubuntu-latest since we have no way to check that
       'on the fly' *)
    "ubuntu20"
  else beforeDot (removeFirstHyphen platformName).

(** The loop of [withGithubEnv] over the labels of [runs-on]. *)
Definition imageOSLoop (r : RunContext Ext) (labels : list string)
    (env : gmap string string) : gmap string string :=
  fold_left
    (fun env runnerLabel =>
       let platformName := Interpolate (ExprEval r) runnerLabel in
       if negb (String.eqb platformName "")
       then <["ImageOS" := imageOSOf platformName]> env
       else env)
    labels env.

(** The assignments of [withGithubEnv] that do not depend on a condition. *)
Definition githubEnv (r : RunContext Ext) (github : GithubContext)
  : list (string * string) :=
  [("CI", "true");
   ("GITHUB_ENV", GetActPath r +:+ "/workflow/envs.txt");
   ("GITHUB_PATH", GetActPath r +:+ "/workflow/paths.txt");
   ("GITHUB_WORKFLOW", Workflow github);
   ("GITHUB_RUN_ID", RunID github);
   ("GITHUB_RUN_NUMBER", RunNumber github);
   ("GITHUB_RUN_ATTEMPT", RunAttempt github);
   ("GITHUB_ACTION", Action_ github);
   ("GITHUB_ACTION_PATH", model.ActionPath github);
   ("GITHUB_ACTION_REPOSITORY", model.ActionRepository github);
   ("GITHUB_ACTION_REF", model.ActionRef github);
   ("GITHUB_ACTIONS", "true");
   ("GITHUB_ACTOR", Actor github);
   ("GITHUB_REPOSITORY", Repository github);
   ("GITHUB_EVENT_NAME", EventName github);
   ("GITHUB_EVENT_PATH", EventPath github);
   ("GITHUB_WORKSPACE", Workspace github);
   ("GITHUB_SHA", Sha github);
   ("GITHUB_REF", Ref github);
   ("GITHUB_TOKEN", Token github);
   ("GITHUB_SERVER_URL", "https://github.com");
   ("GITHUB_API_URL", "https://api.github.com");
   ("GITHUB_GRAPHQL_URL", "https://api.github.com/graphql");
   ("GITHUB_ACTION_REF", model.ActionRef github);
   ("GITHUB_ACTION_REPOSITORY", model.ActionRepository github);
   ("GITHUB_BASE_REF", BaseRef github);
   ("GITHUB_HEAD_REF", HeadRef github);
   ("GITHUB_JOB", JobName r);
   ("GITHUB_REPOSITORY_OWNER", RepositoryOwner github);
   ("GITHUB_RETENTION_DAYS", RetentionDays github);
   ("RUNNER_PERFLOG", RunnerPerflog github);
   ("RUNNER_TRACKING_ID", RunnerTrackingID github)].

(** [withGithubEnv] after the call of [rc.getGithubContext()]. *)
Definition githubEnvOf (r : RunContext Ext) (cfg : ConfigMore)
    (github : GithubContext) (env : gmap string string)
  : gmap string string :=
  let env := assign (githubEnv r github) env in
  let env :=
    if negb (String.eqb (GitHubInstance (Config_ r)) "github.com") then
      assign
        [("GITHUB_SERVER_URL", "https://" +:+ GitHubInstance (Config_ r));
         ("GITHUB_API_URL",
          "https://" +:+ GitHubInstance (Config_ r) +:+ "/api/v3");
         ("GITHUB_GRAPHQL_URL",
          "https://" +:+ GitHubInstance (Config_ r) +:+ "/api/graphql")]
        env
    else env in
  let env :=
    if (0 <? String.length (GitHubServerUrl cfg))%nat
    then <["GITHUB_SERVER_URL" := GitHubServerUrl cfg]> env else env in
  let env :=
    if (0 <? String.length (GitHubServerUrl cfg))%nat
    then <["GITHUB_API_URL" := GitHubApiServerUrl cfg]> env else env in
  let env :=
    if (0 <? String.length (GitHubServerUrl cfg))%nat
    then <["GITHUB_GRAPHQL_URL" := GitHubGraphQlApiServerUrl cfg]> env
    else env in
  let env :=
    if negb (String.eqb (ArtifactServerPath cfg) "")
    then setActionRuntimeVars cfg env else env in
  let job := Run_Job (Run_ r) in
  match Job_RunsOn job with
  | Some labels => imageOSLoop r labels env
  | None => env
  end.

(** [rc.withGithubEnv(env)]: the map it returns, which is the map it was
    given, after the assignments. *)
Definition withGithubEnv (cfg : ConfigMore) (env : gmap string string)
  : M (common.World (RunContext Ext) Ext) (gmap string string) :=
  github ← getGithubContext X;
  r ← getRc;
  mret (githubEnvOf r cfg github env).

End Setup.

Arguments Host Ext : clear implicits.

End runner_setup.

(* ===================================================================== *)
(** * A simulated substrate

    A small container daemon, step runner and JSON decoder on which the
    orchestrator can be run on concrete inputs. *)
(* ===================================================================== *)

Module sim.
Import common model container runner.

(** The daemon: its containers and volumes, the volumes whose removal it
    refuses, the parsed content of the output command file ([None] when
    the file cannot be read), and the error of closing the container. *)
Record Sim := mkSim {
  containers : list string;
  volumes : list string;
  busyVolumes : list string;
  outputFile : option (gmap string string);
  closeError : option error
}.

Definition without (name : string) (l : list string) : list string :=
  List.filter (fun x => negb (String.eqb x name)) l.

Definition simContainer (name : string) : Container Sim :=
  mkContainer
    (fun _ _ _ => mret None)
    (fun _ env _ =>
       x ← get;
       match outputFile x with
       | Some kvs => mret (kvs ∪ env, None)
       | None => mret (env, Some "open outputcmd.txt: no such file")
       end)
    (fun _ =>
       modify (fun x => mkSim (without name (containers x)) (volumes x)
                          (busyVolumes x) (outputFile x) (closeError x));;
       mret None)
    (fun _ => x ← get; mret (closeError x)).

Definition simDocker : DockerClient Sim :=
  mkDockerClient
    (fun _ _ => None)
    (fun _ x => (volumes x, None))
    (fun _ volume _ =>
       x ← get;
       if volumeListed (busyVolumes x) volume
       then mret (Some ("volume is in use: " +:+ volume))
       else
         modify (fun x => mkSim (containers x) (without volume (volumes x))
                            (busyVolumes x) (outputFile x) (closeError x));;
         mret None)
    "  docker  ".

(** The body of a step writes two pairs to the output command file, when
    there is one, and fails when the step is the script [exit 1]. *)
Definition simBody (sc : StepContext) : Executor (World (RunContext Sim) Sim) :=
  fun _ =>
    onExt (modify (fun x =>
      mkSim (containers x) (volumes x) (busyVolumes x)
        ((fun _ => {["artifact" := "out.tgz"; "version" := "1.2.3"]})
           <$> outputFile x)
        (closeError x)));;
    if String.eqb (Step_String (sc_Step sc)) "exit 1"
    then mret (Some "exit status 1")
    else mret None.

Definition dq : ascii := "034"%char.

Definition quoted (s : string) : string :=
  String dq (s +:+ String dq EmptyString).

Fixpoint renderMembers (members : list (string * string)) : string :=
  match members with
  | [] => ""
  | [(k, v)] => quoted k +:+ ":" +:+ quoted v
  | (k, v) :: rest =>
    quoted k +:+ ":" +:+ quoted v +:+ "," +:+ renderMembers rest
  end.

(** The JSON text of an object whose members are strings. *)
Definition jsonObject (members : list (string * string)) : string :=
  "{" +:+ renderMembers members +:+ "}".

(** A string literal without escapes, after its opening quote. *)
Fixpoint readString (s : string) : option (string * string) :=
  match s with
  | EmptyString => None
  | String c t =>
    if Ascii.eqb c dq then Some (EmptyString, t)
    else if Ascii.eqb c "\" then None
    else
      match readString t with
      | Some (x, r) => Some (String c x, r)
      | None => None
      end
  end.

Fixpoint parseMembers (fuel : nat) (s : string)
  : option (list (string * string)) :=
  match fuel with
  | O => None
  | S fuel =>
    match s with
    | String c t =>
      if Ascii.eqb c dq then
        match readString t with
        | Some (k, String ":" (String c2 t2)) =>
          if Ascii.eqb c2 dq then
            match readString t2 with
            | Some (v, String "," r) =>
              match parseMembers fuel r with
              | Some rest => Some ((k, v) :: rest)
              | None => None
              end
            | Some (v, String "}" EmptyString) => Some [(k, v)]
            | _ => None
            end
          else None
        | _ => None
        end
      else None
    | EmptyString => None
    end
  end.

Definition parseObject (s : string) : option (list (string * string)) :=
  match s with
  | String "{" (String "}" EmptyString) => Some []
  | String "{" t => parseMembers (String.length t) t
  | _ => None
  end.

(** One member stored in the field it names; other keys are ignored. *)
Definition storeMember (kv : string * string) (g : GithubContext)
  : GithubContext :=
  let pick name old := if String.eqb (fst kv) name then snd kv else old in
  mkGithubContext (Event g) (EventPath g)
    (pick "workflow" (Workflow g))
    (RunID g) (RunNumber g) (RunAttempt g)
    (pick "actor" (Actor g))
    (pick "repository" (Repository g))
    (EventName g)
    (pick "sha" (Sha g))
    (pick "ref" (Ref g))
    (HeadRef g) (BaseRef g)
    (pick "token" (Token g))
    (pick "workspace" (Workspace g))
    (pick "action" (Action_ g))
    (model.ActionPath g) (model.ActionRef g) (model.ActionRepository g)
    (RepositoryOwner g) (RetentionDays g) (RunnerPerflog g)
    (RunnerTrackingID g).

(** [json.Unmarshal(data, ghc)] on the texts [parseObject] reads: the
    members are stored in the fields they name and the other fields keep
    what they held. Any other text is a syntax error here, which leaves
    [ghc] as it was. *)
Definition unmarshalGithubContext (data : string) (g : GithubContext)
  : GithubContext * option error :=
  match parseObject data with
  | Some members => (fold_left (fun g kv => storeMember kv g) members g, None)
  | None => (g, Some "invalid character looking for beginning of value")
  end.

(** The zero value of [GithubContext]. *)
Definition zeroGithubContext : GithubContext :=
  mkGithubContext JEmpty "" "" "" "" "" "" "" "" "" "" "" "" "" "" "" "" ""
    "" "" "" "" "".

Definition simSetRefAndSha (g : GithubContext) : GithubContext :=
  mkGithubContext (Event g) (EventPath g) (Workflow g) (RunID g)
    (RunNumber g) (RunAttempt g) (Actor g) (Repository g) (EventName g)
    "0123abc" "refs/heads/main" (HeadRef g) (BaseRef g) (Token g)
    (Workspace g) (Action_ g) (model.ActionPath g) (model.ActionRef g)
    (model.ActionRepository g) (RepositoryOwner g) (RetentionDays g)
    (RunnerPerflog g) (RunnerTrackingID g).

(** The job executor of the simulation fails when asked to. *)
Definition simExternals (jobError : option error) : Externals Sim :=
  mkExternals
    (fun sc _ => mret (negb (String.eqb (If_Value (sc_Step sc)) "false"), None))
    (fun sc _ => mret (sc_Env sc, mkExpressionEvaluator (fun s => s), None))
    simBody
    (fun _ => mret jobError)
    (fun _ expr => (negb (String.eqb expr "false"), None))
    (fun _ => "/workspace")
    (fun _ _ => mret ("octo/demo", None))
    (fun _ _ g => mret (simSetRefAndSha g))
    simDocker
    unmarshalGithubContext
    (fun _ ev => (ev, None))
    (fun s => s)
    (fun a b => a +:+ "/" +:+ b).

Definition simConfig (reuse autoRemove : bool) : Config :=
  mkConfig ∅ reuse autoRemove {["ubuntu-latest" := "node:16"]} ∅
    "octocat" "push" "/repo" "main" "github.com".

Definition simJob : Job :=
  mkJob "build" "" None (Some ["ubuntu-latest"]) ∅ [].

Definition simRun : Run := mkRun "CI" ∅ simJob.

Definition simRunContext (reuse autoRemove : bool)
    (c : option (Container Sim)) : RunContext Sim :=
  mkRunContext None "build" (simConfig reuse autoRemove) simRun "" None ""
    ∅ (mkExpressionEvaluator (fun s => s)) c "build" "" false "" "" "" None.

(** The name [jobContainerName] gives the job of the simulation. *)
Definition simName : string := "act-CI-build".

Definition simWorld (r : RunContext Sim) (x : Sim)
  : World (RunContext Sim) Sim :=
  mkWorld r x [] None.

End sim.

(* ===================================================================== *)
(** * Vocabulary of the theorems

    Predicates and derived functions in which the theorems are stated, and
    the inputs of the simulation on which they are run. *)
(* ===================================================================== *)

Module runner_spec.
Import common model container runner.

(** A context that is subject to the run's cancellation. *)
Definition cancelable : Context := mkContext true false.

(** The cancellation that a unit run with the context [ctx] observes in the
    world [w]: the cancellation error of the run, if it has been cancelled
    and the context is subject to its cancellation. *)
Definition observedCancellation {RC Ext} (ctx : Context)
    (w : common.World RC Ext) : option error :=
  if ctxCancelable ctx then canceled w else None.

(** Some recorded step result has conclusion Failure. *)
Definition someStepFailed {Ext} (r : RunContext Ext) : Prop :=
  exists id res,
    StepResults r !! id = Some res /\ Conclusion res = StepStatusFailure.

(** A run context of the simulation with the three environment layers
    given and [Env] not yet computed. *)
Definition layeredRunContext (cfgEnv wfEnv jobEnv : gmap string string)
  : RunContext sim.Sim :=
  mkRunContext None "build"
    (mkConfig cfgEnv false false ∅ ∅ "octocat" "push" "/repo" "main"
       "github.com")
    (mkRun "CI" wfEnv (mkJob "build" "" None (Some ["ubuntu-latest"]) jobEnv []))
    "" None "" ∅ (mkExpressionEvaluator (fun s => s)) None "build" "" false
    "" "" "" None.

End runner_spec.

Module step_spec.
Import common model container runner.

(** How far [newStepExecutor] got when its first part ends: it returned
    early, or the body of the step ran and returned. [outputPath] is the
    path of the output command file. *)
Inductive stepProgress :=
| EarlyReturn (err : option error)
| BodyReturned (outputPath : string) (err : option error).

Section Phases.
Context {Ext : Type}.
Variable X : Externals Ext.
Abbreviation World := (common.World (RunContext Ext) Ext).

(** [newStepExecutor] up to and including the call of the step's body. *)
Definition upToBody (step : Step) (ctx : Context) : M World stepProgress :=
  let sc := mkStepContext step ∅ in
  modifyRc (setCurrentStep (ID step));;
  modifyRc (fun r =>
    setStepResults
      (<[CurrentStep r := mkStepResult ∅ StepStatusSuccess StepStatusSuccess]>
         (StepResults r)) r);;
  '(runStep, err) ← sc_isEnabled X sc ctx;
  match err with
  | Some e =>
    updateStepResult (setConclusion StepStatusFailure);;
    updateStepResult (setOutcome StepStatusFailure);;
    mret (EarlyReturn (Some e))
  | None =>
    if negb runStep then
      logf DebugLevel
        ("Skipping step '" +:+ Step_String step +:+ "' due to '"
         +:+ If_Value step +:+ "'");;
      updateStepResult (setConclusion StepStatusSkipped);;
      updateStepResult (setOutcome StepStatusSkipped);;
      mret (EarlyReturn None)
    else
      '(env, exprEval, err) ← sc_setupEnv X sc ctx;
      match err with
      | Some e => mret (EarlyReturn (Some e))
      | None =>
        modifyRc (setExprEval exprEval);;
        logf InfoLevel ("⭐  Run " +:+ Step_String step);;
        r ← getRc;
        let actPath := GetActPath r in
        let outputFileCommand := path_Join X "workflow" "outputcmd.txt" in
        let stateFileCommand := path_Join X "workflow" "statecmd.txt" in
        let sc :=
          mkStepContext step
            (<["GITHUB_STATE" := path_Join X actPath stateFileCommand]>
               (<["GITHUB_OUTPUT" := path_Join X actPath outputFileCommand]>
                  env)) in
        match JobContainer r with
        | None => panic nilDeref
        | Some c =>
          onExt (Copy c actPath
                   [mkFileEntry outputFileCommand mode0666 "";
                    mkFileEntry stateFileCommand mode0666 ""] ctx);;
          err ← sc_Executor X sc ctx;
          mret (BodyReturned (path_Join X actPath outputFileCommand) err)
        end
      end
  end.

(** [newStepExecutor] from the return of the step's body on. *)
Definition afterBody (step : Step) (outputPath : string) (err : option error)
    (ctx : Context) : M World (option error) :=
  err ←
    match err with
    | None =>
      logf InfoLevel ("  ✅  Success - " +:+ Step_String step);;
      mret None
    | Some e =>
      logf ErrorLevel ("  ❌  Failure - " +:+ Step_String step);;
      updateStepResult (setOutcome StepStatusFailure);;
      if ContinueOnError step then
        logf InfoLevel "Failed but continue next step";;
        updateStepResult (setConclusion StepStatusSuccess);;
        mret None
      else
        updateStepResult (setConclusion StepStatusFailure);;
        mret (Some e)
    end;
  let orgerr := err in
  r ← getRc;
  match JobContainer r with
  | None => panic nilDeref
  | Some c =>
    '(output, err) ← onExt (UpdateFromEnv c outputPath ∅ ctx);
    match err with
    | Some e => mret (Some e)
    | None =>
      mapM (fun kv => setOutput ctx {["name" := fst kv]} (snd kv))
        (map_to_list output);;
      match orgerr with
      | Some e => mret (Some e)
      | None => mret err
      end
    end
  end.

(** The step's result is still recorded under the step's id, which is
    still the current step: what the writes of [newStepExecutor] after the
    body rely on. *)
Definition keepsStep (step : Step) (w : World) : Prop :=
  CurrentStep (rc w) = ID step /\ is_Some (StepResults (rc w) !! ID step).

(** The outputs of a step after the pairs of [l] have been published. *)
Definition publish (l : list (string * string)) (outs : gmap string string)
  : gmap string string :=
  fold_left (fun acc kv => <[fst kv := snd kv]> acc) l outs.

(** What [newStepExecutor] returns after a body that returned [err], when
    reading the output file back returned [rerr]. *)
Definition stepReturn (step : Step) (err rerr : option error) : option error :=
  match rerr with
  | Some e' => Some e'
  | None =>
    match err with
    | Some e => if ContinueOnError step then None else Some e
    | None => None
    end
  end.

End Phases.

(** A world of the simulation in which a job container is set; [file] is
    the output command file. *)
Definition stepWorld (file : option (gmap string string))
  : common.World (RunContext sim.Sim) sim.Sim :=
  sim.simWorld
    (sim.simRunContext false false (Some (sim.simContainer sim.simName)))
    (sim.mkSim [sim.simName] [] [] file None).

(** A step whose body fails. *)
Definition failingStep (continueOnError : bool) : Step :=
  mkStep "s1" "" "exit 1" continueOnError.

End step_spec.

Module composite_spec.
Import common model container runner runner_spec.

Section Composite.
Context {Ext : Type}.
Variable X : Externals Ext.
Abbreviation World := (common.World (RunContext Ext) Ext).

(** The world after an error has been logged at error level. *)
Definition logError (e : error) (w : World) : World :=
  mkWorld (rc w) (ext w) (logs w ++ [(ErrorLevel, e)]) (canceled w).

(** The error recorded as the job's error after a step that returned [err]
    and left the world [w1]: the step's error, or else the cancellation
    observed in [w1]. *)
Definition recordedAfter (ctx : Context) (err : option error) (w1 : World)
  : option error :=
  match err with
  | Some e => Some e
  | None => observedCancellation ctx w1
  end.

(** The world in which the next unit of the pipeline starts. *)
Definition worldAfter (ctx : Context) (err : option error) (w1 : World)
  : World :=
  match recordedAfter ctx err w1 with
  | Some e => logError e w1
  | None => w1
  end.

(** What a run of the steps of a composite action comes to, written out on
    the worlds it passes through. [recorded] is the job's error recorded so
    far. A step is run from the world the previous one left; its error, or
    else an observed cancellation, is logged and recorded, and the step's
    error does not stop the run. A cancellation observed after a step
    stops it: the steps that remain are not run and the cancellation error
    is the result. After the last step the result is the recorded error. *)
Fixpoint compositeRun (ctx : Context) (steps : list Step)
    (recorded : option error) (w : World) : res World (option error) :=
  match steps with
  | [] => Ok w recorded
  | step :: rest =>
    match newStepExecutor X step ctx w with
    | Panicked msg => Panicked msg
    | Ok w1 err =>
      match observedCancellation ctx w1 with
      | Some c => Ok (worldAfter ctx err w1) (Some c)
      | None =>
        compositeRun ctx rest
          (match err with Some e => Some e | None => recorded end)
          (worldAfter ctx err w1)
      end
    end
  end.

(** One run of a step's executor: the step, the world it started from, the
    world it left and the error it returned. *)
Record StepRun := mkStepRun {
  runStep : Step;
  runFrom : World;
  runTo : World;
  runErr : option error
}.

(** The runs of the steps' executors that returned, in the order in which
    they happen when the steps of a composite action are run from [w]. *)
Fixpoint stepRuns (ctx : Context) (steps : list Step) (w : World)
  : list StepRun :=
  match steps with
  | [] => []
  | step :: rest =>
    match newStepExecutor X step ctx w with
    | Panicked _ => []
    | Ok w1 err =>
      mkStepRun step w w1 err ::
      match observedCancellation ctx w1 with
      | Some _ => []
      | None => stepRuns ctx rest (worldAfter ctx err w1)
      end
    end
  end.

(** The last error among the errors of the runs, or [recorded] when there
    is none. *)
Definition lastError (recorded : option error) (runs : list StepRun)
  : option error :=
  fold_left
    (fun acc run => match runErr run with Some e => Some e | None => acc end)
    runs recorded.

(** The world the runs end in: the one the last run left, after the error
    recorded there is logged, or [w] when there is no run. *)
Definition lastWorld (ctx : Context) (w : World) (runs : list StepRun)
  : World :=
  fold_left (fun _ run => worldAfter ctx (runErr run) (runTo run)) runs w.

(** The id [CompositeExecutor] gives the step at index [i]. *)
Definition withPositionalID (i : nat) (step : Step) : Step :=
  if String.eqb (ID step) "" then setID (gostrings.Sprintf_d i) step else step.

End Composite.

(** The number that a string of decimal digits denotes, read from the
    left with [acc] the value of the digits read before it. *)
Fixpoint decimalValue (acc : nat) (s : string) : option nat :=
  match s with
  | EmptyString => Some acc
  | String c rest =>
    let n := nat_of_ascii c in
    if ((48 <=? n) && (n <=? 57))%nat
    then decimalValue (10 * acc + (n - 48)) rest
    else None
  end.

(** A world like [stepWorld], of a run that has been cancelled. *)
Definition cancelledWorld (file : option (gmap string string))
  : common.World (RunContext sim.Sim) sim.Sim :=
  mkWorld (sim.simRunContext false false (Some (sim.simContainer sim.simName)))
    (sim.mkSim [sim.simName] [] [] file None) []
    (Some "context canceled").

(** A run context of the simulation that is the scope of a composite
    action with the given steps. *)
Definition compositeRunContext (steps : list Step) : RunContext sim.Sim :=
  mkRunContext None "build" (sim.simConfig false false) sim.simRun "" None ""
    ∅ (mkExpressionEvaluator (fun s => s))
    (Some (sim.simContainer sim.simName)) "build" "" false "" "" ""
    (Some (mkAction steps)).

(** Eleven steps of which only the second declares an id; the first
    fails. *)
Definition elevenSteps : list Step :=
  mkStep "" "" "exit 1" false :: mkStep "build" "" "make" false
    :: repeat (mkStep "" "" "make" false) 9.

End composite_spec.

Module lifecycle_spec.
Import common model container runner runner_spec.

(** The error [Finally] returns from the errors of its two units. *)
Definition finallyError (err err2 : option error) : option error :=
  match err with
  | Some x => Some x
  | None => err2
  end.

(** The world after one more entry has been logged. *)
Definition addLog {RC Ext} (lvl : Level) (msg : string)
    (w : common.World RC Ext) : common.World RC Ext :=
  mkWorld (rc w) (ext w) (logs w ++ [(lvl, msg)]) (canceled w).

(** A world of the simulation in which the job's container and its two
    volumes exist. *)
Definition jobWorld (reuse autoRemove : bool) (closeErr : option error)
  : common.World (RunContext sim.Sim) sim.Sim :=
  sim.simWorld
    (sim.simRunContext reuse autoRemove (Some (sim.simContainer sim.simName)))
    (sim.mkSim [sim.simName] [sim.simName; sim.simName +:+ "-env"] []
       (Some ∅) closeErr).

(** The world [jobWorld] of a run that has been cancelled. *)
Definition cancelledJobWorld
  : common.World (RunContext sim.Sim) sim.Sim :=
  mkWorld (rc (jobWorld false false None)) (ext (jobWorld false false None))
    [] (Some "context canceled").

(** The substrate of [jobWorld] once the job's container, and then its
    volumes, are removed. *)
Definition containerRemoved : sim.Sim :=
  sim.mkSim [] [sim.simName; sim.simName +:+ "-env"] [] (Some ∅) None.

Definition mainVolumeRemoved : sim.Sim :=
  sim.mkSim [] [sim.simName +:+ "-env"] [] (Some ∅) None.

Definition allRemoved : sim.Sim := sim.mkSim [] [] [] (Some ∅) None.

(** The worlds that stop passes through from [jobWorld] after the
    container's removal: the main volume removed, then the "-env" volume. *)
Definition afterMainVolume : common.World (RunContext sim.Sim) sim.Sim :=
  mkWorld (rc (jobWorld false false None)) mainVolumeRemoved
    [(DebugLevel, "  docker  docker volume rm act-CI-build")] None.

Definition afterStop : common.World (RunContext sim.Sim) sim.Sim :=
  mkWorld (rc (jobWorld false false None)) allRemoved
    [(DebugLevel, "  docker  docker volume rm act-CI-build");
     (DebugLevel, "  docker  docker volume rm act-CI-build-env")] None.

End lifecycle_spec.

Module github_spec.
Import common model container runner.

(** The context [getGithubContext] computes when no base context is
    supplied: the defaults applied to the context filled from the run
    context. *)
Definition computedDefaults {Ext} (X : Externals Ext)
    (w : common.World (RunContext Ext) Ext) : res _ GithubContext :=
  applyDefaults X (initialGithubContext X (rc w)) (rc w) w.

(** A world of the simulation whose run context was given the serialized
    base context [base]. *)
Definition baseWorld (base : option string)
  : common.World (RunContext sim.Sim) sim.Sim :=
  sim.simWorld
    (setGithubContextBase base (sim.simRunContext false false None))
    (sim.mkSim [] [] [] None None).

End github_spec.

Module naming_spec.
Import gostrings.

(** A byte of the class [a-zA-Z0-9-]. *)
Definition isSafe (c : ascii) : bool := isAlnum c || isHyphen c.

Fixpoint allSafe (s : string) : bool :=
  match s with
  | EmptyString => true
  | String c t => isSafe c && allSafe t
  end.

Definition firstByte (s : string) : option ascii :=
  match s with
  | EmptyString => None
  | String a _ => Some a
  end.

Fixpoint lastByte (s : string) : option ascii :=
  match s with
  | EmptyString => None
  | String a EmptyString => Some a
  | String _ t => lastByte t
  end.

(** The byte is there and is of the class [a-zA-Z0-9]. *)
Definition alnumAt (o : option ascii) : bool :=
  match o with
  | Some c => isAlnum c
  | None => false
  end.

End naming_spec.

Module step_early_spec.
Import common model container runner.

(** The world after the first two assignments of [newStepExecutor]: the
    step is the current step and its result is a fresh one, successful and
    without outputs. *)
Definition started {Ext} (step : Step)
    (w : common.World (RunContext Ext) Ext)
  : common.World (RunContext Ext) Ext :=
  withRc
    (setStepResults
       (<[ID step := mkStepResult ∅ StepStatusSuccess StepStatusSuccess]>
          (StepResults (rc w)))
       (setCurrentStep (ID step) (rc w)))
    w.

(** The step runner of the simulation, with a condition whose evaluation
    fails with [condErr] and an environment set-up that fails with
    [setupErr], when these are given. *)
Definition erringExternals (condErr setupErr : option error)
  : Externals sim.Sim :=
  let X := sim.simExternals None in
  mkExternals
    (fun sc _ =>
       mret (negb (String.eqb (If_Value (sc_Step sc)) "false"), condErr))
    (fun sc _ =>
       mret (sc_Env sc, mkExpressionEvaluator (fun s => s), setupErr))
    (sc_Executor X) (newJobExecutor X) (EvalBool X) (ContainerWorkdir X)
    (FindGithubRepo X) (SetRefAndSha X) (docker X)
    (json_Unmarshal_GithubContext X) (json_Unmarshal_Event X)
    (strings_ToLower X) (path_Join X).

(** A world of the simulation without a job container. *)
Definition noContainerWorld : common.World (RunContext sim.Sim) sim.Sim :=
  sim.simWorld (sim.simRunContext false false None)
    (sim.mkSim [] [] [] None None).

End step_early_spec.

Module enabled_spec.
Import common model container runner.

(** The world after the entries of [l] have been logged. *)
Definition addLogs {RC Ext} (l : list LogEntry) (w : common.World RC Ext)
  : common.World RC Ext :=
  mkWorld (rc w) (ext w) (logs w ++ l) (canceled w).

Section Image.
Context {Ext : Type}.
Variable X : Externals Ext.

(** The image the configuration gives a runner label: [""] when the
    platform is not configured. *)
Definition labelImage (r : RunContext Ext) (runnerLabel : string) : string :=
  default ""
    (Platforms (Config_ r)
       !! strings_ToLower X (Interpolate (ExprEval r) runnerLabel)).

(** The labels of the job's [runs-on]. *)
Definition runnerLabels (r : RunContext Ext) : list string :=
  default [] (Job_RunsOn (Run_Job (Run_ r))).

(** The job's condition evaluated to true, without error. *)
Definition conditionHolds (r : RunContext Ext) : Prop :=
  EvalBool X (ExprEval r) (Job_If_Value (Run_Job (Run_ r))) = (true, None).

End Image.

(** A context of a dry run. *)
Definition dryrunContext : Context := mkContext false true.

(** A world of the simulation whose job has the condition [false]; its
    container and volumes exist. *)
Definition disabledWorld : common.World (RunContext sim.Sim) sim.Sim :=
  sim.simWorld
    (mkRunContext None "build" (sim.simConfig false false)
       (mkRun "CI" ∅ (mkJob "build" "false" None (Some ["ubuntu-latest"]) ∅ []))
       "" None "" ∅ (mkExpressionEvaluator (fun s => s))
       (Some (sim.simContainer sim.simName)) "build" "" false "" "" "" None)
    (sim.mkSim [sim.simName] [sim.simName; sim.simName +:+ "-env"] []
       (Some ∅) None).

End enabled_spec.

Module defaults_spec.
Import common model container runner gostrings.

(** [result] is [v], or the default [d] when [v] is empty. *)
Definition defaultsTo (v d result : string) : Prop :=
  (v = "" -> result = d) /\ (v <> "" -> result = v).

(** The context [g] with the given ref and sha. *)
Definition withRefAndSha (ref sha : string) (g : GithubContext)
  : GithubContext :=
  mkGithubContext (Event g) (EventPath g) (Workflow g) (RunID g)
    (RunNumber g) (RunAttempt g) (Actor g) (Repository g) (EventName g)
    sha ref (HeadRef g) (BaseRef g) (Token g) (Workspace g) (Action_ g)
    (model.ActionPath g) (model.ActionRef g) (model.ActionRepository g)
    (RepositoryOwner g) (RetentionDays g) (RunnerPerflog g)
    (RunnerTrackingID g).

(** [SetRefAndSha] (its code is not in src) assigns the fields Ref and Sha
    of the context and no other. *)
Definition setsOnlyRefAndSha {Ext} (X : Externals Ext) : Prop :=
  forall defaultBranch repoPath g x x' g',
    SetRefAndSha X defaultBranch repoPath g x = Ok x' g' ->
    exists ref sha, g' = withRefAndSha ref sha g.

(** [owner] is what comes before the first slash of [repo]. *)
Definition ownerOf (owner repo : string) : Prop :=
  Contains owner "/" = false /\
  (repo = owner \/ exists rest, repo = owner +:+ "/" +:+ rest).

End defaults_spec.

Module setup_spec.
Import common model container runner runner_setup.

(** The host of the simulation: Linux without SELinux, no variable set. *)
Definition simHost : Host sim.Sim :=
  mkHost "linux" false (fun _ => "") "192.168.0.2" (fun r => ExprEval r).

(** A configuration that leaves everything to the defaults. *)
Definition simConfigMore : ConfigMore :=
  mkConfigMore "" false "" "" "" "" "".

(** A run context of the simulation whose job declares a container. *)
Definition containerRunContext : RunContext sim.Sim :=
  mkRunContext None "build" (sim.simConfig false false)
    (mkRun "CI" ∅
       (mkJob "build" "" (Some (mkContainerSpec "node:16"))
          (Some ["ubuntu-latest"]) ∅ []))
    "" None "" ∅ (mkExpressionEvaluator (fun s => s)) None "build" "" false
    "" "" "" None.

(** A world of the simulation whose job runs on two labels, of which only
    the first has a configured image. *)
Definition twoLabelWorld : common.World (RunContext sim.Sim) sim.Sim :=
  sim.simWorld
    (mkRunContext None "build" (sim.simConfig false false)
       (mkRun "CI" ∅
          (mkJob "build" "" None (Some ["ubuntu-latest"; "self-hosted"]) ∅ []))
       "" None "" ∅ (mkExpressionEvaluator (fun s => s)) None "build" "" false
       "" "" "" None)
    (sim.mkSim [] [] [] None None).

(** The variables that [withGithubEnv] may assign. *)
Definition githubKeys : list string :=
  ["CI"; "GITHUB_ENV"; "GITHUB_PATH"; "GITHUB_WORKFLOW"; "GITHUB_RUN_ID";
   "GITHUB_RUN_NUMBER"; "GITHUB_RUN_ATTEMPT"; "GITHUB_ACTION";
   "GITHUB_ACTION_PATH"; "GITHUB_ACTION_REPOSITORY"; "GITHUB_ACTION_REF";
   "GITHUB_ACTIONS"; "GITHUB_ACTOR"; "GITHUB_REPOSITORY"; "GITHUB_EVENT_NAME";
   "GITHUB_EVENT_PATH"; "GITHUB_WORKSPACE"; "GITHUB_SHA"; "GITHUB_REF";
   "GITHUB_TOKEN"; "GITHUB_SERVER_URL"; "GITHUB_API_URL"; "GITHUB_GRAPHQL_URL";
   "GITHUB_BASE_REF"; "GITHUB_HEAD_REF"; "GITHUB_JOB";
   "GITHUB_REPOSITORY_OWNER"; "GITHUB_RETENTION_DAYS"; "RUNNER_PERFLOG";
   "RUNNER_TRACKING_ID"; "ACTIONS_RUNTIME_URL"; "ACTIONS_RUNTIME_TOKEN";
   "ImageOS"].

End setup_spec.

(* ===================================================================== *)
(** * Properties of the Go string functions *)
(* ===================================================================== *)

Module gostrings_facts.
Import gostrings.

Lemma string_ind2 (P : string -> Prop) :
  P EmptyString ->
  (forall a, P (String a EmptyString)) ->
  (forall a b t, P t -> P (String b t) -> P (String a (String b t))) ->
  forall s, P s.
Proof.
  intros H0 H1 H2 s.
  assert (H : P s /\ forall a, P (String a s)).
  { induction s as [|b t [IHt IHbt]]; split; auto. }
  apply H.
Qed.

Lemma isHyphen_true c : isHyphen c = true <-> c = hyphen.
Proof. unfold isHyphen. apply Ascii.eqb_eq. Qed.

Lemma isHyphen_false c : isHyphen c = false <-> c <> hyphen.
Proof. unfold isHyphen. apply Ascii.eqb_neq. Qed.

Lemma app_cons_s x (a b : string) : String x a +:+ b = String x (a +:+ b).
Proof. reflexivity. Qed.

Lemma app_nil_l_s (b : string) : EmptyString +:+ b = b.
Proof. reflexivity. Qed.

Ltac sapp := rewrite ?app_cons_s, ?app_nil_l_s in *.


Lemma app_nil_r_s (a : string) : a +:+ EmptyString = a.
Proof. induction a as [|x a IH]; sapp; [reflexivity | now rewrite IH]. Qed.


Lemma collapse_cons2 a b t :
  collapse (String a (String b t)) =
  if isHyphen a && isHyphen b then String hyphen (collapse t)
  else String a (collapse (String b t)).
Proof. reflexivity. Qed.

Lemma replaceAllFrom_0 c t old new :
  replaceAllFrom 0 (String c t) old new =
  if HasPrefix (String c t) old
  then new +:+ replaceAllFrom (String.length old - 1) t old new
  else String c (replaceAllFrom 0 t old new).
Proof. reflexivity. Qed.

Lemma replaceAllFrom_S k c t old new :
  replaceAllFrom (S k) (String c t) old new = replaceAllFrom k t old new.
Proof. reflexivity. Qed.

Lemma replaceAll_collapse_aux s :
  replaceAllFrom 0 s "--" "-" = collapse s.
Proof.
  induction s as [| a | a b t IHt IHbt] using string_ind2.
  - reflexivity.
  - cbn. destruct (Ascii.eqb a "-"); reflexivity.
  - rewrite collapse_cons2, replaceAllFrom_0.
    cbn [HasPrefix String.length Nat.sub].
    unfold isHyphen, hyphen.
    destruct (Ascii.eqb a "-"), (Ascii.eqb b "-"); cbn [andb];
      rewrite ?replaceAllFrom_S, ?IHt, ?IHbt; reflexivity.
Qed.

Lemma ReplaceAll_collapse s : ReplaceAll s "--" "-" = collapse s.
Proof. apply replaceAll_collapse_aux. Qed.

(** ** Boundary hyphens *)

Lemma endsWithByte_cons a t c :
  endsWithByte (String a t) c =
  match t with EmptyString => Ascii.eqb a c | _ => endsWithByte t c end.
Proof. destruct t; reflexivity. Qed.

Lemma HasPrefix_hyphen s : HasPrefix s "-" = startsWithHyphen s.
Proof. destruct s as [|a t]; cbn; [reflexivity | apply andb_true_r]. Qed.

Lemma collapse_empty s : collapse s = EmptyString -> s = EmptyString.
Proof.
  destruct s as [|a [|b t]]; cbn; try congruence.
  destruct (isHyphen a && isHyphen b); discriminate.
Qed.

Lemma collapse_starts s : startsWithHyphen (collapse s) = startsWithHyphen s.
Proof.
  destruct s as [|a [|b t]]; try reflexivity.
  rewrite collapse_cons2.
  destruct (isHyphen a) eqn:Ea, (isHyphen b); cbn; rewrite ?Ea; reflexivity.
Qed.

Lemma collapse_ends s :
  endsWithByte (collapse s) hyphen = endsWithByte s hyphen.
Proof.
  induction s as [| a | a b t IHt IHbt] using string_ind2; try reflexivity.
  rewrite collapse_cons2.
  destruct (isHyphen a && isHyphen b) eqn:E.
  - apply andb_true_iff in E as [_ Eb]. apply isHyphen_true in Eb. subst b.
    rewrite !endsWithByte_cons, IHt.
    destruct t as [|c t'].
    + reflexivity.
    + destruct (collapse (String c t')) eqn:Ec; [|reflexivity].
      apply collapse_empty in Ec. discriminate.
  - rewrite (endsWithByte_cons a (String b t)).
    rewrite endsWithByte_cons, IHbt.
    destruct (collapse (String b t)) eqn:Ec; [|reflexivity].
    apply collapse_empty in Ec. discriminate.
Qed.

Lemma trimLeft_not_starts s :
  startsWithHyphen (trimLeftByte s hyphen) = false.
Proof.
  induction s as [|a t IH]; [reflexivity|].
  cbn [trimLeftByte]. destruct (Ascii.eqb a hyphen) eqn:E; [exact IH|].
  exact E.
Qed.

Lemma trimRight_not_ends s :
  endsWithByte (trimRightByte s hyphen) hyphen = false.
Proof.
  induction s as [|a t IH]; [reflexivity|].
  cbn [trimRightByte].
  destruct (trimRightByte t hyphen) as [|b r] eqn:Et.
  - destruct (Ascii.eqb a hyphen) eqn:E; [reflexivity|]. cbn. exact E.
  - rewrite endsWithByte_cons. exact IH.
Qed.

Lemma trimLeft_keeps_end s c :
  endsWithByte s c = false -> endsWithByte (trimLeftByte s c) c = false.
Proof.
  induction s as [|a t IH]; [reflexivity|].
  cbn [trimLeftByte]. intros H.
  destruct (Ascii.eqb a c) eqn:E; [|exact H].
  apply IH. rewrite endsWithByte_cons in H.
  destruct t; [reflexivity | exact H].
Qed.

Lemma Trim_no_boundary s :
  startsWithHyphen (Trim s hyphen) = false /\
  endsWithByte (Trim s hyphen) hyphen = false.
Proof.
  unfold Trim. split.
  - apply trimLeft_not_starts.
  - apply trimLeft_keeps_end, trimRight_not_ends.
Qed.

(** ** Runs of hyphens *)

Lemma Contains_cons a t sub :
  Contains (String a t) sub = HasPrefix (String a t) sub || Contains t sub.
Proof. reflexivity. Qed.

Lemma collapse_no_double s :
  Contains s "---" = false -> Contains (collapse s) "--" = false.
Proof.
  induction s as [| a | a b t IHt IHbt] using string_ind2.
  - reflexivity.
  - intros _. cbn. rewrite andb_false_r. reflexivity.
  - intros H. rewrite Contains_cons in H.
    apply orb_false_iff in H as [Hp Hc].
    rewrite collapse_cons2.
    destruct (isHyphen a && isHyphen b) eqn:E.
    + apply andb_true_iff in E as [Ea Eb].
      apply isHyphen_true in Ea, Eb. subst a b.
      rewrite Contains_cons in Hc. apply orb_false_iff in Hc as [_ Hc].
      rewrite Contains_cons. apply orb_false_iff. split; [|auto].
      assert (St : startsWithHyphen t = false).
      { destruct t as [|c t']; [reflexivity|].
        cbn in Hp. cbn. unfold isHyphen, hyphen.
        destruct (Ascii.eqb c "-"); [discriminate | reflexivity]. }
      rewrite <- collapse_starts in St.
      destruct (collapse t) as [|c r]; [reflexivity|].
      cbn. cbn in St. unfold isHyphen, hyphen in St. rewrite St. reflexivity.
    + rewrite Contains_cons. apply orb_false_iff. split; [|auto].
      assert (St : startsWithHyphen (collapse (String b t)) = isHyphen b).
      { rewrite collapse_starts. reflexivity. }
      destruct (collapse (String b t)) as [|c r] eqn:Ec.
      { apply collapse_empty in Ec. discriminate. }
      cbn in St. cbn. fold hyphen. fold (isHyphen a).
      unfold isHyphen in St at 1. rewrite St.
      rewrite andb_true_r. exact E.
Qed.

(** ** Substrings that survive trimming and collapsing *)





Lemma trimRight_cons_nonhyphen c t :
  isHyphen c = false ->
  trimRightByte (String c t) hyphen = String c (trimRightByte t hyphen).
Proof.
  intros H. cbn [trimRightByte]. fold (isHyphen c). rewrite H.
  destruct (trimRightByte t hyphen); reflexivity.
Qed.





Lemma collapse_cons_nonhyphen c t :
  isHyphen c = false -> collapse (String c t) = String c (collapse t).
Proof.
  intros H. destruct t as [|b t]; [reflexivity|].
  rewrite collapse_cons2, H. reflexivity.
Qed.







End gostrings_facts.

(* ===================================================================== *)
(** * Container naming: theorems *)
(* ===================================================================== *)

Module naming_facts.
Import gostrings gostrings_facts naming.

Lemma findMatrixSuffix_shape part sfx :
  findMatrixSuffix part = Some sfx ->
  exists d, sfx = String hyphen d /\ d <> EmptyString /\ allDigits d = true.
Proof.
  induction part as [|c t IH]; [discriminate|].
  cbn [findMatrixSuffix].
  destruct (isHyphen c && negb (String.eqb t "") && allDigits t) eqn:E.
  - intros [= <-]. apply andb_true_iff in E as [E Hd].
    apply andb_true_iff in E as [Hc Hn].
    apply isHyphen_true in Hc. subst c. exists t. split; [reflexivity|].
    split; [|exact Hd]. apply negb_true_iff, String.eqb_neq in Hn. exact Hn.
  - exact IH.
Qed.

Lemma nameElems_cons L p rest :
  rest <> [] -> nameElems L (p :: rest) = cutElems L p ++ nameElems L rest.
Proof.
  destruct rest as [|q rest]; [congruence|]. intros _.
  unfold cutElems. cbn [nameElems].
  destruct (findMatrixSuffix p); reflexivity.
Qed.



Lemma Join_cons x l sep :
  l <> [] -> Join (x :: l) sep = x +:+ sep +:+ Join l sep.
Proof. destruct l; [congruence | reflexivity]. Qed.




(** The spec's own naming example. *)
Example createContainerName_act_build :
  createContainerName ["act"; "build (3)"] = Some "act-build-3".
Proof. reflexivity. Qed.

(** C8: the code on the parts "act" and "a - b". The three bytes between
    "a" and "b" become three hyphens; [ReplaceAll(.., "--", "-")], which is
    there to remove doubled hyphens, makes a single pass and leaves two of
    them, so the name contains two consecutive hyphens. *)
Lemma createContainerName_double_hyphen :
  createContainerName ["act"; "a - b"] = Some "act-a--b" /\
  Contains "act-a--b" "--" = true.
Proof. split; reflexivity. Qed.

(** The same in the name of a job container, [createContainerName("act",
    rc.String())], for the job "a - b" of the workflow "CI". *)
Example createContainerName_job_double_hyphen :
  createContainerName ["act"; "CI/a - b"] = Some "act-CI-a--b".
Proof. reflexivity. Qed.

(** The rest of C8 holds of the code: for every non-empty list of parts
    [createContainerName] returns a name, the same name for the same
    ordered parts, and the name neither begins nor ends with a hyphen. Two
    consecutive hyphens are left only where the joined, trimmed name had a
    run of three or more. *)
Theorem createContainerName_hyphens (parts : list string) :
  parts <> [] ->
  exists name,
    createContainerName parts = Some name /\
    (forall parts', parts' = parts -> createContainerName parts' = Some name) /\
    HasPrefix name "-" = false /\
    endsWithByte name hyphen = false /\
    (Contains (Trim (Join (nameElems (partLenOf parts) parts) "-") hyphen) "---"
       = false ->
     Contains name "--" = false).
Proof.
  intros Hne. destruct parts as [|p ps]; [congruence|].
  eexists. split; [reflexivity|].
  split; [intros ? ->; reflexivity|].
  fold (partLenOf (p :: ps)).
  set (t := Trim (Join (nameElems (partLenOf (p :: ps)) (p :: ps)) "-") hyphen).
  rewrite ReplaceAll_collapse.
  destruct (Trim_no_boundary
              (Join (nameElems (partLenOf (p :: ps)) (p :: ps)) "-"))
    as [Hs He].
  fold t in Hs, He.
  split; [rewrite HasPrefix_hyphen, collapse_starts; exact Hs|].
  split; [rewrite collapse_ends; exact He|].
  apply collapse_no_double.
Qed.

Lemma createContainerName_hyphens_witness :
  ["act"; "CI/build (ubuntu-latest, 16)"] <> [] /\
  exists name,
    createContainerName ["act"; "CI/build (ubuntu-latest, 16)"] = Some name /\
    (forall parts', parts' = ["act"; "CI/build (ubuntu-latest, 16)"] ->
                    createContainerName parts' = Some name) /\
    HasPrefix name "-" = false /\
    endsWithByte name hyphen = false /\
    (Contains
       (Trim (Join (nameElems (partLenOf ["act"; "CI/build (ubuntu-latest, 16)"])
                      ["act"; "CI/build (ubuntu-latest, 16)"]) "-") hyphen)
       "---" = false ->
     Contains name "--" = false).
Proof.
  split; [discriminate|].
  apply (createContainerName_hyphens ["act"; "CI/build (ubuntu-latest, 16)"]).
  discriminate.
Defined.





End naming_facts.

(* ===================================================================== *)
(** * Job status and environment layering *)
(* ===================================================================== *)

Module env_facts.
Import common model container runner runner_spec.

Section Facts.
Context {Ext : Type}.
Implicit Types r : RunContext Ext.

Lemma jobStatusLoop_failure (results : list StepResult) :
  jobStatusLoop results "success" = "failure" <->
  exists res, res ∈ results /\ Conclusion res = StepStatusFailure.
Proof.
  induction results as [|x l IH]; cbn [jobStatusLoop].
  - split; [discriminate | intros (res & Hin & _); inversion Hin].
  - destruct (decide (Conclusion x = StepStatusFailure)) as [Hx|Hx].
    + split; [|reflexivity]. intros _. exists x. split; [left | exact Hx].
    + rewrite IH. split.
      * intros (res & Hin & Hres). exists res. split; [now right | exact Hres].
      * intros (res & Hin & Hres). exists res. split; [|exact Hres].
        apply elem_of_cons in Hin as [-> | Hin]; [contradiction | exact Hin].
Qed.

Lemma jobStatusLoop_cases (results : list StepResult) :
  jobStatusLoop results "success" = "failure" \/
  jobStatusLoop results "success" = "success".
Proof.
  induction results as [|x l IH]; cbn [jobStatusLoop]; [now right|].
  destruct (decide (Conclusion x = StepStatusFailure)); [now left | exact IH].
Qed.

Lemma getJobContext_failure r :
  Status (getJobContext r) = "failure" <-> someStepFailed r.
Proof.
  unfold getJobContext, someStepFailed. cbn [Status].
  rewrite jobStatusLoop_failure. split.
  - intros (res & Hin & Hres).
    apply list_elem_of_fmap in Hin as ([id res'] & -> & Hin).
    apply elem_of_map_to_list in Hin. exists id, res'. auto.
  - intros (id & res & Hl & Hres). exists res. split; [|exact Hres].
    apply list_elem_of_fmap. exists (id, res). split; [reflexivity|].
    now apply elem_of_map_to_list.
Qed.

(** C10: the job status is ["failure"] exactly when some recorded step
    result has conclusion Failure, and ["success"] otherwise; the outcomes
    of the results play no part, so a failed step whose conclusion is
    Success does not make the status ["failure"]. *)
Theorem getJobContext_status r :
  (Status (getJobContext r) = "failure" <-> someStepFailed r) /\
  (~ someStepFailed r -> Status (getJobContext r) = "success") /\
  (forall f : StepResult -> stepStatus,
     getJobContext
       (setStepResults ((fun res => setOutcome (f res) res) <$> StepResults r) r)
     = getJobContext r) /\
  (forall id outputs outcome,
     ~ someStepFailed r ->
     Status (getJobContext
               (setStepResults
                  (<[id := mkStepResult outputs StepStatusSuccess outcome]>
                     (StepResults r)) r)) = "success").
Proof.
  split; [apply getJobContext_failure|].
  assert (Hsucc : forall r', ~ someStepFailed r' ->
                             Status (getJobContext r') = "success").
  { intros r' Hno.
    destruct (jobStatusLoop_cases (snd <$> map_to_list (StepResults r')))
      as [Hf|Hs]; [|exact Hs].
    exfalso. apply Hno. apply getJobContext_failure. exact Hf. }
  split; [apply Hsucc|]. split.
  - intros f.
    set (r' := setStepResults _ r).
    assert (Hiff : someStepFailed r' <-> someStepFailed r).
    { unfold someStepFailed, r'. cbn [StepResults setStepResults]. split.
      - intros (id & res & Hl & Hres).
        rewrite lookup_fmap in Hl.
        destruct (StepResults r !! id) as [res0|] eqn:E; [|discriminate].
        injection Hl as <-. exists id, res0. auto.
      - intros (id & res & Hl & Hres).
        exists id, (setOutcome (f res) res).
        rewrite lookup_fmap, Hl. auto. }
    assert (Hst : Status (getJobContext r') = Status (getJobContext r)).
    { destruct (jobStatusLoop_cases (snd <$> map_to_list (StepResults r)))
        as [Hf|Hs].
      - change (Status (getJobContext r) = "failure") in Hf.
        rewrite Hf. apply getJobContext_failure, Hiff, getJobContext_failure.
        exact Hf.
      - change (Status (getJobContext r) = "success") in Hs.
        rewrite Hs. apply Hsucc. intros Hc. apply Hiff in Hc.
        apply getJobContext_failure in Hc. congruence. }
    destruct (getJobContext r') as [s'], (getJobContext r) as [s].
    cbn in Hst. now subst.
  - intros id outputs outcome Hno. apply Hsucc.
    intros (id' & res & Hl & Hres). cbn [StepResults setStepResults] in Hl.
    destruct (decide (id = id')) as [->|Hne].
    + rewrite lookup_insert_eq in Hl. injection Hl as <-. discriminate.
    + rewrite lookup_insert_ne in Hl by exact Hne.
      apply Hno. exists id', res. auto.
Qed.

(** ** [GetEnv] *)

Lemma map_fold_insert_union (m rtnMap : gmap string string) :
  map_fold (fun k v acc => <[k:=v]> acc) rtnMap m = m ∪ rtnMap.
Proof.
  induction m as [|k v m Hk IH] using map_ind.
  - rewrite map_fold_empty. now rewrite (left_id_L ∅ (∪)).
  - rewrite map_fold_insert_L; [|intros; now apply insert_insert_ne | exact Hk].
    rewrite IH. apply insert_union_l.
Qed.

Lemma mergeMaps_three (a b c : gmap string string) :
  mergeMaps [a; b; c] = c ∪ b ∪ a.
Proof.
  unfold mergeMaps. cbn [fold_left].
  rewrite !map_fold_insert_union.
  rewrite (right_id_L ∅ (∪)). now rewrite (assoc_L (∪)).
Qed.

(** [GetEnv] called again returns the same map and leaves the run context
    as it is. *)
Lemma GetEnv_again r : GetEnv (fst (GetEnv r)) = GetEnv r.
Proof.
  unfold GetEnv. cbn [fst Env setEnv].
  rewrite insert_insert_eq. reflexivity.
Qed.

(** C6 (amended): on a run context whose [Env] is not yet set, [GetEnv]
    returns the three layers merged and the marker forced on top: for every
    key but ACT the job-level value overrides the workflow-level value,
    which overrides the global one. On a run context in which a map is
    stored, [GetEnv] returns the stored map with the marker forced, every
    other entry of it kept, and does not read the layers. In both cases ACT
    is "true"; the returned map is stored in the run context, of which
    nothing else changes; calling [GetEnv] again returns the same map and
    changes nothing; and so does a call on any run context that holds the
    returned map, whatever its layers. *)
Theorem GetEnv_layers r :
  (Env r = None ->
   snd (GetEnv r)
     = <["ACT" := "true"]>
         (Job_Environment (Run_Job (Run_ r)) ∪ Workflow_Env (Run_ r)
          ∪ Config_Env (Config_ r)) /\
   (forall k, k <> "ACT" ->
      snd (GetEnv r) !! k
      = match Job_Environment (Run_Job (Run_ r)) !! k with
        | Some v => Some v
        | None =>
          match Workflow_Env (Run_ r) !! k with
          | Some v => Some v
          | None => Config_Env (Config_ r) !! k
          end
        end)) /\
  (forall env,
     Env r = Some env ->
     snd (GetEnv r) = <["ACT" := "true"]> env /\
     (forall k, k <> "ACT" -> snd (GetEnv r) !! k = env !! k)) /\
  snd (GetEnv r) !! "ACT" = Some "true" /\
  fst (GetEnv r) = setEnv (Some (snd (GetEnv r))) r /\
  Env (fst (GetEnv r)) = Some (snd (GetEnv r)) /\
  GetEnv (fst (GetEnv r)) = GetEnv r /\
  (forall r',
     Env r' = Some (snd (GetEnv r)) -> snd (GetEnv r') = snd (GetEnv r)).
Proof.
  split; [|split; [|split; [|split; [|split; [|split]]]]].
  - intros Hnil.
    assert (E : snd (GetEnv r)
                = <["ACT" := "true"]>
                    (Job_Environment (Run_Job (Run_ r)) ∪ Workflow_Env (Run_ r)
                     ∪ Config_Env (Config_ r))).
    { unfold GetEnv. rewrite Hnil. cbn [snd]. now rewrite mergeMaps_three. }
    split; [exact E|]. rewrite E.
    intros k Hk. rewrite lookup_insert_ne by congruence.
    rewrite !lookup_union.
    destruct (Job_Environment (Run_Job (Run_ r)) !! k),
             (Workflow_Env (Run_ r) !! k),
             (Config_Env (Config_ r) !! k); reflexivity.
  - intros env Hsome.
    assert (E : snd (GetEnv r) = <["ACT" := "true"]> env).
    { unfold GetEnv. rewrite Hsome. reflexivity. }
    split; [exact E|]. rewrite E.
    intros k Hk. apply lookup_insert_ne. congruence.
  - unfold GetEnv. cbn [snd]. apply lookup_insert_eq.
  - reflexivity.
  - reflexivity.
  - apply GetEnv_again.
  - intros r' Hr'. unfold GetEnv at 1. rewrite Hr'. cbn [snd].
    unfold GetEnv. cbn [snd]. apply insert_insert_eq.
Qed.

End Facts.

Lemma getJobContext_status_witness :
  ~ someStepFailed (sim.simRunContext false false None) /\
  Status (getJobContext
            (setStepResults
               (<["s1" := mkStepResult ∅ StepStatusSuccess StepStatusFailure]>
                  (StepResults (sim.simRunContext false false None)))
               (sim.simRunContext false false None))) = "success".
Proof.
  assert (Hno : ~ someStepFailed (sim.simRunContext false false None)).
  { intros (id & res & Hl & _). cbn in Hl. rewrite lookup_empty in Hl.
    discriminate. }
  split; [exact Hno|].
  apply (getJobContext_status (sim.simRunContext false false None)).
  exact Hno.
Defined.

Lemma GetEnv_layers_witness :
  snd (GetEnv (layeredRunContext ∅ {["A" := "1"]} {["A" := "2"; "B" := "3"]}))
    = <["ACT" := "true"]> ({["A" := "2"; "B" := "3"]} ∪ {["A" := "1"]} ∪ ∅) /\
  snd (GetEnv (setEnv (Some {["RUNNER_OS" := "Linux"]})
                 (layeredRunContext ∅ {["A" := "1"]}
                    {["A" := "2"; "B" := "3"]})))
    = <["ACT" := "true"]> {["RUNNER_OS" := "Linux"]}.
Proof.
  split.
  - exact (proj1 (proj1 (GetEnv_layers
                    (layeredRunContext ∅ {["A" := "1"]}
                       {["A" := "2"; "B" := "3"]})) eq_refl)).
  - exact (proj1 (proj1 (proj2 (GetEnv_layers
                    (setEnv (Some {["RUNNER_OS" := "Linux"]})
                       (layeredRunContext ∅ {["A" := "1"]}
                          {["A" := "2"; "B" := "3"]}))))
                   {["RUNNER_OS" := "Linux"]} eq_refl)).
Defined.

(** A map that is stored is returned with what it holds; the layers are
    not merged into it. *)
Example GetEnv_stored_example :
  snd (GetEnv (setEnv (Some {["RUNNER_OS" := "Linux"]})
                 (layeredRunContext ∅ {["A" := "1"]}
                    {["A" := "2"; "B" := "3"]})))
  = {["RUNNER_OS" := "Linux"; "ACT" := "true"]}.
Proof. vm_compute. reflexivity. Qed.

(** The spec's example of layering. *)
Example GetEnv_example :
  snd (GetEnv (layeredRunContext ∅ {["A" := "1"]} {["A" := "2"; "B" := "3"]}))
  = {["A" := "2"; "B" := "3"; "ACT" := "true"]}.
Proof. vm_compute. reflexivity. Qed.

(** C6, as stated, fails for the key ACT itself: both the workflow and the
    job set it, and the returned map holds neither value but the marker. *)
Lemma GetEnv_marker_wins :
  Workflow_Env (Run_ (layeredRunContext ∅ {["ACT" := "0"]} {["ACT" := "false"]}))
    !! "ACT" = Some "0" /\
  Job_Environment
    (Run_Job (Run_ (layeredRunContext ∅ {["ACT" := "0"]} {["ACT" := "false"]})))
    !! "ACT" = Some "false" /\
  snd (GetEnv (layeredRunContext ∅ {["ACT" := "0"]} {["ACT" := "false"]}))
    !! "ACT" = Some "true".
Proof. repeat split; vm_compute; reflexivity. Qed.

End env_facts.

(* ===================================================================== *)
(** * Running code in a world: rewriting lemmas *)
(* ===================================================================== *)

Module monad_facts.
Import common model container runner.

Ltac unfoldM :=
  repeat (progress (
    unfold mbind, M_bind, mret, M_ret, bind, ret, modifyRc, getRc, modify, get,
      logf, onExt, panic in *;
    cbn beta iota delta [rc ext logs canceled withRc withExt fst snd] in *)).

Section Facts.
Context {Ext : Type}.
Abbreviation World := (common.World (RunContext Ext) Ext).

Lemma mbind_Ok {S A B} (m : M S A) (k : A -> M S B) s s1 a :
  m s = Ok s1 a -> (m ≫= k) s = k a s1.
Proof. intros H. unfold mbind, M_bind, bind. now rewrite H. Qed.

Lemma bind_Ok {S A B} (m : M S A) (k : A -> M S B) s s1 a :
  m s = Ok s1 a -> bind m k s = k a s1.
Proof. intros H. unfold bind. now rewrite H. Qed.

Lemma getRc_Ok (w : World) : getRc w = Ok w (rc w).
Proof. reflexivity. Qed.

Lemma onExt_Ok {A} (m : M Ext A) (w : World) x a :
  m (ext w) = Ok x a -> onExt m w = Ok (withExt x w) a.
Proof. intros H. unfold onExt. now rewrite H. Qed.

End Facts.
End monad_facts.

(* ===================================================================== *)
(** * The step executor: [newStepExecutor] *)
(* ===================================================================== *)

Module step_facts.
Import common model container runner step_spec monad_facts.

Section Facts.
Context {Ext : Type}.
Variable X : Externals Ext.
Abbreviation World := (common.World (RunContext Ext) Ext).

Lemma newStepExecutor_split step ctx (w : World) :
  newStepExecutor X step ctx w
  = (p ← upToBody X step ctx;
     match p with
     | EarlyReturn err => mret err
     | BodyReturned outputPath err => afterBody step outputPath err ctx
     end) w.
Proof.
  unfold newStepExecutor, upToBody, afterBody.
  cbn [sc_Step].
  unfoldM.
  destruct (sc_isEnabled X _ ctx _) as [w1 [runStep [e|]]|]; [| |reflexivity].
  - destruct (updateStepResult _ _) as [w2 []|]; [|reflexivity].
    destruct (updateStepResult _ _) as [w3 []|]; reflexivity.
  - destruct runStep; cbn [negb].
    + destruct (sc_setupEnv X _ ctx w1) as [w2 [[env ev] [e|]]|];
        [reflexivity| |reflexivity].
      cbn [sc_Step].
      destruct (JobContainer _) as [c|]; [|reflexivity].
      destruct (Copy c _ _ ctx _) as [x cerr|]; [|reflexivity].
      destruct (sc_Executor X _ ctx _) as [w3 err|]; reflexivity.
    + destruct (updateStepResult _ _) as [w2 []|]; [|reflexivity].
      destruct (updateStepResult _ _) as [w3 []|]; reflexivity.
Qed.

Lemma withRc_withRc (r r' : RunContext Ext) (w : World) :
  withRc r' (withRc r w) = withRc r' w.
Proof. reflexivity. Qed.

Lemma updateStepResult_ok f (w : World) res :
  StepResults (rc w) !! CurrentStep (rc w) = Some res ->
  updateStepResult f w
  = Ok (withRc (setStepResults
                  (<[CurrentStep (rc w) := f res]> (StepResults (rc w)))
                  (rc w)) w) tt.
Proof. intros H. unfold updateStepResult. unfoldM. rewrite H. reflexivity. Qed.

Lemma setOutput_ok ctx k v (w : World) res :
  StepResults (rc w) !! CurrentStep (rc w) = Some res ->
  setOutput ctx {["name" := k]} v w
  = Ok (withRc (setStepResults
                  (<[CurrentStep (rc w) :=
                       setOutputs (<[k := v]> (Outputs res)) res]>
                     (StepResults (rc w)))
                  (rc w)) w) tt.
Proof.
  intros H. unfold setOutput. unfoldM. rewrite H.
  rewrite lookup_singleton_eq. reflexivity.
Qed.

Lemma publish_ok ctx (l : list (string * string)) :
  forall (w : World) res,
    StepResults (rc w) !! CurrentStep (rc w) = Some res ->
    exists us,
      mapM (fun kv => setOutput ctx {["name" := fst kv]} (snd kv)) l w
      = Ok (withRc (setStepResults
                      (<[CurrentStep (rc w) :=
                           setOutputs (publish l (Outputs res)) res]>
                         (StepResults (rc w)))
                      (rc w)) w) us.
Proof.
  induction l as [|[k v] l IH]; intros w res H.
  - exists []. cbn [mapM publish fold_left]. unfoldM.
    destruct res. cbn [setOutputs Outputs Conclusion Outcome].
    rewrite insert_id by exact H. destruct w as [r x lg cn], r. reflexivity.
  - cbn [mapM fst snd]. unfoldM.
    rewrite (setOutput_ok ctx k v w res H).
    set (w1 := withRc _ w).
    assert (H1 : StepResults (rc w1) !! CurrentStep (rc w1)
                 = Some (setOutputs (<[k:=v]> (Outputs res)) res)).
    { unfold w1. cbn. apply lookup_insert_eq. }
    destruct (IH w1 _ H1) as [us ->].
    exists (tt :: us). f_equal. unfold w1. cbn.
    rewrite insert_insert_eq. reflexivity.
Qed.

Lemma publish_lookup (l : list (string * string)) :
  forall outs k v,
    NoDup (fst <$> l) -> (k, v) ∈ l -> publish l outs !! k = Some v.
Proof.
  unfold publish.
  induction l as [|[k0 v0] l IH]; intros outs k v Hnd Hin.
  - inversion Hin.
  - cbn [fold_left fst snd]. cbn [fmap list_fmap fst] in Hnd.
    apply NoDup_cons in Hnd as [Hnotin Hnd].
    apply elem_of_cons in Hin as [[= -> ->] | Hin].
    + clear IH. revert outs. induction l as [|[k1 v1] l IHl]; intros outs.
      * cbn. apply lookup_insert_eq.
      * cbn [fold_left fst snd].
        cbn [fmap list_fmap fst] in Hnotin, Hnd.
        apply not_elem_of_cons in Hnotin as [Hne Hnotin].
        apply NoDup_cons in Hnd as [_ Hnd].
        rewrite insert_insert_ne by congruence.
        now apply IHl.
    + now apply IH.
Qed.

Lemma publish_map_lookup (output outs : gmap string string) k v :
  output !! k = Some v -> publish (map_to_list output) outs !! k = Some v.
Proof.
  intros H. apply publish_lookup.
  - apply NoDup_fst_map_to_list.
  - now apply elem_of_map_to_list.
Qed.

(** [afterBody], run from a world that still records the step. *)
Lemma afterBody_spec step path err ctx (w : World) c x3 out rerr :
  keepsStep step w ->
  JobContainer (rc w) = Some c ->
  UpdateFromEnv c path ∅ ctx (ext w) = Ok x3 (out, rerr) ->
  exists w3 res,
    afterBody step path err ctx w = Ok w3 (stepReturn step err rerr) /\
    StepResults (rc w3) !! ID step = Some res /\
    (forall e, err = Some e ->
       Outcome res = StepStatusFailure /\
       Conclusion res = if ContinueOnError step then StepStatusSuccess
                        else StepStatusFailure) /\
    (rerr = None -> forall k v, out !! k = Some v -> Outputs res !! k = Some v).
Proof.
  intros [Hcur [res0 Hres0]] Hc Hread.
  assert (Hphase1 :
    exists w1 res1 err1,
      (match err with
       | None =>
         logf InfoLevel ("  ✅  Success - " +:+ Step_String step);;
         mret None
       | Some e =>
         logf ErrorLevel ("  ❌  Failure - " +:+ Step_String step);;
         updateStepResult (setOutcome StepStatusFailure);;
         if ContinueOnError step then
           logf InfoLevel "Failed but continue next step";;
           updateStepResult (setConclusion StepStatusSuccess);;
           mret None
         else
           updateStepResult (setConclusion StepStatusFailure);;
           mret (Some e)
       end) w = Ok w1 err1 /\
      ext w1 = ext w /\ JobContainer (rc w1) = Some c /\
      CurrentStep (rc w1) = ID step /\
      StepResults (rc w1) !! ID step = Some res1 /\
      stepReturn step err rerr
        = match rerr with Some e' => Some e' | None => err1 end /\
      (forall e, err = Some e ->
         Outcome res1 = StepStatusFailure /\
         Conclusion res1 = if ContinueOnError step then StepStatusSuccess
                           else StepStatusFailure)).
  { destruct err as [e|].
    - unfoldM.
      erewrite updateStepResult_ok by (cbn; rewrite Hcur; exact Hres0).
      cbn. destruct (ContinueOnError step) eqn:Hcoe; unfoldM;
        (erewrite updateStepResult_ok
           by (cbn; rewrite Hcur; apply lookup_insert_eq));
        cbn; rewrite Hcur, insert_insert_eq;
        eexists _, _, _; (split; [reflexivity|]); cbn;
        (split; [reflexivity|]); (split; [exact Hc|]);
        (split; [exact Hcur|]); (split; [apply lookup_insert_eq|]).
      + split; [unfold stepReturn; rewrite Hcoe; reflexivity|].
        intros ? _. split; reflexivity.
      + split; [unfold stepReturn; rewrite Hcoe; reflexivity|].
        intros ? _. split; reflexivity.
    - unfoldM. eexists _, res0, None. split; [reflexivity|]. cbn.
      repeat split; try assumption; discriminate. }
  destruct Hphase1 as (w1 & res1 & err1 & Hrun & Hext & Hc1 & Hcur1 & Hres1
                       & Hret & Hstat).
  unfold afterBody.
  erewrite mbind_Ok by exact Hrun.
  cbv zeta.
  erewrite mbind_Ok by apply getRc_Ok.
  rewrite Hc1.
  erewrite mbind_Ok by (apply onExt_Ok; rewrite Hext; exact Hread).
  rewrite Hret.
  destruct rerr as [e'|].
  - exists (withExt x3 w1), res1.
    split; [reflexivity|]. split; [exact Hres1|].
    split; [exact Hstat | discriminate].
  - assert (Hl : StepResults (rc (withExt x3 w1))
                   !! CurrentStep (rc (withExt x3 w1)) = Some res1).
    { cbn. rewrite Hcur1. exact Hres1. }
    destruct (publish_ok ctx (map_to_list out) _ _ Hl) as [us Hpub].
    erewrite mbind_Ok by exact Hpub.
    eexists _, _. split.
    { destruct err1; reflexivity. }
    cbn. rewrite Hcur1.
    split; [apply lookup_insert_eq|].
    split.
    + intros e He. destruct res1. cbn. exact (Hstat e He).
    + intros _ k v Hk. destruct res1. cbn. now apply publish_map_lookup.
Qed.

(** C1 (amended): when the body of a step fails, the step's recorded
    outcome is Failure; with continue-on-error its conclusion is Success and
    the body's error is not returned, without it the conclusion is Failure
    and the error is returned -- unless reading the output file back fails,
    in which case that read error is what the executor returns. *)
Theorem newStepExecutor_body_failure
    step ctx (w w2 : World) path e c x3 out rerr :
  upToBody X step ctx w = Ok w2 (BodyReturned path (Some e)) ->
  keepsStep step w2 ->
  JobContainer (rc w2) = Some c ->
  UpdateFromEnv c path ∅ ctx (ext w2) = Ok x3 (out, rerr) ->
  exists w3 res,
    newStepExecutor X step ctx w
      = Ok w3 (match rerr with
               | Some e' => Some e'
               | None => if ContinueOnError step then None else Some e
               end) /\
    StepResults (rc w3) !! ID step = Some res /\
    Outcome res = StepStatusFailure /\
    Conclusion res = (if ContinueOnError step then StepStatusSuccess
                      else StepStatusFailure).
Proof.
  intros Hbody Hkeep Hc Hread.
  destruct (afterBody_spec step path (Some e) ctx w2 c x3 out rerr
              Hkeep Hc Hread) as (w3 & res & Hrun & Hres & Hstat & _).
  exists w3, res. rewrite newStepExecutor_split.
  erewrite mbind_Ok by exact Hbody.
  split; [exact Hrun|]. split; [exact Hres|]. exact (Hstat e eq_refl).
Qed.

(** C2: once the body of a step has run, whether it succeeded or failed,
    the output file is read back; if the read fails its error is what the
    executor returns, whatever the body returned; otherwise every pair read
    from the file is in the outputs recorded for the step. *)
Theorem newStepExecutor_outputs
    step ctx (w w2 : World) path berr c x3 out rerr :
  upToBody X step ctx w = Ok w2 (BodyReturned path berr) ->
  keepsStep step w2 ->
  JobContainer (rc w2) = Some c ->
  UpdateFromEnv c path ∅ ctx (ext w2) = Ok x3 (out, rerr) ->
  exists w3 r,
    newStepExecutor X step ctx w = Ok w3 r /\
    match rerr with
    | Some e' => r = Some e'
    | None =>
      exists res,
        StepResults (rc w3) !! ID step = Some res /\
        forall k v, out !! k = Some v -> Outputs res !! k = Some v
    end.
Proof.
  intros Hbody Hkeep Hc Hread.
  destruct (afterBody_spec step path berr ctx w2 c x3 out rerr
              Hkeep Hc Hread) as (w3 & res & Hrun & Hres & _ & Hout).
  exists w3, (stepReturn step berr rerr). rewrite newStepExecutor_split.
  erewrite mbind_Ok by exact Hbody.
  split; [exact Hrun|].
  destruct rerr as [e'|]; [reflexivity|].
  exists res. split; [exact Hres | exact (Hout eq_refl)].
Qed.

End Facts.
(** C1, as stated, fails: a step with continue-on-error whose body fails
    and whose output file cannot be read back does not return success: the
    executor returns the read error. *)
Lemma newStepExecutor_read_error_returned :
  ContinueOnError (failingStep true) = true /\
  (exists w2 path,
     upToBody (sim.simExternals None) (failingStep true) Background
       (stepWorld None)
     = Ok w2 (BodyReturned path (Some "exit status 1"))) /\
  exists w3,
    newStepExecutor (sim.simExternals None) (failingStep true) Background
      (stepWorld None)
    = Ok w3 (Some "open outputcmd.txt: no such file").
Proof.
  split; [reflexivity|]. split.
  - eexists _, _. vm_compute. reflexivity.
  - eexists. vm_compute. reflexivity.
Qed.

Lemma newStepExecutor_body_failure_witness :
  exists w3 res,
    newStepExecutor (sim.simExternals None) (failingStep true) Background
      (stepWorld (Some ∅)) = Ok w3 None /\
    StepResults (rc w3) !! "s1" = Some res /\
    Outcome res = StepStatusFailure /\
    Conclusion res = StepStatusSuccess.
Proof.
  eapply (newStepExecutor_body_failure (sim.simExternals None)
            (failingStep true) Background (stepWorld (Some ∅))
            _ _ "exit status 1" (sim.simContainer sim.simName) _ _ None).
  - vm_compute. reflexivity.
  - split; [reflexivity|]. eexists. vm_compute. reflexivity.
  - reflexivity.
  - vm_compute. reflexivity.
Defined.

Lemma newStepExecutor_outputs_witness :
  exists w3 r,
    newStepExecutor (sim.simExternals None) (failingStep false) Background
      (stepWorld (Some ∅)) = Ok w3 r /\
    exists res,
      StepResults (rc w3) !! "s1" = Some res /\
      forall k v,
        ({["artifact" := "out.tgz"; "version" := "1.2.3"]}
           : gmap string string) !! k = Some v ->
        Outputs res !! k = Some v.
Proof.
  eapply (newStepExecutor_outputs (sim.simExternals None)
            (failingStep false) Background (stepWorld (Some ∅))
            _ _ _ (sim.simContainer sim.simName) _ _ None).
  - vm_compute. reflexivity.
  - split; [reflexivity|]. eexists. vm_compute. reflexivity.
  - reflexivity.
  - vm_compute. reflexivity.
Defined.

End step_facts.

(* ===================================================================== *)
(** * Composite actions: [CompositeExecutor] *)
(* ===================================================================== *)

Module composite_facts.
Import common model container runner runner_spec step_spec composite_spec
  monad_facts.

Section Facts.
Context {Ext : Type}.
Variable X : Externals Ext.
Abbreviation World := (common.World (RunContext Ext) Ext).

Lemma assignIDs_lookup steps :
  forall base i step,
    steps !! i = Some step ->
    assignIDs base steps !! i = Some (withPositionalID (base + i) step).
Proof.
  induction steps as [|s steps IH]; intros base i step H; [discriminate|].
  destruct i as [|i]; cbn [assignIDs].
  - injection H as ->. rewrite Nat.add_0_r. reflexivity.
  - change (assignIDs (S base) steps !! i
            = Some (withPositionalID (base + S i) step)).
    change (steps !! i = Some step) in H.
    rewrite (IH (S base) i step H). do 2 f_equal. lia.
Qed.

Lemma assignIDs_length steps base :
  length (assignIDs base steps) = length steps.
Proof.
  revert base. induction steps as [|s steps IH]; intros base; cbn;
    [reflexivity | now rewrite IH].
Qed.

(** What the executor around one step does with the step's result. *)
Lemma compositeStep_spec (stepExec : Executor World) ctx je (w : World) :
  compositeStep stepExec ctx (je, w)
  = match stepExec ctx w with
    | Panicked msg => Panicked msg
    | Ok w1 err =>
      Ok (match recordedAfter ctx err w1 with
          | Some e => Some e
          | None => je
          end, worldAfter ctx err w1) None
    end.
Proof.
  unfold compositeStep, underJob, SetJobError, ctxErr, worldAfter,
    recordedAfter, logError.
  unfoldM.
  destruct (stepExec ctx w) as [w1 [e|]|msg]; cbn [fst snd]; try reflexivity.
  change (Err ctx w1) with (observedCancellation ctx w1).
  destruct (observedCancellation ctx w1); reflexivity.
Qed.

Lemma Err_worldAfter ctx err (w1 : World) (je : JobErrorContainer) :
  Err ctx (je, worldAfter ctx err w1) = observedCancellation ctx w1.
Proof.
  unfold Err, cancellation, JobErrorContainer_Cancellation, cancellation,
    World_Cancellation, observedCancellation, worldAfter, logError.
  destruct (recordedAfter ctx err w1); reflexivity.
Qed.

Lemma NewPipelineExecutor_cons {S} `{Cancellation S}
    (e : Executor S) (l : list (Executor S)) (x : Executor S) :
  NewPipelineExecutor (e :: l ++ [x]) = Then e (NewPipelineExecutor (l ++ [x])).
Proof. destruct l; reflexivity. Qed.

(** The pipeline that [CompositeExecutor] builds, run under the job-error
    container from any recorded error. *)
Lemma pipeline_compositeRun ctx steps :
  forall (je : JobErrorContainer) (w : World),
    match
      NewPipelineExecutor
        (map (fun step => compositeStep (newStepExecutor X step)) steps
         ++ [JobError]) ctx (je, w)
    with
    | Ok js r => Ok (snd js) r
    | Panicked msg => Panicked msg
    end
    = compositeRun X ctx steps je w.
Proof.
  induction steps as [|s steps IH]; intros je w.
  - reflexivity.
  - cbn [map app compositeRun].
    rewrite NewPipelineExecutor_cons. unfold Then at 1. unfold bind at 1.
    rewrite compositeStep_spec.
    destruct (newStepExecutor X s ctx w) as [w1 err|msg]; [|reflexivity].
    unfold bind, ctxErr, ret. rewrite Err_worldAfter.
    destruct (observedCancellation ctx w1) as [c|] eqn:Hc; [reflexivity|].
    rewrite IH. unfold recordedAfter. rewrite Hc.
    destruct err; reflexivity.
Qed.

Lemma CompositeExecutor_compositeRun (r : RunContext Ext) action ctx (w : World) :
  Composite r = Some action ->
  CompositeExecutor X r ctx w
  = compositeRun X ctx (assignIDs 0 (Runs_Steps action)) None w.
Proof.
  intros Hc. unfold CompositeExecutor. rewrite Hc.
  unfold WithJobErrorContainer. apply pipeline_compositeRun.
Qed.

(** Every listed run is a run of the step's executor. *)
Lemma stepRuns_real ctx steps :
  forall (w : World) run,
    run ∈ stepRuns X ctx steps w ->
    newStepExecutor X (runStep run) ctx (runFrom run)
    = Ok (runTo run) (runErr run).
Proof.
  induction steps as [|s steps IH]; intros w run H; cbn [stepRuns] in H.
  - now apply elem_of_nil in H.
  - destruct (newStepExecutor X s ctx w) as [w1 err|msg] eqn:E;
      [|now apply elem_of_nil in H].
    apply elem_of_cons in H as [-> | H]; [exact E|].
    destruct (observedCancellation ctx w1); [now apply elem_of_nil in H|].
    exact (IH _ _ H).
Qed.

(** The steps that are run are the first steps of the list. *)
Lemma stepRuns_prefix ctx steps :
  forall (w : World), map runStep (stepRuns X ctx steps w) `prefix_of` steps.
Proof.
  induction steps as [|s steps IH]; intros w; cbn [stepRuns].
  - reflexivity.
  - destruct (newStepExecutor X s ctx w) as [w1 err|msg];
      [|apply prefix_nil].
    cbn [map runStep]. apply prefix_cons.
    destruct (observedCancellation ctx w1); [apply prefix_nil | apply IH].
Qed.

(** With no cancellation observed after any run, no step is left out, the
    result is the last error that a step returned, and the world is the one
    the last run ended in. *)
Lemma compositeRun_no_cancellation ctx steps :
  forall recorded (w w' : World) res,
    compositeRun X ctx steps recorded w = Ok w' res ->
    (forall run,
       run ∈ stepRuns X ctx steps w ->
       observedCancellation ctx (runTo run) = None) ->
    map runStep (stepRuns X ctx steps w) = steps /\
    res = lastError recorded (stepRuns X ctx steps w) /\
    w' = lastWorld ctx w (stepRuns X ctx steps w).
Proof.
  induction steps as [|s steps IH]; intros recorded w w' res H Hno;
    cbn [compositeRun stepRuns] in *.
  - injection H as <- <-. repeat split; reflexivity.
  - destruct (newStepExecutor X s ctx w) as [w1 err|msg]; [|discriminate].
    assert (Hc : observedCancellation ctx w1 = None)
      by exact (Hno (mkStepRun s w w1 err) (list_elem_of_here _ _)).
    rewrite Hc in H, Hno |- *.
    destruct (IH _ _ _ _ H) as (Hmap & Hres & Hw).
    { intros run Hrun. apply Hno. now apply list_elem_of_further. }
    split; [cbn [map runStep]; now rewrite Hmap|].
    split; [rewrite Hres | rewrite Hw]; reflexivity.
Qed.

(** A run after which a cancellation is observed is the last one, and the
    cancellation error is the result. *)
Lemma compositeRun_cancellation ctx steps :
  forall recorded (w : World) pre run post c,
    stepRuns X ctx steps w = pre ++ run :: post ->
    observedCancellation ctx (runTo run) = Some c ->
    post = [] /\
    compositeRun X ctx steps recorded w
    = Ok (worldAfter ctx (runErr run) (runTo run)) (Some c).
Proof.
  induction steps as [|s steps IH]; intros recorded w pre run post c H Hc;
    cbn [compositeRun stepRuns] in *.
  - now destruct pre.
  - destruct (newStepExecutor X s ctx w) as [w1 err|msg];
      [|now destruct pre].
    destruct pre as [|p pre]; cbn [app] in H.
    + injection H as <- H. cbn [runTo runErr] in *. rewrite Hc in H |- *.
      split; [now symmetry | reflexivity].
    + injection H as _ H.
      destruct (observedCancellation ctx w1); [now destruct pre|].
      exact (IH _ _ _ _ _ _ H Hc).
Qed.

(** An error once recorded, the result is an error. *)
Lemma compositeRun_keeps_error ctx steps :
  forall recorded (w w' : World) res,
    compositeRun X ctx steps recorded w = Ok w' res ->
    is_Some recorded -> is_Some res.
Proof.
  induction steps as [|s steps IH]; intros recorded w w' res H Hs;
    cbn [compositeRun] in H.
  - now injection H as _ <-.
  - destruct (newStepExecutor X s ctx w) as [w1 err|msg]; [|discriminate].
    destruct (observedCancellation ctx w1);
      [injection H as _ <-; now eexists|].
    apply (IH _ _ _ _ H). destruct err; [now eexists | exact Hs].
Qed.

(** The decimal numeral of a number denotes it. *)
Lemma decimalValue_string_of_uint d :
  forall acc,
    decimalValue acc (NilEmpty.string_of_uint d) = Some (Nat.of_uint_acc d acc).
Proof.
  induction d as [|d IH|d IH|d IH|d IH|d IH|d IH|d IH|d IH|d IH|d IH];
    intros acc; [reflexivity|..];
    cbn [NilEmpty.string_of_uint decimalValue];
    match goal with
    | |- context [nat_of_ascii ?c] =>
      let n := eval vm_compute in (nat_of_ascii c) in
      change (nat_of_ascii c) with n
    end;
    cbn [Nat.leb andb Nat.sub Nat.of_uint_acc]; rewrite IH;
    rewrite Nat.tail_mul_spec; do 2 f_equal; lia.
Qed.

Lemma decimalValue_Sprintf_d i :
  decimalValue 0 (gostrings.Sprintf_d i) = Some i.
Proof.
  unfold gostrings.Sprintf_d. rewrite decimalValue_string_of_uint.
  change (Nat.of_uint_acc (Nat.to_uint i) 0) with (Nat.of_uint (Nat.to_uint i)).
  now rewrite DecimalNat.Unsigned.of_to.
Qed.

(** C5 (amended): [CompositeExecutor] gives every inner step without an id
    the decimal numeral of its index as id and leaves a declared id as it
    is. Its result is that of the run written out in [compositeRun]: the
    steps are run in order, each from the world the previous one left; a
    step's error is logged and recorded as the job's error and does not
    stop the run, so with no cancellation observed every step is run, the
    result is the last error a step returned, if any, and the world is the
    one the last step's run ended in. A cancellation
    observed after a step is recorded too, when the step returned no error,
    but it ends the run: the steps after it are not run, and the
    cancellation error is the result. *)
Theorem CompositeExecutor_spec
    (r : RunContext Ext) action ctx (w : World) :
  Composite r = Some action ->
  (forall i step,
     Runs_Steps action !! i = Some step ->
     exists step',
       assignIDs 0 (Runs_Steps action) !! i = Some step' /\
       If_Value step' = If_Value step /\
       Step_String step' = Step_String step /\
       ContinueOnError step' = ContinueOnError step /\
       (ID step <> EmptyString -> ID step' = ID step) /\
       (ID step = EmptyString ->
        ID step' = NilEmpty.string_of_uint (Nat.to_uint i) /\
        decimalValue 0 (ID step') = Some i)) /\
  CompositeExecutor X r ctx w
    = compositeRun X ctx (assignIDs 0 (Runs_Steps action)) None w /\
  (forall run,
     run ∈ stepRuns X ctx (assignIDs 0 (Runs_Steps action)) w ->
     newStepExecutor X (runStep run) ctx (runFrom run)
     = Ok (runTo run) (runErr run)) /\
  (forall w' res,
     CompositeExecutor X r ctx w = Ok w' res ->
     (forall run,
        run ∈ stepRuns X ctx (assignIDs 0 (Runs_Steps action)) w ->
        observedCancellation ctx (runTo run) = None) ->
     map runStep (stepRuns X ctx (assignIDs 0 (Runs_Steps action)) w)
     = assignIDs 0 (Runs_Steps action) /\
     res = lastError None (stepRuns X ctx (assignIDs 0 (Runs_Steps action)) w) /\
     w' = lastWorld ctx w (stepRuns X ctx (assignIDs 0 (Runs_Steps action)) w)) /\
  (forall pre run post c,
     stepRuns X ctx (assignIDs 0 (Runs_Steps action)) w = pre ++ run :: post ->
     observedCancellation ctx (runTo run) = Some c ->
     post = [] /\
     CompositeExecutor X r ctx w
     = Ok (worldAfter ctx (runErr run) (runTo run)) (Some c)).
Proof.
  intros Hc. split; [|split; [|split; [|split]]].
  - intros i step H. exists (withPositionalID i step).
    split; [exact (assignIDs_lookup _ 0 i step H)|].
    unfold withPositionalID.
    destruct (String.eqb (ID step) "") eqn:E.
    + apply String.eqb_eq in E. do 3 (split; [reflexivity|]). split.
      * intros Hne. now destruct Hne.
      * intros _. split; [reflexivity | apply decimalValue_Sprintf_d].
    + apply String.eqb_neq in E. do 3 (split; [reflexivity|]). split.
      * reflexivity.
      * intros He. now destruct E.
  - exact (CompositeExecutor_compositeRun r action ctx w Hc).
  - apply stepRuns_real.
  - intros w' res H. rewrite (CompositeExecutor_compositeRun r action ctx w Hc) in H.
    exact (compositeRun_no_cancellation ctx _ _ _ _ _ H).
  - intros pre run post c H Hcan.
    rewrite (CompositeExecutor_compositeRun r action ctx w Hc).
    exact (compositeRun_cancellation ctx _ None w pre run post c H Hcan).
Qed.

End Facts.

(** Two steps without ids, the first of which fails: both are run, under
    the ids "0" and "1", and the first step's error is the result. *)
Example CompositeExecutor_example :
  exists w' r0 r1,
    CompositeExecutor (sim.simExternals None)
      (compositeRunContext [mkStep "" "" "exit 1" false; mkStep "" "" "make" false])
      Background (stepWorld (Some ∅))
    = Ok w' (Some "exit status 1") /\
    StepResults (rc w') !! "0" = Some r0 /\
    Conclusion r0 = StepStatusFailure /\
    StepResults (rc w') !! "1" = Some r1 /\
    Conclusion r1 = StepStatusSuccess.
Proof. eexists _, _, _. vm_compute. repeat split; reflexivity. Qed.

(** C5, as stated, fails: two steps run on a cancelled context. After the
    first step the cancellation is observed, logged and returned; the
    second step is not run and has no result. *)
Lemma CompositeExecutor_cancelled_skips_siblings :
  exists w' r0,
    CompositeExecutor (sim.simExternals None)
      (compositeRunContext [mkStep "" "" "make" false; mkStep "" "" "make" false])
      cancelable (cancelledWorld (Some ∅))
    = Ok w' (Some "context canceled") /\
    StepResults (rc w') !! "0" = Some r0 /\
    Conclusion r0 = StepStatusSuccess /\
    StepResults (rc w') !! "1" = None /\
    last (logs w') = Some (ErrorLevel, "context canceled").
Proof. eexists _, _. vm_compute. repeat split; reflexivity. Qed.

Lemma CompositeExecutor_spec_witness :
  Composite (compositeRunContext elevenSteps) = Some (mkAction elevenSteps) /\
  (exists step',
     assignIDs 0 elevenSteps !! 10%nat = Some step' /\
     ID step' = "10" /\ decimalValue 0 (ID step') = Some 10%nat) /\
  (exists step',
     assignIDs 0 elevenSteps !! 1%nat = Some step' /\ ID step' = "build") /\
  (map runStep
     (stepRuns (sim.simExternals None) Background
        (assignIDs 0 [mkStep "" "" "exit 1" false; mkStep "" "" "make" false])
        (stepWorld (Some ∅)))
   = assignIDs 0 [mkStep "" "" "exit 1" false; mkStep "" "" "make" false] /\
   Some "exit status 1"
   = lastError None
       (stepRuns (sim.simExternals None) Background
          (assignIDs 0 [mkStep "" "" "exit 1" false; mkStep "" "" "make" false])
          (stepWorld (Some ∅)))) /\
  (exists w',
     CompositeExecutor (sim.simExternals None)
       (compositeRunContext
          [mkStep "" "" "make" false; mkStep "" "" "make" false])
       cancelable (cancelledWorld (Some ∅))
     = Ok w' (Some "context canceled")).
Proof.
  split; [reflexivity|].
  destruct (CompositeExecutor_spec (sim.simExternals None)
              (compositeRunContext elevenSteps) (mkAction elevenSteps)
              Background (stepWorld (Some ∅)) eq_refl)
    as (Hids & _).
  split; [|split; [|split]].
  - destruct (Hids 10%nat (mkStep "" "" "make" false) eq_refl)
      as (step' & Hl & _ & _ & _ & _ & Hid).
    exists step'. split; [exact Hl|].
    destruct (Hid eq_refl) as [H1 H2].
    split; [rewrite H1; reflexivity | exact H2].
  - destruct (Hids 1%nat (mkStep "build" "" "make" false) eq_refl)
      as (step' & Hl & _ & _ & _ & Hid & _).
    exists step'. split; [exact Hl|]. apply Hid. discriminate.
  - assert (Hrun : exists w',
              CompositeExecutor (sim.simExternals None)
                (compositeRunContext
                   [mkStep "" "" "exit 1" false; mkStep "" "" "make" false])
                Background (stepWorld (Some ∅))
              = Ok w' (Some "exit status 1"))
      by (eexists; vm_compute; reflexivity).
    destruct Hrun as [w' Hrun].
    destruct (CompositeExecutor_spec (sim.simExternals None)
                (compositeRunContext
                   [mkStep "" "" "exit 1" false; mkStep "" "" "make" false])
                (mkAction
                   [mkStep "" "" "exit 1" false; mkStep "" "" "make" false])
                Background (stepWorld (Some ∅)) eq_refl)
      as (_ & _ & _ & Hall & _).
    destruct (Hall w' _ Hrun (fun _ _ => eq_refl)) as (Hmap & Hres & _).
    split; [exact Hmap | exact Hres].
  - assert (Hruns : exists run,
              stepRuns (sim.simExternals None) cancelable
                (assignIDs 0
                   [mkStep "" "" "make" false; mkStep "" "" "make" false])
                (cancelledWorld (Some ∅))
              = [] ++ run :: [] /\
              observedCancellation cancelable (runTo run)
              = Some "context canceled")
      by (eexists; split; vm_compute; reflexivity).
    destruct Hruns as (run & H1 & H2).
    destruct (CompositeExecutor_spec (sim.simExternals None)
                (compositeRunContext
                   [mkStep "" "" "make" false; mkStep "" "" "make" false])
                (mkAction
                   [mkStep "" "" "make" false; mkStep "" "" "make" false])
                cancelable (cancelledWorld (Some ∅)) eq_refl)
      as (_ & _ & _ & _ & Hcan).
    destruct (Hcan [] run [] _ H1 H2) as [_ H].
    eexists. exact H.
Defined.

End composite_facts.

(* ===================================================================== *)
(** * Container lifecycle: [stopJobContainer] and [Executor] *)
(* ===================================================================== *)

Module lifecycle_facts.
Import common model container runner lifecycle_spec monad_facts runner_spec.

Section Facts.
Context {Ext : Type}.
Variable X : Externals Ext.
Abbreviation World := (common.World (RunContext Ext) Ext).

Lemma volumeRemove_not_listed volume force ctx (w : World) l :
  GetDockerClient (docker X) ctx (ext w) = None ->
  VolumeList (docker X) ctx (ext w) = (l, None) ->
  volumeListed l volume = false ->
  NewDockerVolumeRemoveExecutor (docker X) volume force ctx w = Ok w None.
Proof.
  intros Hc Hl Hn. unfold NewDockerVolumeRemoveExecutor. unfoldM.
  rewrite Hc, Hl, Hn. reflexivity.
Qed.

Lemma removeExecutor_rc volume force ctx (w w' : World) e :
  removeExecutor (docker X) volume force ctx w = Ok w' e -> rc w' = rc w.
Proof.
  unfold removeExecutor. unfoldM.
  destruct (Dryrun ctx); [now intros [= <- _]|].
  destruct (GetDockerClient _ _ _); [now intros [= <- _]|].
  destruct (VolumeRemove _ _ _ _ _); [|discriminate]. now intros [= <- _].
Qed.

Lemma volumeRemove_rc volume force ctx (w w' : World) e :
  NewDockerVolumeRemoveExecutor (docker X) volume force ctx w = Ok w' e ->
  rc w' = rc w.
Proof.
  unfold NewDockerVolumeRemoveExecutor. unfoldM.
  destruct (GetDockerClient _ _ _); [now intros [= <- _]|].
  destruct (VolumeList _ _ _) as [l [e'|]]; [now intros [= <- _]|].
  destruct (volumeListed l volume); [apply removeExecutor_rc|].
  now intros [= <- _].
Qed.

(** [stopJobContainer] when it does remove: the container's [Remove], and
    after its success, if no cancellation is observed, outside local mode,
    the two volume removals under [Finally]. *)
Lemma stopJobContainer_removing ctx (w : World) c :
  JobContainer (rc w) = Some c ->
  ReuseContainers (Config_ (rc w)) = false ->
  stopJobContainer X ctx w
  = match Remove c ctx (ext w) with
    | Panicked msg => Panicked msg
    | Ok x1 (Some e) => Ok (withExt x1 w) (Some e)
    | Ok x1 None =>
      match observedCancellation ctx w with
      | Some e => Ok (withExt x1 w) (Some e)
      | None =>
        if Local (rc w) then Ok (withExt x1 w) None
        else
          Finally
            (NewDockerVolumeRemoveExecutor (docker X) (jobContainerName (rc w))
               false)
            (NewDockerVolumeRemoveExecutor (docker X)
               (jobContainerName (rc w) +:+ "-env") false)
            ctx (withExt x1 w)
      end
    end.
Proof.
  intros Hc Hr. unfold stopJobContainer, Then, If, ctxErr. unfoldM.
  rewrite Hc, Hr. cbn [negb].
  destruct (Remove c ctx (ext w)) as [x1 [e|]|msg]; try reflexivity.
  change (Err ctx (withExt x1 w)) with (observedCancellation ctx w).
  destruct (observedCancellation ctx w); [reflexivity|].
  change (rc (withExt x1 w)) with (rc w).
  destruct (Local (rc w)); reflexivity.
Qed.

Lemma stopJobContainer_rc ctx (w w' : World) e :
  stopJobContainer X ctx w = Ok w' e -> rc w' = rc w.
Proof.
  destruct (JobContainer (rc w)) as [c|] eqn:Hc.
  2:{ unfold stopJobContainer. unfoldM. rewrite Hc. now intros [= <- _]. }
  destruct (ReuseContainers (Config_ (rc w))) eqn:Hr.
  { unfold stopJobContainer. unfoldM. rewrite Hc, Hr. now intros [= <- _]. }
  rewrite (stopJobContainer_removing ctx w c Hc Hr).
  destruct (Remove c ctx (ext w)) as [x1 [e1|]|msg];
    [now intros [= <- _] | | discriminate].
  destruct (observedCancellation ctx w); [now intros [= <- _]|].
  destruct (Local (rc w)); [now intros [= <- _]|].
  unfold Finally. unfoldM.
  destruct (NewDockerVolumeRemoveExecutor _ _ _ ctx _) as [w2 e2|] eqn:E2;
    [|discriminate].
  destruct (NewDockerVolumeRemoveExecutor _ _ _ ctx w2) as [w3 e3|] eqn:E3;
    [|discriminate].
  intros [= <- _].
  apply volumeRemove_rc in E2, E3. rewrite E3, E2. reflexivity.
Qed.

(** C4 (amended): [stopJobContainer] does nothing and returns no error
    when there is no container handle or when reuse is configured.
    Otherwise it runs the container's [Remove]; if that fails its error is
    returned and no volume is touched; if it succeeds and a cancellation is
    observed, the cancellation error is returned and no volume is touched.
    If it succeeds and no cancellation is observed, then in local mode
    nothing more is done, and outside local mode the removal of the main
    volume is attempted and after it, whether or not it failed, the removal
    of the "-env" volume, the first error of the two being returned. The
    removal of a volume that the daemon does not list returns no error and
    changes nothing. So on a container and volumes that are already gone,
    where [Remove] succeeds without effect and neither volume is listed,
    [stopJobContainer] returns no error and changes nothing, unless a
    cancellation is observed. *)
Theorem stopJobContainer_spec ctx (w : World) :
  (JobContainer (rc w) = None \/ ReuseContainers (Config_ (rc w)) = true ->
   stopJobContainer X ctx w = Ok w None) /\
  (forall c x1 e,
     JobContainer (rc w) = Some c ->
     ReuseContainers (Config_ (rc w)) = false ->
     Remove c ctx (ext w) = Ok x1 (Some e) ->
     stopJobContainer X ctx w = Ok (withExt x1 w) (Some e)) /\
  (forall c x1 e,
     JobContainer (rc w) = Some c ->
     ReuseContainers (Config_ (rc w)) = false ->
     Remove c ctx (ext w) = Ok x1 None ->
     observedCancellation ctx w = Some e ->
     stopJobContainer X ctx w = Ok (withExt x1 w) (Some e)) /\
  (forall c x1,
     JobContainer (rc w) = Some c ->
     ReuseContainers (Config_ (rc w)) = false ->
     Remove c ctx (ext w) = Ok x1 None ->
     observedCancellation ctx w = None ->
     Local (rc w) = true ->
     stopJobContainer X ctx w = Ok (withExt x1 w) None) /\
  (forall c x1 w2 e1 w3 e2,
     JobContainer (rc w) = Some c ->
     ReuseContainers (Config_ (rc w)) = false ->
     Remove c ctx (ext w) = Ok x1 None ->
     observedCancellation ctx w = None ->
     Local (rc w) = false ->
     NewDockerVolumeRemoveExecutor (docker X) (jobContainerName (rc w)) false
       ctx (withExt x1 w) = Ok w2 e1 ->
     NewDockerVolumeRemoveExecutor (docker X)
       (jobContainerName (rc w) +:+ "-env") false ctx w2 = Ok w3 e2 ->
     stopJobContainer X ctx w = Ok w3 (finallyError e1 e2)) /\
  (forall volume force l,
     GetDockerClient (docker X) ctx (ext w) = None ->
     VolumeList (docker X) ctx (ext w) = (l, None) ->
     volumeListed l volume = false ->
     NewDockerVolumeRemoveExecutor (docker X) volume force ctx w = Ok w None) /\
  (forall c l,
     JobContainer (rc w) = Some c ->
     Remove c ctx (ext w) = Ok (ext w) None ->
     GetDockerClient (docker X) ctx (ext w) = None ->
     VolumeList (docker X) ctx (ext w) = (l, None) ->
     volumeListed l (jobContainerName (rc w)) = false ->
     volumeListed l (jobContainerName (rc w) +:+ "-env") = false ->
     stopJobContainer X ctx w
     = Ok w (if ReuseContainers (Config_ (rc w)) then None
             else observedCancellation ctx w)).
Proof.
  split; [|split; [|split; [|split; [|split; [|split]]]]].
  - intros H. unfold stopJobContainer. unfoldM.
    destruct (JobContainer (rc w)) as [c|]; [|reflexivity].
    destruct H as [H|H]; [discriminate | rewrite H; reflexivity].
  - intros c x1 e Hc Hr Hrm.
    rewrite (stopJobContainer_removing ctx w c Hc Hr), Hrm. reflexivity.
  - intros c x1 e Hc Hr Hrm He.
    rewrite (stopJobContainer_removing ctx w c Hc Hr), Hrm, He. reflexivity.
  - intros c x1 Hc Hr Hrm He Hl.
    rewrite (stopJobContainer_removing ctx w c Hc Hr), Hrm, He, Hl.
    reflexivity.
  - intros c x1 w2 e1 w3 e2 Hc Hr Hrm He Hl H1 H2.
    rewrite (stopJobContainer_removing ctx w c Hc Hr), Hrm, He, Hl.
    unfold Finally. unfoldM. rewrite H1, H2. reflexivity.
  - intros volume force l. apply volumeRemove_not_listed.
  - intros c l Hc Hrm Hcli Hlist H1 H2.
    destruct (ReuseContainers (Config_ (rc w))) eqn:Hr.
    { unfold stopJobContainer. unfoldM. rewrite Hc, Hr. reflexivity. }
    rewrite (stopJobContainer_removing ctx w c Hc Hr), Hrm.
    assert (Hw : withExt (ext w) w = w) by (destruct w; reflexivity).
    rewrite Hw. destruct (observedCancellation ctx w); [reflexivity|].
    destruct (Local (rc w)); [reflexivity|].
    unfold Finally. unfoldM.
    rewrite (volumeRemove_not_listed _ false ctx w l Hcli Hlist H1).
    rewrite (volumeRemove_not_listed _ false ctx w l Hcli Hlist H2).
    reflexivity.
Qed.

(** The final stage of [Executor()] on a world with a container handle:
    the optional stop, whose error is logged and dropped, then [Close],
    whose result is the result of the stage. *)
Lemma Executor_finally_spec ctx (w1 : World) c :
  JobContainer (rc w1) = Some c ->
  (AutoRemove (Config_ (rc w1)) = false ->
   Executor_finally X ctx w1 = onExt (Close c Background) w1) /\
  (AutoRemove (Config_ (rc w1)) = true ->
   forall ws serr,
     stopJobContainer X Background
       (addLog InfoLevel ("Cleaning up container for job " +:+ JobName (rc w1))
          w1) = Ok ws serr ->
     Executor_finally X ctx w1
     = onExt (Close c Background)
         (match serr with
          | Some e =>
            addLog ErrorLevel ("Error while cleaning container: " +:+ e) ws
          | None => ws
          end)).
Proof.
  intros Hc. split.
  - intros Ha. unfold Executor_finally. unfoldM. rewrite Hc, Ha.
    unfoldM. rewrite Hc. reflexivity.
  - intros Ha ws serr Hstop. unfold Executor_finally. unfoldM.
    rewrite Hc, Ha. unfoldM. unfold addLog in Hstop. rewrite Hstop.
    pose proof (stopJobContainer_rc _ _ _ _ Hstop) as Hrc. cbn in Hrc.
    assert (Hc' : JobContainer (rc ws) = Some c) by (rewrite Hrc; exact Hc).
    destruct serr as [e|]; unfoldM; rewrite Hc'; reflexivity.
Qed.

(** C3 (amended): when the job is enabled and a container handle is set
    after the step pipeline, the final stage of [Executor()] runs whether
    the pipeline succeeded or failed. A failure of the pipeline is the
    result whatever the final stage returns; when the pipeline succeeded the
    result is that of the final stage. With auto-removal the final stage
    runs stop, whose error is logged and not returned; it then closes the
    container, with or without auto-removal, and returns what [Close]
    returns. *)
Theorem rc_Executor_teardown ctx (w wE w1 : World) r c :
  isEnabled X ctx w = Ok wE true ->
  newJobExecutor X ctx wE = Ok w1 r ->
  JobContainer (rc w1) = Some c ->
  (forall w2 ce,
     Executor_finally X ctx w1 = Ok w2 ce ->
     rc_Executor X ctx w = Ok w2 (finallyError r ce)) /\
  (AutoRemove (Config_ (rc w1)) = false ->
   Executor_finally X ctx w1 = onExt (Close c Background) w1) /\
  (AutoRemove (Config_ (rc w1)) = true ->
   forall ws serr,
     stopJobContainer X Background
       (addLog InfoLevel ("Cleaning up container for job " +:+ JobName (rc w1))
          w1) = Ok ws serr ->
     Executor_finally X ctx w1
     = onExt (Close c Background)
         (match serr with
          | Some e =>
            addLog ErrorLevel ("Error while cleaning container: " +:+ e) ws
          | None => ws
          end)).
Proof.
  intros Hen Hjob Hc. split; [|exact (Executor_finally_spec ctx w1 c Hc)].
  intros w2 ce Hfin. unfold rc_Executor, If, Finally.
  erewrite bind_Ok by exact Hen. cbv beta iota.
  erewrite bind_Ok by exact Hjob. cbv beta iota.
  erewrite bind_Ok by exact Hfin.
  reflexivity.
Qed.

End Facts.

(** C4, as stated, fails: with reuse configured [stopJobContainer] removes
    nothing, the job container included; and on a cancelled context, after
    the container is removed, it returns the cancellation error and leaves
    both volumes. *)
Lemma stopJobContainer_keeps_container_or_volumes :
  (ReuseContainers (Config_ (rc (jobWorld true false None))) = true /\
   stopJobContainer (sim.simExternals None) Background (jobWorld true false None)
     = Ok (jobWorld true false None) None /\
   sim.containers (ext (jobWorld true false None)) = [sim.simName]) /\
  (ReuseContainers (Config_ (rc cancelledJobWorld)) = false /\
   Local (rc cancelledJobWorld) = false /\
   stopJobContainer (sim.simExternals None) cancelable
     cancelledJobWorld
     = Ok (withExt containerRemoved cancelledJobWorld)
          (Some "context canceled") /\
   sim.volumes containerRemoved = [sim.simName; sim.simName +:+ "-env"]).
Proof. repeat split; vm_compute; reflexivity. Qed.

(** Stop run twice in the simulation: the first run removes the container
    and both volumes, the second returns no error and changes nothing. *)
Example stopJobContainer_twice :
  exists w1,
    stopJobContainer (sim.simExternals None) Background
      (jobWorld false false None) = Ok w1 None /\
    sim.containers (ext w1) = [] /\ sim.volumes (ext w1) = [] /\
    exists w2,
      stopJobContainer (sim.simExternals None) Background w1 = Ok w2 None /\
      ext w2 = ext w1.
Proof.
  eexists. split; [vm_compute; reflexivity|].
  split; [reflexivity|]. split; [reflexivity|].
  eexists. split; [vm_compute; reflexivity | reflexivity].
Qed.

(** The "-env" volume is removed although the main volume is in use. *)
Example stopJobContainer_env_volume_after_failure :
  exists w1,
    stopJobContainer (sim.simExternals None) Background
      (sim.simWorld
         (sim.simRunContext false false (Some (sim.simContainer sim.simName)))
         (sim.mkSim [sim.simName] [sim.simName; sim.simName +:+ "-env"]
            [sim.simName] (Some ∅) None))
    = Ok w1 (Some "volume is in use: act-CI-build") /\
    sim.volumes (ext w1) = [sim.simName].
Proof. eexists. split; [vm_compute; reflexivity | reflexivity]. Qed.

Lemma stopJobContainer_spec_witness :
  stopJobContainer (sim.simExternals None) Background
    (jobWorld false false None) = Ok afterStop None /\
  stopJobContainer (sim.simExternals None) cancelable
    cancelledJobWorld
  = Ok (withExt containerRemoved cancelledJobWorld) (Some "context canceled").
Proof.
  split.
  - apply (proj1 (proj2 (proj2 (proj2 (proj2
             (stopJobContainer_spec (sim.simExternals None) Background
                (jobWorld false false None))))))
           (sim.simContainer sim.simName) containerRemoved
           afterMainVolume None afterStop None);
      vm_compute; reflexivity.
  - apply (proj1 (proj2 (proj2
             (stopJobContainer_spec (sim.simExternals None)
                cancelable cancelledJobWorld)))
           (sim.simContainer sim.simName) containerRemoved
           "context canceled");
      vm_compute; reflexivity.
Defined.

(** C3, as stated, fails: the step pipeline succeeds, stop succeeds, and
    the error of closing the container is returned as the job's result; it
    is not logged. *)
Lemma rc_Executor_close_error_returned :
  exists w',
    rc_Executor (sim.simExternals None) Background
      (jobWorld false true (Some "close: connection reset")) 
    = Ok w' (Some "close: connection reset") /\
    logs w'
    = [(InfoLevel, "Cleaning up container for job build");
       (DebugLevel, "  docker  docker volume rm act-CI-build");
       (DebugLevel, "  docker  docker volume rm act-CI-build-env")].
Proof. eexists. split; [vm_compute; reflexivity | reflexivity]. Qed.

(** A failure of the step pipeline is the job's result although closing
    the container fails too. *)
Lemma rc_Executor_teardown_witness :
  exists w',
    rc_Executor (sim.simExternals (Some "step failed")) Background
      (jobWorld false true (Some "close: connection reset"))
    = Ok w' (Some "step failed").
Proof.
  eexists.
  refine (proj1 (rc_Executor_teardown (sim.simExternals (Some "step failed"))
                   Background
                   (jobWorld false true (Some "close: connection reset"))
                   _ _ (Some "step failed") (sim.simContainer sim.simName)
                   ?[H1] ?[H2] ?[H3]) _ (Some "close: connection reset") ?[H4]).
  [H1]: { vm_compute. reflexivity. }
  [H2]: { vm_compute. reflexivity. }
  [H3]: { reflexivity. }
  vm_compute. reflexivity.
Defined.

End lifecycle_facts.

(* ===================================================================== *)
(** * The GitHub context: [getGithubContext] *)
(* ===================================================================== *)

Module github_facts.
Import common model container runner github_spec monad_facts.

Section Facts.
Context {Ext : Type}.
Variable X : Externals Ext.
Abbreviation World := (common.World (RunContext Ext) Ext).

(** C7 (amended): without a base context [getGithubContext] returns the
    computed defaults. With a base context that parses, it returns what
    decoding the base onto the context already filled from the run context
    leaves -- the fields the base does not set keep the values taken from
    the run context -- and the defaults are not applied, nothing is logged
    and nothing else changes. With a base context that fails to parse and
    leaves that context untouched, it returns the computed defaults exactly
    as if no base had been supplied. *)
Theorem getGithubContext_base (w : World) :
  (GithubContextBase (rc w) = None ->
   getGithubContext X w = computedDefaults X w) /\
  (forall base g,
     GithubContextBase (rc w) = Some base ->
     json_Unmarshal_GithubContext X base (initialGithubContext X (rc w))
       = (g, None) ->
     getGithubContext X w = Ok w g) /\
  (forall base e,
     GithubContextBase (rc w) = Some base ->
     json_Unmarshal_GithubContext X base (initialGithubContext X (rc w))
       = (initialGithubContext X (rc w), Some e) ->
     getGithubContext X w = computedDefaults X w).
Proof.
  unfold getGithubContext, computedDefaults. unfoldM.
  split; [|split].
  - intros ->. reflexivity.
  - intros base g -> ->. reflexivity.
  - intros base e -> ->. reflexivity.
Qed.

End Facts.

(** C7, as stated, fails: a base context that parses is decoded onto the
    context already filled from the run context, so what is returned is not
    the parsed snapshot alone: the workflow name and the event path come
    from the run context, the repository from the base. *)
Lemma getGithubContext_base_merges :
  exists g,
    getGithubContext (sim.simExternals None)
      (baseWorld (Some (sim.jsonObject [("repository", "octo/demo")])))
    = Ok (baseWorld (Some (sim.jsonObject [("repository", "octo/demo")]))) g /\
    Repository g = "octo/demo" /\
    Workflow g = "CI" /\
    EventPath g = "/var/run/act/workflow/event.json" /\
    sim.unmarshalGithubContext (sim.jsonObject [("repository", "octo/demo")])
      sim.zeroGithubContext
    = (mkGithubContext JEmpty "" "" "" "" "" "" "octo/demo" "" "" "" "" "" ""
         "" "" "" "" "" "" "" "" "", None) /\
    g <> fst (sim.unmarshalGithubContext
                (sim.jsonObject [("repository", "octo/demo")])
                sim.zeroGithubContext).
Proof.
  eexists. split; [vm_compute; reflexivity|].
  repeat split; try reflexivity. vm_compute. discriminate.
Qed.

Lemma getGithubContext_base_witness :
  GithubContextBase (rc (baseWorld (Some "not json"))) = Some "not json" /\
  getGithubContext (sim.simExternals None) (baseWorld (Some "not json"))
  = computedDefaults (sim.simExternals None) (baseWorld (Some "not json")).
Proof.
  split; [reflexivity|].
  refine (proj2 (proj2 (getGithubContext_base (sim.simExternals None)
                          (baseWorld (Some "not json"))))
            "not json" "invalid character looking for beginning of value"
            eq_refl _).
  vm_compute. reflexivity.
Defined.

End github_facts.

(* ===================================================================== *)
(** * Container names: character set, normal form and the parts of a name *)
(* ===================================================================== *)

Module charset_facts.
Import gostrings gostrings_facts naming naming_facts naming_spec.

Lemma allSafe_app a b : allSafe (a +:+ b) = allSafe a && allSafe b.
Proof.
  induction a as [|c a IH]; sapp; [reflexivity|].
  cbn [allSafe]. now rewrite IH, andb_assoc.
Qed.

Lemma replaceNonAlnumFrom_safe s :
  forall k, allSafe (replaceNonAlnumFrom k s) = true.
Proof.
  induction s as [|c t IH]; intros k; [reflexivity|].
  cbn [replaceNonAlnumFrom]. destruct k; [|apply IH].
  destruct (isAlnum c) eqn:E; cbn [allSafe]; rewrite IH.
  - unfold isSafe. now rewrite E.
  - reflexivity.
Qed.

Lemma replaceNonAlnum_id s : allSafe s = true -> replaceNonAlnumFrom 0 s = s.
Proof.
  induction s as [|c t IH]; [reflexivity|].
  cbn [allSafe]. intros [Hc Ht]%andb_true_iff.
  cbn [replaceNonAlnumFrom]. destruct (isAlnum c) eqn:E.
  - now rewrite IH.
  - unfold isSafe in Hc. rewrite E in Hc. cbn in Hc.
    apply isHyphen_true in Hc. subst c.
    change (runeWidth (String hyphen t) - 1)%nat with 0%nat. now rewrite IH.
Qed.

Lemma substring_safe m :
  forall s, allSafe s = true -> allSafe (String.substring 0 m s) = true.
Proof.
  induction m as [|m IH]; intros [|c s]; cbn; try reflexivity.
  intros [Hc Hs]%andb_true_iff. now rewrite Hc, IH.
Qed.

Lemma substring_prefix m :
  forall s, exists rest, s = String.substring 0 m s +:+ rest.
Proof.
  induction m as [|m IH]; intros [|c s]; cbn [String.substring].
  - now exists EmptyString.
  - exists (String c s). now sapp.
  - now exists EmptyString.
  - destruct (IH s) as [rest Hr]. exists rest. sapp. now rewrite <- Hr.
Qed.

Lemma substring_length_min m :
  forall s,
    String.length (String.substring 0 m s) = Nat.min m (String.length s).
Proof.
  induction m as [|m IH]; intros [|c s]; cbn; try reflexivity.
  now rewrite IH.
Qed.

Lemma trimToLen_safe s l : allSafe s = true -> allSafe (trimToLen s l) = true.
Proof.
  intros H. unfold trimToLen.
  destruct (_ >? _); [now apply substring_safe | exact H].
Qed.

Lemma allDigits_safe d : allDigits d = true -> allSafe d = true.
Proof.
  induction d as [|c d IH]; [reflexivity|]. cbn [allDigits allSafe].
  intros [Hc Hd]%andb_true_iff. rewrite IH by exact Hd.
  unfold isSafe, isAlnum. unfold isDigit in Hc. rewrite Hc.
  now rewrite !orb_true_r.
Qed.

Lemma cutElems_safe L p : Forall (fun e => allSafe e = true) (cutElems L p).
Proof.
  unfold cutElems. destruct (findMatrixSuffix p) as [sfx|] eqn:E.
  - destruct (findMatrixSuffix_shape _ _ E) as (d & -> & _ & Hd).
    repeat constructor.
    + apply trimToLen_safe, replaceNonAlnumFrom_safe.
    + cbn [allSafe]. now rewrite allDigits_safe.
  - repeat constructor. apply trimToLen_safe, replaceNonAlnumFrom_safe.
Qed.

Lemma nameElems_safe L parts :
  Forall (fun e => allSafe e = true) (nameElems L parts).
Proof.
  induction parts as [|p rest IH]; [constructor|].
  destruct rest as [|q rest].
  - repeat constructor. apply replaceNonAlnumFrom_safe.
  - rewrite nameElems_cons by discriminate.
    apply Forall_app. split; [apply cutElems_safe | exact IH].
Qed.

Lemma Join_safe l :
  Forall (fun e => allSafe e = true) l -> allSafe (Join l "-") = true.
Proof.
  induction 1 as [|x l Hx Hl IH]; [reflexivity|].
  destruct l as [|y l]; [exact Hx|].
  rewrite Join_cons by discriminate.
  now rewrite !allSafe_app, Hx, IH.
Qed.

Lemma trimLeft_safe s :
  allSafe s = true -> allSafe (trimLeftByte s hyphen) = true.
Proof.
  induction s as [|a t IH]; [reflexivity|]. intros H.
  cbn [trimLeftByte]. destruct (Ascii.eqb a hyphen); [|exact H].
  cbn [allSafe] in H. apply andb_true_iff in H as [_ H]. now apply IH.
Qed.

Lemma trimRight_safe s :
  allSafe s = true -> allSafe (trimRightByte s hyphen) = true.
Proof.
  induction s as [|a t IH]; [reflexivity|]. cbn [allSafe].
  intros [Ha Ht]%andb_true_iff. specialize (IH Ht).
  cbn [trimRightByte]. destruct (trimRightByte t hyphen) as [|b r].
  - destruct (Ascii.eqb a hyphen); [reflexivity|].
    cbn [allSafe]. now rewrite Ha.
  - cbn [allSafe] in *. now rewrite Ha.
Qed.

Lemma collapse_safe s : allSafe s = true -> allSafe (collapse s) = true.
Proof.
  induction s as [|a|a b t IH1 IH2] using string_ind2; try (intros H; exact H).
  rewrite collapse_cons2. cbn [allSafe].
  intros [Ha [Hb Ht]%andb_true_iff]%andb_true_iff.
  destruct (isHyphen a && isHyphen b).
  - cbn [allSafe]. now rewrite IH1.
  - cbn [allSafe]. rewrite Ha. cbn [andb]. apply IH2.
    cbn [allSafe]. now rewrite Hb, Ht.
Qed.

Lemma first_alnum s :
  allSafe s = true -> startsWithHyphen s = false -> s <> EmptyString ->
  alnumAt (firstByte s) = true.
Proof.
  destruct s as [|a t]; [congruence|]. cbn. unfold isSafe.
  intros [Ha _]%andb_true_iff Hh _. rewrite Hh, orb_false_r in Ha. exact Ha.
Qed.

Lemma last_alnum s :
  allSafe s = true -> endsWithByte s hyphen = false -> s <> EmptyString ->
  alnumAt (lastByte s) = true.
Proof.
  induction s as [|a t IH]; [congruence|]. intros Hs He _.
  cbn [allSafe] in Hs. apply andb_true_iff in Hs as [Ha Ht].
  rewrite endsWithByte_cons in He. destruct t as [|b t].
  - cbn. unfold isSafe in Ha. unfold isHyphen in Ha.
    rewrite He, orb_false_r in Ha. exact Ha.
  - change (lastByte (String a (String b t))) with (lastByte (String b t)).
    apply IH; [exact Ht | exact He | discriminate].
Qed.

Lemma trimRight_id s :
  endsWithByte s hyphen = false -> trimRightByte s hyphen = s.
Proof.
  induction s as [|a t IH]; [reflexivity|].
  rewrite endsWithByte_cons. cbn [trimRightByte]. destruct t as [|b t].
  - intros ->. reflexivity.
  - intros H. now rewrite (IH H).
Qed.

Lemma trimLeft_id s :
  startsWithHyphen s = false -> trimLeftByte s hyphen = s.
Proof.
  destruct s as [|a t]; [reflexivity|]. cbn. unfold isHyphen.
  now intros ->.
Qed.

Lemma collapse_id s : Contains s "--" = false -> collapse s = s.
Proof.
  induction s as [|a|a b t IH1 IH2] using string_ind2; try reflexivity.
  rewrite Contains_cons. intros [Hp Hc]%orb_false_iff.
  rewrite collapse_cons2.
  cbn [HasPrefix] in Hp. rewrite andb_true_r in Hp.
  change (Ascii.eqb a "-") with (isHyphen a) in Hp.
  change (Ascii.eqb b "-") with (isHyphen b) in Hp.
  rewrite Hp. now rewrite (IH2 Hc).
Qed.

Lemma allDigits_app_hyphen p d : allDigits (p +:+ String hyphen d) = false.
Proof.
  induction p as [|c p IH]; sapp; [reflexivity|].
  cbn [allDigits]. now rewrite IH, andb_false_r.
Qed.

Lemma app_not_nil p c d : p +:+ String c d <> EmptyString.
Proof. destruct p; sapp; discriminate. Qed.

Lemma createContainerName_cons p rest :
  createContainerName (p :: rest)
  = Some (collapse
            (Trim (Join (nameElems (partLenOf (p :: rest)) (p :: rest)) "-")
               hyphen)).
Proof. unfold createContainerName. now rewrite ReplaceAll_collapse. Qed.

(** X1: every byte of a container name is a letter, a digit or a hyphen,
    and a name that is not empty begins and ends with a letter or a digit.
    (An empty name is possible: the parts may hold no letter and no
    digit.) *)
Theorem createContainerName_charset (parts : list string) (name : string) :
  createContainerName parts = Some name ->
  allSafe name = true /\
  (name <> EmptyString ->
   alnumAt (firstByte name) = true /\ alnumAt (lastByte name) = true).
Proof.
  destruct parts as [|p rest]; [discriminate|].
  rewrite createContainerName_cons.
  set (J := Join _ _). intros H.
  assert (E : name = collapse (Trim J hyphen)) by congruence.
  rewrite E. clear H E.
  assert (HJ : allSafe J = true) by apply Join_safe, nameElems_safe.
  assert (HT : allSafe (Trim J hyphen) = true)
    by (unfold Trim; apply trimLeft_safe, trimRight_safe, HJ).
  pose proof (collapse_safe _ HT) as HC.
  destruct (Trim_no_boundary J) as [Hs He].
  split; [exact HC|]. intros Hne. split.
  - apply first_alnum; [exact HC | now rewrite collapse_starts | exact Hne].
  - apply last_alnum; [exact HC | now rewrite collapse_ends | exact Hne].
Qed.

Lemma createContainerName_charset_witness :
  createContainerName ["act"; "CI/build (ubuntu-latest, 16)"]
    = Some "act-CI-build-ubuntu-latest-16" /\
  allSafe "act-CI-build-ubuntu-latest-16" = true /\
  ("act-CI-build-ubuntu-latest-16" <> EmptyString ->
   alnumAt (firstByte "act-CI-build-ubuntu-latest-16") = true /\
   alnumAt (lastByte "act-CI-build-ubuntu-latest-16") = true).
Proof.
  split; [reflexivity|].
  apply (createContainerName_charset ["act"; "CI/build (ubuntu-latest, 16)"]).
  reflexivity.
Defined.

(** X2: a name that is already a container name in normal form -- bytes
    of [a-zA-Z0-9-] only, no hyphen at either end, no two hyphens in a
    row -- is returned as it is when it is the only part. *)
Theorem createContainerName_fixed (name : string) :
  allSafe name = true ->
  HasPrefix name "-" = false ->
  endsWithByte name hyphen = false ->
  Contains name "--" = false ->
  createContainerName [name] = Some name.
Proof.
  intros Hs Hp He Hc. rewrite createContainerName_cons. cbn [nameElems].
  unfold replaceNonAlnum. rewrite (replaceNonAlnum_id _ Hs).
  change (Join [name] "-") with name. unfold Trim.
  rewrite (trimRight_id _ He).
  rewrite HasPrefix_hyphen in Hp. rewrite (trimLeft_id _ Hp).
  now rewrite (collapse_id _ Hc).
Qed.

Lemma createContainerName_fixed_witness :
  createContainerName ["act-CI-build-3"] = Some "act-CI-build-3".
Proof.
  apply (createContainerName_fixed "act-CI-build-3"); reflexivity.
Defined.

(** X3: [trimToLen(s, l)] is the prefix of [s] of [min(len(s), max(0, l))]
    bytes; a negative [l] gives the empty string. *)
Theorem trimToLen_prefix (s : string) (l : Z) :
  (exists rest, s = trimToLen s l +:+ rest) /\
  Z.of_nat (String.length (trimToLen s l))
    = Z.min (Z.of_nat (String.length s)) (Z.max 0 l).
Proof.
  unfold trimToLen.
  set (l' := if l <? 0 then 0 else l).
  assert (Hl : l' = Z.max 0 l) by (unfold l'; destruct (Z.ltb_spec l 0); lia).
  destruct (Z.gtb_spec (Z.of_nat (String.length s)) l') as [H|H].
  - split; [apply substring_prefix|].
    rewrite substring_length_min. lia.
  - split; [exists EmptyString; now rewrite app_nil_r_s | lia].
Qed.

(** X4: [findMatrixSuffix] finds a suffix exactly when the part ends in a
    hyphen followed by one or more digits, and what it finds is that
    hyphen and those digits, nothing before them. *)
Theorem findMatrixSuffix_iff (part sfx : string) :
  findMatrixSuffix part = Some sfx <->
  exists pre d,
    part = pre +:+ String hyphen d /\ sfx = String hyphen d /\
    d <> EmptyString /\ allDigits d = true.
Proof.
  split.
  - induction part as [|c t IH]; [discriminate|].
    cbn [findMatrixSuffix].
    destruct (isHyphen c && negb (String.eqb t "") && allDigits t) eqn:E.
    + intros [= <-]. apply andb_true_iff in E as [E Hd].
      apply andb_true_iff in E as [Hc Hn].
      apply isHyphen_true in Hc. subst c. exists EmptyString, t.
      repeat split; [|exact Hd].
      apply negb_true_iff, String.eqb_neq in Hn. exact Hn.
    + intros H. destruct (IH H) as (pre & d & -> & -> & Hn & Hd).
      exists (String c pre), d. now sapp.
  - intros (pre & d & -> & -> & Hn & Hd).
    induction pre as [|c pre IH]; sapp.
    + cbn [findMatrixSuffix]. rewrite Hd.
      apply String.eqb_neq in Hn. rewrite Hn. reflexivity.
    + cbn [findMatrixSuffix]. rewrite allDigits_app_hyphen, andb_false_r.
      exact IH.
Qed.

(** X5: the name of the job's container always begins with [act], whatever
    the names of the workflow and of the job are; it is never empty. *)
Theorem jobContainerName_prefix {Ext} (r : runner.RunContext Ext) :
  HasPrefix (runner.jobContainerName r) "act" = true.
Proof.
  unfold runner.jobContainerName. rewrite createContainerName_cons.
  set (p := runner.String_ r).
  change (nameElems (partLenOf ["act"; p]) ["act"; p])
    with ["act"; replaceNonAlnum p].
  change (Join ["act"; replaceNonAlnum p] "-")
    with ("act" +:+ "-" +:+ replaceNonAlnum p).
  unfold Trim. sapp.
  rewrite !trimRight_cons_nonhyphen by reflexivity.
  cbn [trimLeftByte].
  change (Ascii.eqb "a" hyphen) with false. cbv iota.
  rewrite !collapse_cons_nonhyphen by reflexivity.
  reflexivity.
Qed.

End charset_facts.

(* ===================================================================== *)
(** * Merged maps, nested lookups and the ids of composite steps *)
(* ===================================================================== *)

Module merge_facts.
Import common model container runner env_facts.

Lemma mergeMaps_snoc (maps : list (gmap string string)) m :
  mergeMaps (maps ++ [m]) = m ∪ mergeMaps maps.
Proof.
  unfold mergeMaps. rewrite fold_left_app. cbn [fold_left].
  apply map_fold_insert_union.
Qed.

(** X6: the value [mergeMaps] gives a key is the one of the last map of the
    argument list that has the key, for any number of maps; a key that no
    map has is absent. *)
Theorem mergeMaps_last_wins (maps : list (gmap string string)) (k v : string) :
  mergeMaps maps !! k = Some v <->
  exists (i : nat) m,
    maps !! i = Some m /\ m !! k = Some v /\
    forall (j : nat) m', (i < j)%nat -> maps !! j = Some m' -> m' !! k = None.
Proof.
  revert v. induction maps as [|m maps IH] using rev_ind; intros v.
  - split; [intros H; discriminate H | intros (i & m & H & _); discriminate H].
  - rewrite mergeMaps_snoc, lookup_union_Some_raw. split.
    + intros [Hm | [Hm Hrest]].
      * exists (length maps), m. split; [apply list_lookup_middle; reflexivity|].
        split; [exact Hm|]. intros j m' Hj Hl.
        apply lookup_lt_Some in Hl. rewrite length_app in Hl. cbn in Hl. lia.
      * apply IH in Hrest as (i & m0 & Hi & Hk & Hlater).
        exists i, m0. split; [now apply lookup_app_l_Some|].
        split; [exact Hk|]. intros j m' Hj Hl.
        apply lookup_snoc_Some in Hl as [[_ Hl] | [_ <-]];
          [now apply (Hlater j) | exact Hm].
    + intros (i & m0 & Hi & Hk & Hlater).
      apply lookup_snoc_Some in Hi as [[Hlt Hi] | [-> <-]].
      * right. split.
        -- apply (Hlater (length maps)); [exact Hlt|].
           apply list_lookup_middle; reflexivity.
        -- apply IH. exists i, m0. split; [exact Hi|]. split; [exact Hk|].
           intros j m' Hj Hl. apply (Hlater j); [exact Hj|].
           now apply lookup_app_l_Some.
      * now left.
Qed.

End merge_facts.

Module lookup_facts.
Import common model container runner.

(** X7: looking a path up goes through the objects one key after the
    other: the lookup of a path in two non-empty pieces is the lookup of
    the second piece in the object found under the first, and nil when
    what is found there is not an object. *)
Theorem nestedMapLookup_app (m : JFields) (ks1 ks2 : list string) :
  ks1 <> [] -> ks2 <> [] ->
  nestedMapLookup m (ks1 ++ ks2)
  = match nestedMapLookup m ks1 with
    | JObject m' => nestedMapLookup m' ks2
    | _ => JNil
    end.
Proof.
  intros H1 H2. revert m. induction ks1 as [|k ks1 IH]; [congruence|].
  intros m. destruct ks1 as [|k' ks1].
  - destruct ks2 as [|k2 ks2]; [congruence|].
    cbn [app nestedMapLookup]. destruct (mapLookup m k) as [[]|]; reflexivity.
  - change ((k :: k' :: ks1) ++ ks2) with (k :: ((k' :: ks1) ++ ks2)).
    change (nestedMapLookup m (k :: ((k' :: ks1) ++ ks2)))
      with (match mapLookup m k with
            | None => JNil
            | Some rval =>
              match rval with
              | JObject m' => nestedMapLookup m' ((k' :: ks1) ++ ks2)
              | _ => JNil
              end
            end).
    change (nestedMapLookup m (k :: k' :: ks1))
      with (match mapLookup m k with
            | None => JNil
            | Some rval =>
              match rval with
              | JObject m' => nestedMapLookup m' (k' :: ks1)
              | _ => JNil
              end
            end).
    destruct (mapLookup m k) as [[| |m'|]|]; try reflexivity.
    apply IH. discriminate.
Qed.

Lemma nestedMapLookup_app_witness :
  asString
    (nestedMapLookup
       (JField "pull_request"
          (JObject (JField "base" (JObject (JField "ref" (JString "main") JEmpty))
                      JEmpty)) JEmpty)
       (["pull_request"] ++ ["base"; "ref"]))
  = "main".
Proof.
  rewrite (nestedMapLookup_app _ ["pull_request"] ["base"; "ref"]);
    [reflexivity | discriminate | discriminate].
Defined.

End lookup_facts.

Module ids_facts.
Import common model container runner composite_spec composite_facts gostrings.

Lemma Sprintf_d_inj i j : Sprintf_d i = Sprintf_d j -> i = j.
Proof.
  unfold Sprintf_d. intros H. apply DecimalNat.Unsigned.to_uint_inj.
  apply (f_equal NilEmpty.uint_of_string) in H.
  rewrite !NilEmpty.usu in H. congruence.
Qed.

Lemma Sprintf_d_nonempty i : Sprintf_d i <> EmptyString.
Proof.
  unfold Sprintf_d. intros H.
  apply (f_equal NilEmpty.uint_of_string) in H.
  rewrite NilEmpty.usu in H. cbn in H.
  assert (E : Nat.to_uint i = Decimal.Nil) by congruence.
  pose proof (DecimalNat.Unsigned.of_to i) as Hi. rewrite E in Hi. cbn in Hi. subst i.
  discriminate E.
Qed.

(** X8: after the ids are assigned no step of a composite action is without
    an id; a step that declares an id is left as it is; and two steps
    without a declared id get different ids. (A positional id can still
    equal an id that another step declares.) *)
Theorem assignIDs_ids (steps : list Step) :
  length (assignIDs 0 steps) = length steps /\
  (forall (i : nat) step',
     assignIDs 0 steps !! i = Some step' -> ID step' <> EmptyString) /\
  (forall (i : nat) step,
     steps !! i = Some step -> ID step <> EmptyString ->
     assignIDs 0 steps !! i = Some step) /\
  (forall (i j : nat) si sj,
     steps !! i = Some si -> steps !! j = Some sj ->
     ID si = EmptyString -> ID sj = EmptyString -> i <> j ->
     exists si' sj',
       assignIDs 0 steps !! i = Some si' /\
       assignIDs 0 steps !! j = Some sj' /\
       ID si' <> ID sj').
Proof.
  split; [apply assignIDs_length|]. split; [|split].
  - intros i step' H.
    assert (Hlt : (i < length steps)%nat).
    { rewrite <- (assignIDs_length steps 0%nat). now apply lookup_lt_Some in H. }
    apply lookup_lt_is_Some in Hlt as [step Hs].
    rewrite (assignIDs_lookup steps 0%nat i step Hs) in H.
    injection H as <-. unfold withPositionalID.
    destruct (String.eqb (ID step) "") eqn:E.
    + cbn. apply Sprintf_d_nonempty.
    + now apply String.eqb_neq in E.
  - intros i step Hs Hid.
    rewrite (assignIDs_lookup steps 0%nat i step Hs). unfold withPositionalID.
    apply String.eqb_neq in Hid. now rewrite Hid.
  - intros i j si sj Hi Hj Ei Ej Hne.
    exists (withPositionalID (0 + i) si), (withPositionalID (0 + j) sj).
    split; [now apply assignIDs_lookup|]. split; [now apply assignIDs_lookup|].
    unfold withPositionalID. rewrite Ei, Ej. cbn.
    intros H. apply Sprintf_d_inj in H. lia.
Qed.

End ids_facts.

(* ===================================================================== *)
(** * Composite actions: where a returned error comes from *)
(* ===================================================================== *)

Module composite_origin_facts.
Import common model container runner step_spec composite_spec monad_facts
  composite_facts runner_spec.

Section Facts.
Context {Ext : Type}.
Variable X : Externals Ext.
Abbreviation World := (common.World (RunContext Ext) Ext).

Lemma compositeRun_origin ctx steps :
  forall recorded (w w' : World) e,
    compositeRun X ctx steps recorded w = Ok w' (Some e) ->
    recorded = Some e \/
    exists run,
      run ∈ stepRuns X ctx steps w /\
      (runErr run = Some e \/ observedCancellation ctx (runTo run) = Some e).
Proof.
  induction steps as [|s steps IH]; intros recorded w w' e H;
    cbn [compositeRun stepRuns] in *.
  - injection H as _ ->. now left.
  - destruct (newStepExecutor X s ctx w) as [w1 err|msg]; [|discriminate].
    destruct (observedCancellation ctx w1) as [c|] eqn:Hc.
    + injection H as _ ->. right. exists (mkStepRun s w w1 err).
      split; [apply list_elem_of_here | now right].
    + destruct (IH _ _ _ _ H) as [Hrec | (run & Hin & Hrun)].
      * destruct err as [e'|]; [|now left].
        right. exists (mkStepRun s w w1 (Some e')).
        split; [apply list_elem_of_here | now left].
      * right. exists run.
        split; [now apply list_elem_of_further | exact Hrun].
Qed.

Lemma stepRuns_step ctx steps (w : World) run :
  run ∈ stepRuns X ctx steps w -> runStep run ∈ steps.
Proof.
  intros H. pose proof (stepRuns_prefix X ctx steps w) as [k Hk].
  rewrite Hk. apply elem_of_app. left.
  apply list_elem_of_fmap. now exists run.
Qed.

Lemma stepRuns_head ctx steps (w : World) run rest :
  stepRuns X ctx steps w = run :: rest -> runFrom run = w.
Proof.
  destruct steps as [|s steps]; cbn [stepRuns]; [discriminate|].
  destruct (newStepExecutor X s ctx w); [|discriminate].
  now intros [= <- _].
Qed.

Lemma stepRuns_chain ctx steps :
  forall (w : World) pre run1 run2 post,
    stepRuns X ctx steps w = pre ++ run1 :: run2 :: post ->
    observedCancellation ctx (runTo run1) = None /\
    runFrom run2 = worldAfter ctx (runErr run1) (runTo run1).
Proof.
  induction steps as [|s steps IH]; intros w pre run1 run2 post H;
    cbn [stepRuns] in H.
  - now destruct pre.
  - destruct (newStepExecutor X s ctx w) as [w1 err|msg];
      [|now destruct pre].
    destruct pre as [|p pre]; cbn [app] in H.
    + injection H as <- H. cbn [runTo runErr].
      destruct (observedCancellation ctx w1); [discriminate|].
      split; [reflexivity|]. exact (stepRuns_head _ _ _ _ _ H).
    + injection H as _ H.
      destruct (observedCancellation ctx w1); [now destruct pre|].
      exact (IH _ _ _ _ _ H).
Qed.

(** X9: an error that [CompositeExecutor] returns is never of its own
    making. It comes from one of the runs of the steps' executors that
    make up this execution: it is the error that run returned, or the
    cancellation error observed in the world that run left. The runs are
    those of the action's steps: the first starts from the world
    [CompositeExecutor] is run from, and each next one from the world the
    previous one left, after the error recorded there is logged. With no
    step at all [CompositeExecutor] returns no error and changes nothing. *)
Theorem CompositeExecutor_error_origin
    (r : RunContext Ext) action ctx (w : World) :
  Composite r = Some action ->
  (forall w' e,
     CompositeExecutor X r ctx w = Ok w' (Some e) ->
     exists run,
       run ∈ stepRuns X ctx (assignIDs 0 (Runs_Steps action)) w /\
       runStep run ∈ assignIDs 0 (Runs_Steps action) /\
       newStepExecutor X (runStep run) ctx (runFrom run)
       = Ok (runTo run) (runErr run) /\
       (runErr run = Some e \/ observedCancellation ctx (runTo run) = Some e)) /\
  (forall run rest,
     stepRuns X ctx (assignIDs 0 (Runs_Steps action)) w = run :: rest ->
     runFrom run = w) /\
  (forall pre run1 run2 post,
     stepRuns X ctx (assignIDs 0 (Runs_Steps action)) w
     = pre ++ run1 :: run2 :: post ->
     observedCancellation ctx (runTo run1) = None /\
     runFrom run2 = worldAfter ctx (runErr run1) (runTo run1)) /\
  (Runs_Steps action = [] -> CompositeExecutor X r ctx w = Ok w None).
Proof.
  intros Hc. split; [|split; [|split]].
  - intros w' e H.
    rewrite (CompositeExecutor_compositeRun X r action ctx w Hc) in H.
    destruct (compositeRun_origin ctx _ _ _ _ _ H)
      as [Hrec | (run & Hin & Hrun)]; [discriminate|].
    exists run. split; [exact Hin|].
    split; [exact (stepRuns_step ctx _ w run Hin)|].
    split; [exact (stepRuns_real X ctx _ w run Hin) | exact Hrun].
  - apply stepRuns_head.
  - apply stepRuns_chain.
  - intros Hs. rewrite (CompositeExecutor_compositeRun X r action ctx w Hc), Hs.
    reflexivity.
Qed.

End Facts.

Lemma CompositeExecutor_error_origin_witness :
  exists run,
    run ∈ stepRuns (sim.simExternals None) Background
            (assignIDs 0
               [mkStep "" "" "exit 1" false; mkStep "" "" "make" false])
            (stepWorld (Some ∅)) /\
    (runErr run = Some "exit status 1" \/
     observedCancellation Background (runTo run) = Some "exit status 1").
Proof.
  assert (Hrun : exists w',
            CompositeExecutor (sim.simExternals None)
              (compositeRunContext
                 [mkStep "" "" "exit 1" false; mkStep "" "" "make" false])
              Background (stepWorld (Some ∅))
            = Ok w' (Some "exit status 1"))
    by (eexists; vm_compute; reflexivity).
  destruct Hrun as [w' Hrun].
  destruct (proj1 (CompositeExecutor_error_origin (sim.simExternals None)
                     (compositeRunContext
                        [mkStep "" "" "exit 1" false; mkStep "" "" "make" false])
                     (mkAction
                        [mkStep "" "" "exit 1" false; mkStep "" "" "make" false])
                     Background (stepWorld (Some ∅)) eq_refl)
              w' "exit status 1" Hrun)
    as (run & Hin & _ & _ & Hor).
  exists run. split; [exact Hin | exact Hor].
Defined.

End composite_origin_facts.

(* ===================================================================== *)
(** * The step executor: the returns before the body *)
(* ===================================================================== *)

Module step_early_facts.
Import common model container runner runner_spec step_spec step_early_spec
  monad_facts step_facts env_facts.

Section Facts.
Context {Ext : Type}.
Variable X : Externals Ext.
Abbreviation World := (common.World (RunContext Ext) Ext).

(** [upToBody] from the evaluation of the step's condition on. *)
Lemma upToBody_started step ctx (w : World) :
  upToBody X step ctx w
  = ('(runStep, err) ← sc_isEnabled X (mkStepContext step ∅) ctx;
     match err with
     | Some e =>
       updateStepResult (setConclusion StepStatusFailure);;
       updateStepResult (setOutcome StepStatusFailure);;
       mret (EarlyReturn (Some e))
     | None =>
       if negb runStep then
         logf DebugLevel
           ("Skipping step '" +:+ Step_String step +:+ "' due to '"
            +:+ If_Value step +:+ "'");;
         updateStepResult (setConclusion StepStatusSkipped);;
         updateStepResult (setOutcome StepStatusSkipped);;
         mret (EarlyReturn None)
       else
         '(env, exprEval, err) ← sc_setupEnv X (mkStepContext step ∅) ctx;
         match err with
         | Some e => mret (EarlyReturn (Some e))
         | None =>
           modifyRc (setExprEval exprEval);;
           logf InfoLevel ("⭐  Run " +:+ Step_String step);;
           r ← getRc;
           let actPath := GetActPath r in
           let outputFileCommand := path_Join X "workflow" "outputcmd.txt" in
           let stateFileCommand := path_Join X "workflow" "statecmd.txt" in
           let sc :=
             mkStepContext step
               (<["GITHUB_STATE" := path_Join X actPath stateFileCommand]>
                  (<["GITHUB_OUTPUT" := path_Join X actPath outputFileCommand]>
                     env)) in
           match JobContainer r with
           | None => panic nilDeref
           | Some c =>
             onExt (Copy c actPath
                      [mkFileEntry outputFileCommand mode0666 "";
                       mkFileEntry stateFileCommand mode0666 ""] ctx);;
             err ← sc_Executor X sc ctx;
             mret (BodyReturned (path_Join X actPath outputFileCommand) err)
           end
         end
     end) (started step w).
Proof. reflexivity. Qed.

(** [newStepExecutor] when the evaluation of the condition fails. *)
Lemma condition_error_run step ctx (w w1 : World) runStep e res0 :
  sc_isEnabled X (mkStepContext step ∅) ctx (started step w)
    = Ok w1 (runStep, Some e) ->
  CurrentStep (rc w1) = ID step ->
  StepResults (rc w1) !! ID step = Some res0 ->
  newStepExecutor X step ctx w
  = Ok (withRc
          (setStepResults
             (<[ID step := setOutcome StepStatusFailure
                             (setConclusion StepStatusFailure res0)]>
                (StepResults (rc w1)))
             (rc w1)) w1)
       (Some e).
Proof.
  intros Hen Hcur Hres.
  rewrite newStepExecutor_split.
  erewrite mbind_Ok.
  2:{ rewrite upToBody_started.
      erewrite mbind_Ok by exact Hen. cbv beta iota.
      erewrite mbind_Ok
        by (apply updateStepResult_ok; cbn; rewrite Hcur; exact Hres).
      erewrite mbind_Ok
        by (apply updateStepResult_ok; cbn; apply lookup_insert_eq).
      reflexivity. }
  cbn. rewrite Hcur, insert_insert_eq. reflexivity.
Qed.

(** [newStepExecutor] when the set-up of the environment fails. *)
Lemma setup_error_run step ctx (w w1 w2 : World) env exprEval e :
  sc_isEnabled X (mkStepContext step ∅) ctx (started step w)
    = Ok w1 (true, None) ->
  sc_setupEnv X (mkStepContext step ∅) ctx w1
    = Ok w2 (env, exprEval, Some e) ->
  newStepExecutor X step ctx w = Ok w2 (Some e).
Proof.
  intros Hen Hsetup.
  rewrite newStepExecutor_split.
  erewrite mbind_Ok.
  2:{ rewrite upToBody_started.
      erewrite mbind_Ok by exact Hen. cbv beta iota. cbn [negb].
      erewrite mbind_Ok by exact Hsetup. reflexivity. }
  reflexivity.
Qed.

(** X10: a step whose condition evaluates to false is skipped: the executor
    returns no error, the step's conclusion and outcome are both Skipped,
    and after the condition nothing is run on the substrate -- no file is
    copied, the body is not run, no output is read back. *)
Theorem newStepExecutor_skipped step ctx (w w1 : World) :
  sc_isEnabled X (mkStepContext step ∅) ctx (started step w)
    = Ok w1 (false, None) ->
  keepsStep step w1 ->
  exists w2 res,
    newStepExecutor X step ctx w = Ok w2 None /\
    StepResults (rc w2) !! ID step = Some res /\
    Conclusion res = StepStatusSkipped /\
    Outcome res = StepStatusSkipped /\
    ext w2 = ext w1 /\
    logs w2
    = logs w1 ++ [(DebugLevel,
                   "Skipping step '" +:+ Step_String step +:+ "' due to '"
                   +:+ If_Value step +:+ "'")].
Proof.
  intros Hen [Hcur [res0 Hres]].
  rewrite newStepExecutor_split.
  erewrite mbind_Ok.
  2:{ rewrite upToBody_started.
      erewrite mbind_Ok by exact Hen. cbv beta iota. cbn [negb].
      erewrite mbind_Ok by reflexivity.
      erewrite mbind_Ok
        by (apply updateStepResult_ok; cbn; rewrite Hcur; exact Hres).
      erewrite mbind_Ok
        by (apply updateStepResult_ok; cbn; apply lookup_insert_eq).
      reflexivity. }
  cbn. eexists _, _. split; [reflexivity|]. cbn. rewrite Hcur.
  split; [apply lookup_insert_eq|]. repeat split.
Qed.

(** X11: when the evaluation of a step's condition fails, the executor
    returns that error and records Failure as conclusion and as outcome,
    whether or not the step has continue-on-error; nothing is run on the
    substrate after the condition. *)
Theorem newStepExecutor_condition_error step ctx (w w1 : World) runStep e :
  sc_isEnabled X (mkStepContext step ∅) ctx (started step w)
    = Ok w1 (runStep, Some e) ->
  keepsStep step w1 ->
  exists w2 res,
    newStepExecutor X step ctx w = Ok w2 (Some e) /\
    StepResults (rc w2) !! ID step = Some res /\
    Conclusion res = StepStatusFailure /\
    Outcome res = StepStatusFailure /\
    ext w2 = ext w1 /\ logs w2 = logs w1.
Proof.
  intros Hen [Hcur [res0 Hres]].
  rewrite (condition_error_run step ctx w w1 runStep e res0 Hen Hcur Hres).
  eexists _, _. split; [reflexivity|]. cbn.
  split; [apply lookup_insert_eq|]. repeat split.
Qed.

(** X12: when the evaluation of a step's condition fails, the status of the
    job that [getJobContext] reports afterwards is [failure], whatever
    the other steps did and whether or not the step has
    continue-on-error. *)
Theorem newStepExecutor_condition_error_status
    step ctx (w w1 : World) runStep e :
  sc_isEnabled X (mkStepContext step ∅) ctx (started step w)
    = Ok w1 (runStep, Some e) ->
  keepsStep step w1 ->
  exists w2,
    newStepExecutor X step ctx w = Ok w2 (Some e) /\
    Status (getJobContext (rc w2)) = "failure".
Proof.
  intros Hen [Hcur [res0 Hres]].
  rewrite (condition_error_run step ctx w w1 runStep e res0 Hen Hcur Hres).
  eexists. split; [reflexivity|].
  apply getJobContext_failure. eexists (ID step), _. cbn.
  split; [apply lookup_insert_eq | reflexivity].
Qed.

(** X13: when setting up the step's environment fails, the executor returns
    that error at once and writes nothing more: the step's result is still
    the fresh one, so if the step runner left it alone the step is
    recorded with conclusion and outcome Success although it returned an
    error. *)
Theorem newStepExecutor_setup_error
    step ctx (w w1 w2 : World) env exprEval e :
  sc_isEnabled X (mkStepContext step ∅) ctx (started step w)
    = Ok w1 (true, None) ->
  sc_setupEnv X (mkStepContext step ∅) ctx w1
    = Ok w2 (env, exprEval, Some e) ->
  newStepExecutor X step ctx w = Ok w2 (Some e) /\
  (StepResults (rc w2) !! ID step
     = StepResults (rc (started step w)) !! ID step ->
   exists res,
     StepResults (rc w2) !! ID step = Some res /\
     Conclusion res = StepStatusSuccess /\
     Outcome res = StepStatusSuccess).
Proof.
  intros Hen Hsetup. split.
  - exact (setup_error_run step ctx w w1 w2 env exprEval e Hen Hsetup).
  - intros ->. eexists. split; [cbn; apply lookup_insert_eq|].
    split; reflexivity.
Qed.

(** X14: a failure of the set-up of a step's environment does not show in
    the status of the job: when no step had failed before and the step
    runner left the recorded results alone, [getJobContext] still reports
    [success] after the executor has returned the error. *)
Theorem newStepExecutor_setup_error_status
    step ctx (w w1 w2 : World) env exprEval e :
  sc_isEnabled X (mkStepContext step ∅) ctx (started step w)
    = Ok w1 (true, None) ->
  sc_setupEnv X (mkStepContext step ∅) ctx w1
    = Ok w2 (env, exprEval, Some e) ->
  StepResults (rc w2) = StepResults (rc (started step w)) ->
  ~ someStepFailed (rc w) ->
  newStepExecutor X step ctx w = Ok w2 (Some e) /\
  Status (getJobContext (rc w2)) = "success".
Proof.
  intros Hen Hsetup Hsame Hno.
  split; [exact (setup_error_run step ctx w w1 w2 env exprEval e Hen Hsetup)|].
  destruct (jobStatusLoop_cases (snd <$> map_to_list (StepResults (rc w2))))
    as [Hf|Hs]; [|exact Hs].
  exfalso. apply Hno.
  assert (Hfail : someStepFailed (rc w2)) by (apply getJobContext_failure; exact Hf).
  destruct Hfail as (id & res & Hl & Hc). rewrite Hsame in Hl. cbn in Hl.
  apply lookup_insert_Some in Hl as [[_ <-] | [_ Hl]]; [discriminate Hc|].
  now exists id, res.
Qed.

(** X15: a step that is to run while the run context has no job container
    makes the executor panic with a nil dereference, before the body of
    the step is run. *)
Theorem newStepExecutor_nil_container
    step ctx (w w1 w2 : World) env exprEval :
  sc_isEnabled X (mkStepContext step ∅) ctx (started step w)
    = Ok w1 (true, None) ->
  sc_setupEnv X (mkStepContext step ∅) ctx w1
    = Ok w2 (env, exprEval, None) ->
  JobContainer (rc w2) = None ->
  newStepExecutor X step ctx w = Panicked nilDeref.
Proof.
  intros Hen Hsetup Hc.
  rewrite newStepExecutor_split.
  assert (Hup : upToBody X step ctx w = Panicked nilDeref).
  { rewrite upToBody_started.
    erewrite mbind_Ok by exact Hen. cbv beta iota. cbn [negb].
    erewrite mbind_Ok by exact Hsetup. cbv beta iota.
    erewrite mbind_Ok by reflexivity.
    erewrite mbind_Ok by reflexivity.
    erewrite mbind_Ok by apply getRc_Ok.
    cbn. rewrite Hc. reflexivity. }
  unfold mbind, M_bind, bind. now rewrite Hup.
Qed.

End Facts.

Lemma newStepExecutor_skipped_witness :
  exists w2 res,
    newStepExecutor (sim.simExternals None) (mkStep "s1" "false" "make" false)
      Background (stepWorld (Some ∅)) = Ok w2 None /\
    StepResults (rc w2) !! "s1" = Some res /\
    Conclusion res = StepStatusSkipped /\
    Outcome res = StepStatusSkipped /\
    ext w2 = ext (stepWorld (Some ∅)).
Proof.
  destruct (newStepExecutor_skipped (sim.simExternals None)
              (mkStep "s1" "false" "make" false) Background
              (stepWorld (Some ∅))
              (started (mkStep "s1" "false" "make" false) (stepWorld (Some ∅))))
    as (w2 & res & H1 & H2 & H3 & H4 & H5 & _).
  - reflexivity.
  - split; [reflexivity|]. eexists. cbn. apply lookup_insert_eq.
  - exists w2, res. repeat split; assumption.
Defined.

Lemma newStepExecutor_condition_error_witness :
  exists w2 res,
    newStepExecutor (erringExternals (Some "unexpected token") None)
      (mkStep "s1" "${{" "make" true)
      Background (stepWorld (Some ∅)) = Ok w2 (Some "unexpected token") /\
    StepResults (rc w2) !! "s1" = Some res /\
    Conclusion res = StepStatusFailure /\
    Outcome res = StepStatusFailure.
Proof.
  destruct (newStepExecutor_condition_error
              (erringExternals (Some "unexpected token") None)
              (mkStep "s1" "${{" "make" true) Background
              (stepWorld (Some ∅))
              (started (mkStep "s1" "${{" "make" true) (stepWorld (Some ∅)))
              true "unexpected token")
    as (w2 & res & H1 & H2 & H3 & H4 & _).
  - reflexivity.
  - split; [reflexivity|]. eexists. cbn. apply lookup_insert_eq.
  - exists w2, res. repeat split; assumption.
Defined.

Lemma newStepExecutor_setup_error_witness :
  exists w2 res,
    newStepExecutor (erringExternals None (Some "invalid env"))
      (mkStep "s1" "" "make" false)
      Background (stepWorld (Some ∅)) = Ok w2 (Some "invalid env") /\
    StepResults (rc w2) !! "s1" = Some res /\
    Conclusion res = StepStatusSuccess /\
    Outcome res = StepStatusSuccess.
Proof.
  destruct (newStepExecutor_setup_error
              (erringExternals None (Some "invalid env"))
              (mkStep "s1" "" "make" false) Background
              (stepWorld (Some ∅))
              (started (mkStep "s1" "" "make" false) (stepWorld (Some ∅)))
              (started (mkStep "s1" "" "make" false) (stepWorld (Some ∅)))
              ∅ (mkExpressionEvaluator (fun s => s)) "invalid env")
    as (H1 & H2).
  - reflexivity.
  - reflexivity.
  - destruct (H2 eq_refl) as (res & H3 & H4 & H5).
    eexists _, res. split; [exact H1|]. repeat split; assumption.
Defined.

Lemma newStepExecutor_condition_error_status_witness :
  exists w2,
    newStepExecutor (erringExternals (Some "unexpected token") None)
      (mkStep "s1" "${{" "make" true)
      Background (stepWorld (Some ∅)) = Ok w2 (Some "unexpected token") /\
    Status (getJobContext (rc w2)) = "failure".
Proof.
  apply (newStepExecutor_condition_error_status
           (erringExternals (Some "unexpected token") None)
           (mkStep "s1" "${{" "make" true) Background
           (stepWorld (Some ∅))
           (started (mkStep "s1" "${{" "make" true) (stepWorld (Some ∅)))
           true "unexpected token").
  - reflexivity.
  - split; [reflexivity|]. eexists. cbn. apply lookup_insert_eq.
Defined.

Lemma newStepExecutor_setup_error_status_witness :
  newStepExecutor (erringExternals None (Some "invalid env"))
    (mkStep "s1" "" "make" false) Background (stepWorld (Some ∅))
  = Ok (started (mkStep "s1" "" "make" false) (stepWorld (Some ∅)))
       (Some "invalid env") /\
  Status (getJobContext
            (rc (started (mkStep "s1" "" "make" false) (stepWorld (Some ∅)))))
  = "success".
Proof.
  apply (newStepExecutor_setup_error_status
           (erringExternals None (Some "invalid env"))
           (mkStep "s1" "" "make" false) Background
           (stepWorld (Some ∅))
           (started (mkStep "s1" "" "make" false) (stepWorld (Some ∅)))
           (started (mkStep "s1" "" "make" false) (stepWorld (Some ∅)))
           ∅ (mkExpressionEvaluator (fun s => s)) "invalid env").
  - reflexivity.
  - reflexivity.
  - reflexivity.
  - intros (id & res & Hl & _). cbn in Hl. rewrite lookup_empty in Hl.
    discriminate.
Defined.

Lemma newStepExecutor_nil_container_witness :
  newStepExecutor (sim.simExternals None) (mkStep "s1" "" "make" false)
    Background noContainerWorld = Panicked nilDeref.
Proof.
  apply (newStepExecutor_nil_container (sim.simExternals None)
           (mkStep "s1" "" "make" false) Background noContainerWorld
           (started (mkStep "s1" "" "make" false) noContainerWorld)
           (started (mkStep "s1" "" "make" false) noContainerWorld)
           ∅ (mkExpressionEvaluator (fun s => s))); reflexivity.
Defined.

End step_early_facts.

(* ===================================================================== *)
(** * Enabling a job, its image, and runs without teardown *)
(* ===================================================================== *)

Module enabled_facts.
Import common model container runner monad_facts enabled_spec.

Section Facts.
Context {Ext : Type}.
Variable X : Externals Ext.
Abbreviation World := (common.World (RunContext Ext) Ext).

Lemma addLogs_nil {RC} (w : common.World RC Ext) : addLogs [] w = w.
Proof. destruct w. unfold addLogs. cbn. now rewrite app_nil_r. Qed.

Lemma addLogs_addLogs {RC} l1 l2 (w : common.World RC Ext) :
  addLogs l2 (addLogs l1 w) = addLogs (l1 ++ l2) w.
Proof. unfold addLogs. cbn. now rewrite <- app_assoc. Qed.

Lemma logf_addLogs {RC} lvl msg (w : common.World RC Ext) :
  logf lvl msg w = Ok (addLogs [(lvl, msg)] w) tt.
Proof. reflexivity. Qed.

Lemma mapM_logf {A} lvl (f : A -> string) (ls : list A) :
  forall w : World,
    exists us,
      mapM (fun x => logf lvl (f x)) ls w
      = Ok (addLogs (map (fun x => (lvl, f x)) ls) w) us.
Proof.
  induction ls as [|x ls IH]; intros w.
  - exists []. cbn [mapM map]. now rewrite addLogs_nil.
  - cbn [mapM map].
    erewrite mbind_Ok by apply logf_addLogs.
    destruct (IH (addLogs [(lvl, f x)] w)) as [us Hus].
    erewrite mbind_Ok by exact Hus.
    exists (tt :: us). now rewrite addLogs_addLogs.
Qed.

Lemma platformImageLoop_empty r labels :
  platformImageLoop X r labels = "" <->
  forall label, label ∈ labels -> labelImage X r label = "".
Proof.
  induction labels as [|l labels IH]; cbn [platformImageLoop].
  - split; [intros _ label H; inversion H | reflexivity].
  - fold (labelImage X r l).
    destruct (String.eqb (labelImage X r l) "") eqn:E; cbn [negb].
    + apply String.eqb_eq in E. rewrite IH. split.
      * intros H label [->|Hin]%elem_of_cons; [exact E | now apply H].
      * intros H label Hin. apply H. now right.
    + apply String.eqb_neq in E. split; [congruence|].
      intros H. exfalso. apply E, H. now left.
Qed.

Lemma platformImageLoop_first r labels :
  platformImageLoop X r labels <> "" ->
  exists (i : nat) label,
    labels !! i = Some label /\
    labelImage X r label = platformImageLoop X r labels /\
    forall (j : nat) label', (j < i)%nat -> labels !! j = Some label' ->
      labelImage X r label' = "".
Proof.
  induction labels as [|l labels IH]; cbn [platformImageLoop]; [congruence|].
  fold (labelImage X r l).
  destruct (String.eqb (labelImage X r l) "") eqn:E; cbn [negb].
  - apply String.eqb_eq in E. intros H.
    destruct (IH H) as (i & label & Hi & Himg & Hbefore).
    exists (S i), label. split; [exact Hi|]. split; [exact Himg|].
    intros [|j] label' Hj Hl.
    + injection Hl as <-. exact E.
    + apply (Hbefore j); [lia | exact Hl].
  - intros _. exists 0%nat, l. split; [reflexivity|]. split; [reflexivity|].
    intros j label' Hj. lia.
Qed.

(** [platformImage] changes nothing but the log. *)
Lemma platformImage_run (w : World) :
  exists l img,
    platformImage X w = Ok (addLogs l w) img /\
    (img <> "" -> l = []) /\
    match Job_Container (Run_Job (Run_ (rc w))) with
    | Some c => img = Interpolate (ExprEval (rc w)) (Image c)
    | None => img = platformImageLoop X (rc w) (runnerLabels (rc w))
    end.
Proof.
  unfold platformImage. erewrite mbind_Ok by apply getRc_Ok. cbv zeta.
  destruct (Job_Container _) as [c|] eqn:Ec.
  - exists [], (Interpolate (ExprEval (rc w)) (Image c)).
    rewrite addLogs_nil. repeat split.
  - unfold runnerLabels.
    destruct (Job_RunsOn _) as [labels|] eqn:Er.
    + exists [], (platformImageLoop X (rc w) labels).
      rewrite addLogs_nil. repeat split.
    + eexists _, "". split; [reflexivity|]. split; [congruence | reflexivity].
Qed.

(** X16: the image of a job is the interpolated image of the job's
    container when the job has one, whatever [runs-on] says; otherwise it
    is the image configured for the first [runs-on] label that has a
    non-empty one, and the empty string exactly when no label has one.
    Finding the image changes nothing but the log. *)
Theorem platformImage_spec (w : World) :
  exists l img,
    platformImage X w = Ok (addLogs l w) img /\
    (forall c,
       Job_Container (Run_Job (Run_ (rc w))) = Some c ->
       img = Interpolate (ExprEval (rc w)) (Image c)) /\
    (Job_Container (Run_Job (Run_ (rc w))) = None ->
     (img = "" <->
      forall label,
        label ∈ runnerLabels (rc w) -> labelImage X (rc w) label = "") /\
     (img <> "" ->
      exists (i : nat) label,
        runnerLabels (rc w) !! i = Some label /\
        labelImage X (rc w) label = img /\
        forall (j : nat) label',
          (j < i)%nat -> runnerLabels (rc w) !! j = Some label' ->
          labelImage X (rc w) label' = "")).
Proof.
  destruct (platformImage_run w) as (l & img & Hrun & _ & Himg).
  exists l, img. split; [exact Hrun|]. split.
  - intros c Hc. now rewrite Hc in Himg.
  - intros Hc. rewrite Hc in Himg. subst img. split.
    + apply platformImageLoop_empty.
    + apply platformImageLoop_first.
Qed.

(** [isEnabled], step by step. *)
Lemma isEnabled_run ctx (w : World) :
  exists l b,
    isEnabled X ctx w = Ok (addLogs l w) b /\
    (b = true -> l = []) /\
    (b = true <->
     conditionHolds X (rc w) /\
     match Job_Container (Run_Job (Run_ (rc w))) with
     | Some c => Interpolate (ExprEval (rc w)) (Image c) <> ""
     | None => platformImageLoop X (rc w) (runnerLabels (rc w)) <> ""
     end).
Proof.
  unfold isEnabled, conditionHolds.
  erewrite mbind_Ok by apply getRc_Ok. cbv zeta.
  destruct (EvalBool X _ _) as [runJob [e|]].
  - erewrite mbind_Ok by apply logf_addLogs.
    eexists _, false. split; [reflexivity|].
    split; [discriminate|]. split; [discriminate|]. intros [[=] _].
  - destruct runJob; cbn [negb].
    + destruct (platformImage_run w) as (l & img & Hrun & Hl & Himg).
      erewrite mbind_Ok by exact Hrun.
      destruct (String.eqb img "") eqn:E.
      * apply String.eqb_eq in E.
        assert (Hlog :
          exists l1,
            (match Job_RunsOn (Run_Job (Run_ (rc w))) with
             | None =>
               logf ErrorLevel
                 ("'runs-on' key not defined in " +:+ String_ (rc w))
             | Some _ => mret tt
             end : M World unit) (addLogs l w) = Ok (addLogs l1 w) tt).
        { destruct (Job_RunsOn _).
          - exists l. reflexivity.
          - eexists. rewrite logf_addLogs, addLogs_addLogs. reflexivity. }
        destruct Hlog as [l1 Hlog].
        erewrite mbind_Ok by exact Hlog.
        destruct (mapM_logf InfoLevel
                    (fun runnerLabel =>
                       "🚧  Skipping unsupported platform -- Try running with `-P "
                       +:+ Interpolate (ExprEval (rc w)) runnerLabel +:+ "=...`")
                    (default [] (Job_RunsOn (Run_Job (Run_ (rc w)))))
                    (addLogs l1 w)) as [us Hus].
        erewrite mbind_Ok by exact Hus.
        rewrite addLogs_addLogs.
        eexists _, false. split; [reflexivity|].
        split; [discriminate|]. split; [discriminate|].
        intros [_ H]. exfalso.
        destruct (Job_Container _); subst img; now apply H.
      * apply String.eqb_neq in E.
        exists l, true. split; [reflexivity|].
        split; [intros _; now apply Hl|].
        split; [|reflexivity]. intros _. split; [reflexivity|].
        destruct (Job_Container _); now subst img.
    + erewrite mbind_Ok by apply logf_addLogs.
      eexists _, false. split; [reflexivity|].
      split; [discriminate|]. split; [discriminate|]. intros [[=] _].
Qed.

(** X17: a job is enabled exactly when its condition evaluates to true
    without error and an image is found for it (the container's image, or
    the image of a [runs-on] label). Deciding it never panics and changes
    nothing but the log, and a job that is enabled is so without a log
    entry. *)
Theorem isEnabled_spec ctx (w : World) :
  exists l b,
    isEnabled X ctx w = Ok (addLogs l w) b /\
    (b = true -> l = [] /\ isEnabled X ctx w = Ok w true) /\
    (b = true <->
     conditionHolds X (rc w) /\
     match Job_Container (Run_Job (Run_ (rc w))) with
     | Some c => Interpolate (ExprEval (rc w)) (Image c) <> ""
     | None => platformImageLoop X (rc w) (runnerLabels (rc w)) <> ""
     end).
Proof.
  destruct (isEnabled_run ctx w) as (l & b & Hrun & Hl & Hb).
  exists l, b. split; [exact Hrun|]. split; [|exact Hb].
  intros ->. split; [now apply Hl|].
  rewrite Hrun, (Hl eq_refl). now rewrite addLogs_nil.
Qed.

(** X18: the executor of a job that is not enabled does nothing: it returns
    no error, the job's steps and the teardown are not run, and the run
    context and the substrate are as they were. *)
Theorem rc_Executor_disabled ctx (w wE : World) :
  isEnabled X ctx w = Ok wE false ->
  rc_Executor X ctx w = Ok wE None /\ rc wE = rc w /\ ext wE = ext w.
Proof.
  intros H. split.
  - unfold rc_Executor, If. erewrite bind_Ok by exact H. reflexivity.
  - destruct (isEnabled_run ctx w) as (l & b & Hrun & _).
    rewrite Hrun in H. injection H as <- _. split; reflexivity.
Qed.

(** X19: when the job's steps leave the run context without a job container
    there is no teardown: the executor returns what the steps returned, in
    the world they left. *)
Theorem rc_Executor_no_container ctx (w wE w1 : World) r :
  isEnabled X ctx w = Ok wE true ->
  newJobExecutor X ctx wE = Ok w1 r ->
  JobContainer (rc w1) = None ->
  rc_Executor X ctx w = Ok w1 r.
Proof.
  intros Hen Hjob Hc.
  unfold rc_Executor, If. erewrite bind_Ok by exact Hen. cbv beta iota.
  unfold Finally. erewrite bind_Ok by exact Hjob. cbv beta.
  assert (Hfin : Executor_finally X ctx w1 = Ok w1 None).
  { unfold Executor_finally. erewrite mbind_Ok by apply getRc_Ok.
    now rewrite Hc. }
  erewrite bind_Ok by exact Hfin. destruct r; reflexivity.
Qed.

End Facts.

Section Volumes.
Context {Ext RC : Type}.
Variable cli : DockerClient Ext.

(** X20: in a dry run the volume-removal executor removes nothing: the
    daemon is still asked for the volumes, and the error of connecting or
    of listing is returned, but the substrate and the run context are left
    as they were, whether or not the volume exists. *)
Theorem volumeRemove_dryrun volume force ctx (w : common.World RC Ext) :
  Dryrun ctx = true ->
  exists l,
    NewDockerVolumeRemoveExecutor cli volume force ctx w
    = Ok (addLogs l w)
        (match GetDockerClient cli ctx (ext w) with
         | Some e => Some e
         | None => snd (VolumeList cli ctx (ext w))
         end).
Proof.
  intros Hdry. unfold NewDockerVolumeRemoveExecutor. unfoldM.
  destruct (GetDockerClient cli ctx (ext w)) as [e|].
  - exists []. now rewrite addLogs_nil.
  - destruct (VolumeList cli ctx (ext w)) as [list [e|]].
    + exists []. now rewrite addLogs_nil.
    + destruct (volumeListed list volume).
      * unfold removeExecutor. unfoldM. rewrite Hdry.
        eexists. reflexivity.
      * exists []. now rewrite addLogs_nil.
Qed.

End Volumes.

Lemma rc_Executor_disabled_witness :
  exists wE,
    rc_Executor (sim.simExternals (Some "step failed")) Background disabledWorld
      = Ok wE None /\
    rc wE = rc disabledWorld /\ ext wE = ext disabledWorld.
Proof.
  exists (addLogs [(DebugLevel, "Skipping job 'build' due to 'false'")]
            disabledWorld).
  apply (rc_Executor_disabled (sim.simExternals (Some "step failed"))
           Background disabledWorld).
  reflexivity.
Defined.

Lemma rc_Executor_no_container_witness :
  rc_Executor (sim.simExternals (Some "step failed")) Background
    step_early_spec.noContainerWorld
  = Ok step_early_spec.noContainerWorld (Some "step failed").
Proof.
  apply (rc_Executor_no_container (sim.simExternals (Some "step failed"))
           Background step_early_spec.noContainerWorld
           step_early_spec.noContainerWorld);
    reflexivity.
Defined.

Lemma volumeRemove_dryrun_witness :
  exists l,
    NewDockerVolumeRemoveExecutor sim.simDocker sim.simName false dryrunContext
      (lifecycle_spec.jobWorld false false None)
    = Ok (addLogs l (lifecycle_spec.jobWorld false false None)) None.
Proof.
  apply (volumeRemove_dryrun sim.simDocker sim.simName false dryrunContext
           (lifecycle_spec.jobWorld false false None)).
  reflexivity.
Defined.

End enabled_facts.

(* ===================================================================== *)
(** * The defaults of the GitHub context *)
(* ===================================================================== *)

Module defaults_facts.
Import common model container runner gostrings gostrings_facts monad_facts
  defaults_spec.

Lemma defaultsTo_orDefault v d : defaultsTo v d (orDefault v d).
Proof.
  unfold defaultsTo, orDefault. destruct (String.eqb_spec v ""); split; congruence.
Qed.

Lemma beforeSlash_ownerOf repo : ownerOf (beforeSlash repo) repo.
Proof.
  unfold ownerOf. induction repo as [|c t [IHc IHr]]; cbn [beforeSlash].
  - split; [reflexivity | now left].
  - destruct (Ascii.eqb_spec c "/") as [->|Hc].
    + split; [reflexivity|]. right. exists t. reflexivity.
    + split.
      * rewrite Contains_cons. cbn [HasPrefix].
        apply Ascii.eqb_neq in Hc. rewrite Hc. exact IHc.
      * destruct IHr as [Ht | [rest Ht]].
        -- left. now rewrite <- Ht.
        -- right. exists rest. sapp. now rewrite <- Ht.
Qed.

Section Facts.
Context {Ext : Type}.
Variable X : Externals Ext.
Abbreviation World := (common.World (RunContext Ext) Ext).

(** X21: [applyDefaults] fills a default only into a field that is empty --
    run id, run number and run attempt [1], retention days [0], the
    perflog [/dev/null], the actor [nektos/act] -- and keeps every value
    that is given. The repository is the one found in the working
    directory, and the owner, when none is given, is what comes before its
    first slash; when no repository is found both are kept. The refs of an
    event that is not a pull request are kept. This holds provided
    [SetRefAndSha] assigns Ref and Sha only. *)
Theorem applyDefaults_fields ghc (r : RunContext Ext) (w w' : World) g :
  setsOnlyRefAndSha X ->
  applyDefaults X ghc r w = Ok w' g ->
  defaultsTo (RunID ghc) "1" (RunID g) /\
  defaultsTo (RunNumber ghc) "1" (RunNumber g) /\
  defaultsTo (RunAttempt ghc) "1" (RunAttempt g) /\
  defaultsTo (RetentionDays ghc) "0" (RetentionDays g) /\
  defaultsTo (RunnerPerflog ghc) "/dev/null" (RunnerPerflog g) /\
  defaultsTo (Actor ghc) "nektos/act" (Actor g) /\
  (Workflow g = Workflow ghc /\ EventName g = EventName ghc /\
   Token g = Token ghc /\ Workspace g = Workspace ghc /\
   EventPath g = EventPath ghc) /\
  (EventName ghc <> "pull_request" ->
   BaseRef g = BaseRef ghc /\ HeadRef g = HeadRef ghc) /\
  (forall x repo,
     FindGithubRepo X (Workdir (Config_ r)) (GitHubInstance (Config_ r)) (ext w)
       = Ok x (repo, None) ->
     Repository g = repo /\
     (RepositoryOwner ghc <> "" -> RepositoryOwner g = RepositoryOwner ghc) /\
     (RepositoryOwner ghc = "" -> ownerOf (RepositoryOwner g) repo)) /\
  (forall x repo e,
     FindGithubRepo X (Workdir (Config_ r)) (GitHubInstance (Config_ r)) (ext w)
       = Ok x (repo, Some e) ->
     Repository g = Repository ghc /\
     RepositoryOwner g = RepositoryOwner ghc).
Proof.
  intros HS Hrun. unfold applyDefaults in Hrun. unfoldM.
  destruct (FindGithubRepo X _ _ (ext w)) as [x [repo err]|] eqn:Hrepo;
    [|discriminate].
  assert (Hpr : EventName ghc <> "pull_request" ->
                String.eqb (EventName ghc) "pull_request" = false)
    by (intros H; now apply String.eqb_neq).
  assert (Hown : RepositoryOwner ghc <> "" ->
                 orDefault (RepositoryOwner ghc) (beforeSlash repo)
                 = RepositoryOwner ghc)
    by (intros H; now apply defaultsTo_orDefault).
  assert (Hown' : RepositoryOwner ghc = "" ->
                  ownerOf (orDefault (RepositoryOwner ghc) (beforeSlash repo))
                    repo).
  { intros H. unfold orDefault. rewrite H. cbn. apply beforeSlash_ownerOf. }
  destruct err as [e|];
    destruct (String.eqb (EventJSON r) ""); cbn [negb] in Hrun;
    try destruct (json_Unmarshal_Event X _ _) as [ev [e'|]];
    cbn [rc ext logs canceled] in Hrun;
    match type of Hrun with
    | match SetRefAndSha X ?b ?p ?g0 ?x0 with _ => _ end = _ =>
      destruct (SetRefAndSha X b p g0 x0) as [x' g'|] eqn:Hset;
        [|discriminate];
      destruct (HS _ _ _ _ _ _ Hset) as (ref & sha & Hg)
    end;
    injection Hrun as _ <-; subst g'; cbn;
    (repeat match goal with
            | |- _ /\ _ => split
            | |- forall _, _ => intro
            end;
     simplify_eq; try apply defaultsTo_orDefault; try reflexivity;
     try (rewrite Hpr by assumption; reflexivity); auto).
Qed.

End Facts.

Lemma simExternals_setsOnlyRefAndSha jobError :
  setsOnlyRefAndSha (sim.simExternals jobError).
Proof.
  intros b p g x x' g' [= _ <-]. now exists "refs/heads/main", "0123abc".
Qed.

Lemma applyDefaults_fields_witness :
  exists w' g,
    applyDefaults (sim.simExternals None)
      (initialGithubContext (sim.simExternals None)
         (rc (github_spec.baseWorld None)))
      (rc (github_spec.baseWorld None)) (github_spec.baseWorld None)
    = Ok w' g /\
    RunID g = "1" /\ Actor g = "octocat" /\
    Repository g = "octo/demo" /\ ownerOf (RepositoryOwner g) "octo/demo".
Proof.
  destruct (applyDefaults (sim.simExternals None)
              (initialGithubContext (sim.simExternals None)
                 (rc (github_spec.baseWorld None)))
              (rc (github_spec.baseWorld None)) (github_spec.baseWorld None))
    as [w' g|] eqn:Hrun; [|discriminate Hrun].
  exists w', g. split; [reflexivity|].
  destruct (applyDefaults_fields (sim.simExternals None) _ _ _ _ _
              (simExternals_setsOnlyRefAndSha None) Hrun)
    as (H1 & _ & _ & _ & _ & H6 & _ & _ & H9 & _).
  destruct (H9 (ext (github_spec.baseWorld None)) "octo/demo" eq_refl)
    as (Hr & _ & Ho).
  split; [now apply H1|]. split; [apply H6; discriminate|].
  split; [exact Hr|]. now apply Ho.
Defined.

End defaults_facts.

(* ===================================================================== *)
(** * Binds and mounts, credentials, outputs and the environment of a step *)
(* ===================================================================== *)

Module setup_facts.
Import common model container runner runner_setup gostrings gostrings_facts
  naming naming_spec monad_facts setup_spec.





Section Facts.
Context {Ext : Type}.
Variable X : Externals Ext.
Variable H : Host Ext.
Abbreviation World := (common.World (RunContext Ext) Ext).


(** X23: when the job's container declares credentials, [handleCredentials]
    succeeds exactly when the declaration has the two keys [username] and
    [password] and no other, both with a value that is not empty and whose
    interpolation is not empty; what it returns then are the two
    interpolated values, and the secrets [DOCKER_USERNAME] and
    [DOCKER_PASSWORD] are not used. *)
Theorem handleCredentials_declared
    (r : RunContext Ext) (c : ContainerSpec) (creds : gmap string string)
    (username password : string) :
  Job_Container (Run_Job (Run_ r)) = Some c ->
  handleCredentials H r (Some creds) = (username, password, None) <->
  exists rawUser rawPass,
    creds = {["username" := rawUser; "password" := rawPass]} /\
    rawUser <> "" /\ rawPass <> "" /\
    username = Interpolate (NewExpressionEvaluator H r) rawUser /\
    password = Interpolate (NewExpressionEvaluator H r) rawPass /\
    username <> "" /\ password <> "".
Proof.
  intros Hc. unfold handleCredentials. rewrite Hc. cbv zeta. split.
  - destruct (Nat.eqb_spec (size creds) 2) as [Hsize|]; cbn [negb];
      [|discriminate].
    destruct (String.eqb_spec
                (Interpolate (NewExpressionEvaluator H r)
                   (default "" (creds !! "username"))) "") as [|Hu];
      [discriminate|].
    destruct (String.eqb_spec
                (Interpolate (NewExpressionEvaluator H r)
                   (default "" (creds !! "password"))) "") as [|Hp];
      [discriminate|].
    destruct (String.eqb_spec (default "" (creds !! "username")) "")
      as [|Hru]; [discriminate|].
    destruct (String.eqb_spec (default "" (creds !! "password")) "")
      as [|Hrp]; [discriminate|].
    cbn [orb]. intros [= <- <-].
    destruct (creds !! "username") as [ru|] eqn:Eu; [|now cbn in Hru].
    destruct (creds !! "password") as [rp|] eqn:Ep; [|now cbn in Hrp].
    cbn [default] in *. exists ru, rp.
    split; [|repeat split; assumption].
    assert (Hrest : delete "password" (delete "username" creds) = ∅).
    { apply map_size_empty_inv.
      rewrite map_size_delete_Some
        by (rewrite lookup_delete_ne by discriminate; eauto).
      rewrite map_size_delete_Some by eauto. now rewrite Hsize. }
    rewrite <- (insert_delete_id creds "username" ru Eu).
    rewrite <- (insert_delete_id (delete "username" creds) "password" rp)
      by (rewrite lookup_delete_ne by discriminate; exact Ep).
    now rewrite Hrest, insert_empty.
  - intros (ru & rp & -> & Hru & Hrp & -> & -> & Hu & Hp).
    rewrite map_size_insert_None by (apply lookup_singleton_ne; discriminate).
    rewrite map_size_singleton. cbn [Nat.eqb negb].
    rewrite lookup_insert_eq.
    rewrite lookup_insert_ne by discriminate. rewrite lookup_singleton_eq.
    cbn [default from_option id].
    apply String.eqb_neq in Hru, Hrp, Hu, Hp.
    now rewrite Hu, Hp, Hru, Hrp.
Qed.

(** X24: after [interpolateOutputs] every output of the job holds the
    interpolation of the value it held, under the same key: the test that
    skips the assignment of an unchanged value makes no difference. *)
Theorem interpolateOutputs_fmap (r : RunContext Ext)
    (outputs : gmap string string) :
  interpolateOutputs H r outputs
  = Interpolate (NewExpressionEvaluator H r) <$> outputs.
Proof.
  unfold interpolateOutputs. cbv zeta.
  set (ee := NewExpressionEvaluator H r).
  set (f := fun (k v : string) (outs : gmap string string) =>
              if negb (String.eqb v (Interpolate ee v))
              then <[k := Interpolate ee v]> outs else outs).
  assert (Hgen : forall m,
            m ⊆ outputs ->
            forall k,
              map_fold f outputs m !! k
              = match m !! k with
                | Some v => Some (Interpolate ee v)
                | None => outputs !! k
                end).
  { intros m.
    apply (map_fold_weak_ind
             (fun acc m =>
                m ⊆ outputs ->
                forall k,
                  acc !! k = match m !! k with
                             | Some v => Some (Interpolate ee v)
                             | None => outputs !! k
                             end)).
    - intros _ k. now rewrite lookup_empty.
    - intros i x m0 acc Hi IH Hsub k.
      assert (Hsub0 : m0 ⊆ outputs).
      { etrans; [|exact Hsub]. now apply insert_subseteq. }
      assert (Hix : outputs !! i = Some x).
      { eapply lookup_weaken; [|exact Hsub]. apply lookup_insert_eq. }
      specialize (IH Hsub0). unfold f.
      destruct (decide (k = i)) as [->|Hne].
      + rewrite lookup_insert_eq.
        destruct (String.eqb_spec x (Interpolate ee x)) as [E|E]; cbn [negb].
        * rewrite IH, Hi, Hix. now rewrite <- E.
        * apply lookup_insert_eq.
      + rewrite (lookup_insert_ne m0) by congruence.
        destruct (negb _); [rewrite lookup_insert_ne by congruence|];
          apply IH. }
  apply map_eq. intros k. rewrite (Hgen outputs) by reflexivity.
  rewrite lookup_fmap. now destruct (outputs !! k).
Qed.

Lemma assign_cons k v kvs (env : gmap string string) :
  assign ((k, v) :: kvs) env = assign kvs (<[k := v]> env).
Proof. reflexivity. Qed.

Lemma assign_nil (env : gmap string string) : assign [] env = env.
Proof. reflexivity. Qed.

Lemma assign_other kvs :
  forall (env : gmap string string) k,
    Forall (fun kv => fst kv <> k) kvs -> assign kvs env !! k = env !! k.
Proof.
  induction kvs as [|[k0 v0] kvs IH]; intros env k Hall; [reflexivity|].
  apply Forall_cons in Hall as [Hk Hall]. rewrite assign_cons, IH by exact Hall.
  now apply lookup_insert_ne.
Qed.

Lemma imageOSLoop_other (r : RunContext Ext) labels :
  forall (env : gmap string string) k,
    k <> "ImageOS" -> imageOSLoop r labels env !! k = env !! k.
Proof.
  unfold imageOSLoop.
  induction labels as [|l labels IH]; intros env k Hk; [reflexivity|].
  cbn [fold_left]. rewrite IH by exact Hk.
  destruct (negb _); [now apply lookup_insert_ne | reflexivity].
Qed.

Lemma imageOSLoop_app (r : RunContext Ext) l1 l2 (env : gmap string string) :
  imageOSLoop r (l1 ++ l2) env = imageOSLoop r l2 (imageOSLoop r l1 env).
Proof. unfold imageOSLoop. apply fold_left_app. Qed.

Lemma imageOSLoop_skip (r : RunContext Ext) labels :
  forall env : gmap string string,
    Forall (fun l => Interpolate (ExprEval r) l = "") labels ->
    imageOSLoop r labels env = env.
Proof.
  unfold imageOSLoop.
  induction labels as [|l labels IH]; intros env Hall; [reflexivity|].
  apply Forall_cons in Hall as [Hl Hall]. cbn [fold_left].
  rewrite Hl. cbn. now apply IH.
Qed.

Lemma setActionRuntimeVars_other cfg (env : gmap string string) k :
  k <> "ACTIONS_RUNTIME_URL" -> k <> "ACTIONS_RUNTIME_TOKEN" ->
  setActionRuntimeVars H cfg env !! k = env !! k.
Proof.
  intros H1 H2. unfold setActionRuntimeVars. cbv zeta.
  rewrite lookup_insert_ne by congruence. now apply lookup_insert_ne.
Qed.

(** The part of [githubEnvOf] after the server URLs leaves the variables
    of the URLs and of the markers as they are. *)
Lemma githubEnvOf_tail (r : RunContext Ext) cfg (env : gmap string string) k :
  k <> "ACTIONS_RUNTIME_URL" -> k <> "ACTIONS_RUNTIME_TOKEN" ->
  k <> "ImageOS" ->
  match Job_RunsOn (Run_Job (Run_ r)) with
  | Some labels =>
    imageOSLoop r labels
      (if negb (String.eqb (ArtifactServerPath cfg) "")
       then setActionRuntimeVars H cfg env else env)
  | None =>
    if negb (String.eqb (ArtifactServerPath cfg) "")
    then setActionRuntimeVars H cfg env else env
  end !! k = env !! k.
Proof.
  intros H1 H2 H3.
  assert (E : (if negb (String.eqb (ArtifactServerPath cfg) "")
               then setActionRuntimeVars H cfg env else env) !! k = env !! k).
  { destruct (negb _); [now apply setActionRuntimeVars_other | reflexivity]. }
  destruct (Job_RunsOn _); [rewrite imageOSLoop_other by exact H3|]; exact E.
Qed.

Lemma githubEnvOf_other (r : RunContext Ext) cfg github
    (env : gmap string string) k :
  k <> "GITHUB_SERVER_URL" -> k <> "GITHUB_API_URL" ->
  k <> "GITHUB_GRAPHQL_URL" -> k <> "ACTIONS_RUNTIME_URL" ->
  k <> "ACTIONS_RUNTIME_TOKEN" -> k <> "ImageOS" ->
  githubEnvOf H r cfg github env !! k = assign (githubEnv r github) env !! k.
Proof.
  intros H1 H2 H3 H4 H5 H6. unfold githubEnvOf. cbv zeta.
  rewrite githubEnvOf_tail by assumption.
  destruct (0 <? _)%nat; repeat (rewrite lookup_insert_ne by congruence);
    (destruct (negb (String.eqb (GitHubInstance _) _));
     [rewrite !assign_cons, assign_nil;
      repeat (rewrite lookup_insert_ne by congruence)|]; reflexivity).
Qed.

Ltac lookup_assigned :=
  repeat (rewrite lookup_insert_ne by discriminate);
  try rewrite lookup_insert_eq; try reflexivity.

(** X25: the three server URLs of a step's environment. When a server URL
    is configured it overrides all three, and the API and GraphQL URLs are
    then the configured ones even when those are empty; otherwise they are
    the URLs of github.com, or those derived from the configured instance
    when it is not github.com. *)
Theorem withGithubEnv_urls cfg env (w w1 : World) github :
  getGithubContext X w = Ok w1 github ->
  exists env',
    withGithubEnv X H cfg env w = Ok w1 env' /\
    (GitHubServerUrl cfg <> "" ->
     env' !! "GITHUB_SERVER_URL" = Some (GitHubServerUrl cfg) /\
     env' !! "GITHUB_API_URL" = Some (GitHubApiServerUrl cfg) /\
     env' !! "GITHUB_GRAPHQL_URL" = Some (GitHubGraphQlApiServerUrl cfg)) /\
    (GitHubServerUrl cfg = "" ->
     GitHubInstance (Config_ (rc w1)) = "github.com" ->
     env' !! "GITHUB_SERVER_URL" = Some "https://github.com" /\
     env' !! "GITHUB_API_URL" = Some "https://api.github.com" /\
     env' !! "GITHUB_GRAPHQL_URL" = Some "https://api.github.com/graphql") /\
    (GitHubServerUrl cfg = "" ->
     GitHubInstance (Config_ (rc w1)) <> "github.com" ->
     env' !! "GITHUB_SERVER_URL"
       = Some ("https://" +:+ GitHubInstance (Config_ (rc w1))) /\
     env' !! "GITHUB_API_URL"
       = Some ("https://" +:+ GitHubInstance (Config_ (rc w1)) +:+ "/api/v3") /\
     env' !! "GITHUB_GRAPHQL_URL"
       = Some ("https://" +:+ GitHubInstance (Config_ (rc w1))
               +:+ "/api/graphql")).
Proof.
  intros Hg. unfold withGithubEnv.
  erewrite mbind_Ok by exact Hg.
  erewrite mbind_Ok by apply getRc_Ok.
  eexists. split; [reflexivity|].
  unfold githubEnvOf. cbv zeta.
  split; [|split].
  - intros Hurl.
    assert (E : (0 <? String.length (GitHubServerUrl cfg))%nat = true).
    { destruct (GitHubServerUrl cfg); [congruence | reflexivity]. }
    rewrite E.
    repeat split; rewrite githubEnvOf_tail by discriminate; lookup_assigned.
  - intros Hurl Hinst. rewrite Hurl, Hinst. cbn [String.length Nat.ltb Nat.leb].
    change (negb ("github.com" =? "github.com")%string) with false. cbv iota.
    repeat split; rewrite githubEnvOf_tail by discriminate;
      unfold githubEnv, assign; cbn [fold_left fst snd]; lookup_assigned.
  - intros Hurl Hinst. rewrite Hurl. cbn [String.length Nat.ltb Nat.leb].
    apply String.eqb_neq in Hinst. rewrite Hinst. cbn [negb].
    repeat split; rewrite githubEnvOf_tail by discriminate;
      rewrite !assign_cons, assign_nil; lookup_assigned.
Qed.

(** X26: [withGithubEnv] keeps every variable of the environment it is given
    that is not one of those it assigns, and the markers [CI] and
    [GITHUB_ACTIONS] are always [true] and [GITHUB_JOB] the name of the
    job in what it returns. *)
Theorem withGithubEnv_keeps cfg env (w w1 : World) github :
  getGithubContext X w = Ok w1 github ->
  exists env',
    withGithubEnv X H cfg env w = Ok w1 env' /\
    env' !! "CI" = Some "true" /\
    env' !! "GITHUB_ACTIONS" = Some "true" /\
    env' !! "GITHUB_JOB" = Some (JobName (rc w1)) /\
    forall k, k ∉ githubKeys -> env' !! k = env !! k.
Proof.
  intros Hg. unfold withGithubEnv.
  erewrite mbind_Ok by exact Hg.
  erewrite mbind_Ok by apply getRc_Ok.
  eexists. split; [reflexivity|].
  split; [rewrite githubEnvOf_other by discriminate;
          unfold githubEnv, assign; cbn [fold_left fst snd]; lookup_assigned|].
  split; [rewrite githubEnvOf_other by discriminate;
          unfold githubEnv, assign; cbn [fold_left fst snd]; lookup_assigned|].
  split; [rewrite githubEnvOf_other by discriminate;
          unfold githubEnv, assign; cbn [fold_left fst snd]; lookup_assigned|].
  intros k Hk.
  assert (HF : Forall (fun key => k <> key) githubKeys).
  { apply Forall_forall. intros key Hin ->. contradiction. }
  unfold githubKeys in HF.
  repeat match type of HF with
         | Forall _ (_ :: _) => apply Forall_cons in HF as [? HF]
         end.
  rewrite githubEnvOf_other by assumption.
  apply assign_other. unfold githubEnv.
  repeat (apply Forall_cons; split; [cbn [fst]; congruence|]).
  constructor.
Qed.

(** X27: [ImageOS] is derived from the last label of [runs-on] whose
    interpolation is not empty -- [ubuntu20] for [ubuntu-latest], otherwise
    the name without its first hyphen, up to its first dot -- while the
    image of the job is that of the first label that is configured. *)
Theorem withGithubEnv_ImageOS cfg env (w w1 : World) github pre label post :
  getGithubContext X w = Ok w1 github ->
  Job_RunsOn (Run_Job (Run_ (rc w1))) = Some (pre ++ label :: post) ->
  Interpolate (ExprEval (rc w1)) label <> "" ->
  Forall (fun l => Interpolate (ExprEval (rc w1)) l = "") post ->
  exists env',
    withGithubEnv X H cfg env w = Ok w1 env' /\
    env' !! "ImageOS"
      = Some (imageOSOf (Interpolate (ExprEval (rc w1)) label)).
Proof.
  intros Hg Hrun Hl Hpost. unfold withGithubEnv.
  erewrite mbind_Ok by exact Hg.
  erewrite mbind_Ok by apply getRc_Ok.
  eexists. split; [reflexivity|].
  unfold githubEnvOf. cbv zeta. rewrite Hrun.
  rewrite imageOSLoop_app.
  change (label :: post) with ([label] ++ post).
  rewrite imageOSLoop_app, (imageOSLoop_skip _ post) by exact Hpost.
  unfold imageOSLoop at 1. cbn [fold_left].
  apply String.eqb_neq in Hl. rewrite Hl. cbn [negb].
  apply lookup_insert_eq.
Qed.

End Facts.


Lemma handleCredentials_declared_witness :
  handleCredentials simHost containerRunContext
    (Some {["username" := "octocat"; "password" := "hunter2"]})
  = ("octocat", "hunter2", None).
Proof.
  apply (handleCredentials_declared simHost containerRunContext
           (mkContainerSpec "node:16")
           {["username" := "octocat"; "password" := "hunter2"]}
           "octocat" "hunter2" eq_refl).
  exists "octocat", "hunter2". repeat split; discriminate.
Defined.

Lemma withGithubEnv_urls_witness :
  exists env',
    withGithubEnv (sim.simExternals None) simHost simConfigMore ∅
      (github_spec.baseWorld None)
    = Ok (github_spec.baseWorld None) env' /\
    env' !! "GITHUB_SERVER_URL" = Some "https://github.com" /\
    env' !! "GITHUB_API_URL" = Some "https://api.github.com" /\
    env' !! "GITHUB_GRAPHQL_URL" = Some "https://api.github.com/graphql".
Proof.
  assert (Hg : exists g,
            getGithubContext (sim.simExternals None) (github_spec.baseWorld None)
            = Ok (github_spec.baseWorld None) g)
    by (eexists; vm_compute; reflexivity).
  destruct Hg as [g Hg].
  destruct (withGithubEnv_urls (sim.simExternals None) simHost simConfigMore ∅
              _ _ _ Hg) as (env' & Hrun & _ & Hdef & _).
  exists env'. split; [exact Hrun|]. apply Hdef; reflexivity.
Defined.

Lemma withGithubEnv_keeps_witness :
  exists env',
    withGithubEnv (sim.simExternals None) simHost simConfigMore
      {["PATH" := "/usr/bin"; "CI" := "false"]} (github_spec.baseWorld None)
    = Ok (github_spec.baseWorld None) env' /\
    env' !! "CI" = Some "true" /\
    env' !! "PATH" = Some "/usr/bin".
Proof.
  assert (Hg : exists g,
            getGithubContext (sim.simExternals None) (github_spec.baseWorld None)
            = Ok (github_spec.baseWorld None) g)
    by (eexists; vm_compute; reflexivity).
  destruct Hg as [g Hg].
  destruct (withGithubEnv_keeps (sim.simExternals None) simHost simConfigMore
              {["PATH" := "/usr/bin"; "CI" := "false"]} _ _ _ Hg)
    as (env' & Hrun & Hci & _ & _ & Hkeep).
  exists env'. split; [exact Hrun|]. split; [exact Hci|].
  rewrite Hkeep; [reflexivity|].
  unfold githubKeys. intros Hin.
  repeat (apply elem_of_cons in Hin as [Hin|Hin]; [discriminate Hin|]).
  inversion Hin.
Defined.

Lemma withGithubEnv_ImageOS_witness :
  exists env',
    withGithubEnv (sim.simExternals None) simHost simConfigMore ∅ twoLabelWorld
    = Ok twoLabelWorld env' /\
    env' !! "ImageOS" = Some "selfhosted" /\
    platformImage (sim.simExternals None) twoLabelWorld
    = Ok twoLabelWorld "node:16".
Proof.
  assert (Hg : exists g,
            getGithubContext (sim.simExternals None) twoLabelWorld
            = Ok twoLabelWorld g)
    by (eexists; vm_compute; reflexivity).
  destruct Hg as [g Hg].
  destruct (withGithubEnv_ImageOS (sim.simExternals None) simHost simConfigMore
              ∅ _ _ _ ["ubuntu-latest"] "self-hosted" [] Hg eq_refl)
    as (env' & Hrun & Hos); [discriminate | constructor |].
  exists env'. split; [exact Hrun|]. split; [exact Hos | reflexivity].
Defined.

End setup_facts.
